(** * Virtual try-on backend: the asynchronous generation pipeline

    A shallow embedding of the generation core of the try-on backend:
    the garment classifier, the normalizer of the hosted model's output,
    the materializer of result images, the job registry with its two HTTP
    handlers ([/api/generate], [/api/status/:requestId]) and the pipeline
    task [processVellaTryOn].

    Two source files carry the code.  The stand-alone service class is
    embedded in [Module VellaService]; the server file, which holds its own
    copy of that class next to the handlers and the pipeline, is embedded in
    [Module Server].  Everything outside the repository (clock, JSON parser,
    file contents, HTTP client, hosted model, canvas) is a field of [World]
    or of the explicit state. *)

From stdpp Require Import gmap strings list pretty sorting.
From Stdlib Require Import ZArith.
From Stdlib.Strings Require Import Byte.

Set Warnings "-register-all".

(** ** Outcomes of fallible calls *)

(** A call either returns a value or throws an error whose [message] is
    what [error.message] reads. *)
Inductive Result (A : Type) : Type :=
| Returns (a : A)
| Throws (message : string).
Arguments Returns {A} a.
Arguments Throws {A} message.

(** Sequencing: a throw skips what follows ([x ← r; k] below). *)
#[global] Instance Result_bind : MBind Result := λ A B k r,
  match r with
  | Returns a => k a
  | Throws m => Throws m
  end.

(** [try { r } catch (error) { handler(error.message) }] *)
Definition try_catch {A : Type} (r : Result A) (handler : string → Result A) : Result A :=
  match r with
  | Returns a => Returns a
  | Throws m => handler m
  end.

Definition returned {A : Type} (r : Result A) : Prop := ∃ a, r = Returns a.

(** ** Strings and buffers *)

Abbreviation Buffer := (list byte).

(** [s.includes(needle)] *)
Fixpoint includes (s needle : string) : bool :=
  String.prefix needle s ||
  match s with
  | EmptyString => false
  | String _ rest => includes rest needle
  end.

(** [s.startsWith(p)] *)
Definition startsWith (s p : string) : bool := String.prefix p s.

(** ** Data values

    Values that reach the handlers as data: request fields and the parsed
    [garmentData].  Numbers are kept as integers; only their being zero and
    their decimal rendering are ever observed. *)
Inductive Json : Type :=
| JUndefined
| JNull
| JBool (b : bool)
| JNum (n : Z)
| JStr (s : string)
| JArr (items : list Json)
| JObj (fields : list (string * Json)).

(** Truthiness of a value in a condition. *)
Definition truthy (v : Json) : bool :=
  match v with
  | JUndefined | JNull => false
  | JBool b => b
  | JNum n => negb (n =? 0)%Z
  | JStr s => negb (String.eqb s EmptyString)
  | JArr _ | JObj _ => true
  end.

(** [v === 'literal'] *)
Definition strictEqStr (v : Json) (literal : string) : bool :=
  match v with
  | JStr s => String.eqb s literal
  | _ => false
  end.

Fixpoint assoc (key : string) (fields : list (string * Json)) : Json :=
  match fields with
  | [] => JUndefined
  | (k, v) :: rest => if String.eqb k key then v else assoc key rest
  end.

(** [v.key] for a data member [key] (none of the names read by the
    handlers is a built-in member of strings, numbers or arrays).  Reading
    a member of [null] or [undefined] throws. *)
Definition member (v : Json) (key : string) : Result Json :=
  match v with
  | JUndefined => Throws ("Cannot read properties of undefined (reading '" +:+ key +:+ "')")
  | JNull => Throws ("Cannot read properties of null (reading '" +:+ key +:+ "')")
  | JObj fields => Returns (assoc key fields)
  | _ => Returns JUndefined
  end.

(** [v.key] where the read cannot throw ([v?.key], or a read guarded by
    the truthiness of [v]). *)
Definition field (v : Json) (key : string) : Json :=
  match v with
  | JObj fields => assoc key fields
  | _ => JUndefined
  end.

(** [v && v.key] *)
Definition guarded (v : Json) (key : string) : Json :=
  if truthy v then field v key else v.

(** [a || b] *)
Definition orElse (a b : Json) : Json := if truthy a then a else b.

(** The string a value turns into as a property key or inside a template
    literal. *)
Fixpoint toString (v : Json) : string :=
  match v with
  | JUndefined => "undefined"
  | JNull => "null"
  | JBool b => if b then "true" else "false"
  | JNum n => pretty n
  | JStr s => s
  | JArr items =>
      String.concat ","
        (map (λ x, match x with
                   | JUndefined | JNull => EmptyString
                   | _ => toString x
                   end) items)
  | JObj _ => "[object Object]"
  end.

(** [garmentId.includes(needle)]: substring test on a string, element test
    on an array, and no such method on anything else. *)
Definition json_includes (v : Json) (needle : string) : Result bool :=
  match v with
  | JStr s => Returns (includes s needle)
  | JArr items => Returns (existsb (λ x, strictEqStr x needle) items)
  | _ => Throws "garmentId.includes is not a function"
  end.

(** ** Garments *)

Record Garment : Type := mkGarment {
  garment_type : Json;
  garment_imagePath : string;
  garment_id : Json
}.

(** ** What the hosted model returns *)

(** A readable byte stream: the chunks its [data] events deliver, closed by
    [end], or broken by an [error] event carrying a message. *)
Record Stream : Type := mkStream {
  chunks : list Buffer;
  failure : option string
}.

(** What a lazy URL resolver hands back when it returns: a string, a URL
    object (whose [toString()] is its [href]), or [null]/[undefined]. *)
Inductive Resolved : Type :=
| ResolvedString (s : string)
| ResolvedUrlObject (href : string)
| ResolvedNullish.

(** What reading [item.url] gives on an object. *)
Inductive UrlMember : Type :=
| UrlResolver (outcome : Result Resolved)
| UrlString (s : string)
| UrlOther.

(** One output item, by the tests the normalizer applies to it.  A stream
    is a [Readable] (and the only kind of value with a callable [pipe]); an
    [ItemObject] is any other non-null object, arrays included; [ItemOther]
    is [undefined], [null], a number, a boolean or a function. *)
Inductive RawItem : Type :=
| ItemStream (stream : Stream)
| ItemString (s : string)
| ItemObject (url : UrlMember)
| ItemOther.

Inductive RawOutput : Type :=
| OutputArray (items : list RawItem)
| OutputSingle (item : RawItem).

(** ** Result records *)

(** The value held in a record's [imageUrl]. *)
Inductive UrlValue : Type :=
| UrlText (s : string)
| UrlObject (href : string)
| UrlNullish
| UrlThunk (outcome : Result UrlValue).

Definition resolved_value (r : Resolved) : UrlValue :=
  match r with
  | ResolvedString s => UrlText s
  | ResolvedUrlObject href => UrlObject href
  | ResolvedNullish => UrlNullish
  end.

Definition typeof_url (v : UrlValue) : string :=
  match v with
  | UrlText _ => "string"
  | UrlObject _ => "object"
  | UrlNullish => "undefined"
  | UrlThunk _ => "function"
  end.

Record ResultRecord : Type := mkRecord {
  imageBuffer : option Buffer;
  imageUrl : UrlValue;
  index : nat;
  record_type : string;
  mimeType : string;
  isStream : bool;
  isMock : bool
}.

(** [{ imageBuffer, index: i, type: 'tryon_result', mimeType: 'image/png', isStream: true }] *)
Definition stream_record (buffer : Buffer) (i : nat) : ResultRecord :=
  mkRecord (Some buffer) UrlNullish i "tryon_result" "image/png" true false.

(** [{ imageUrl, index: i, type: 'tryon_result', mimeType: 'image/png' }] *)
Definition url_record (url : UrlValue) (i : nat) : ResultRecord :=
  mkRecord None url i "tryon_result" "image/png" false false.

(** ** The canvas library *)

Inductive Mime : Type := image_png | image_jpeg.

(** The pictures this code base draws, by the function that draws them and
    its arguments. *)
Inductive Picture : Type :=
| MockImage
| ProfessionalMockImage (modelImagePath : string) (garments : list Garment) (index : Z)
| MockResultImage (modelImagePath : string) (garments : list Garment) (index : nat)
| EnhancedProduct (garments : list Garment)
| ProductBack (garments : list Garment)
| ModelBackView (frontImagePath userId : string).

(** The leading bytes of an encoded image of each format. *)
Definition signature (mime : Mime) : Buffer :=
  match mime with
  | image_png => [x89; x50; x4e; x47; x0d; x0a; x1a; x0a]
  | image_jpeg => [xff; xd8; xff]
  end.

(** ** The HTTP client *)

(** How [axios.get(url, { responseType: 'arraybuffer', timeout: 30000 })]
    settles: it rejects on a timeout, on a network failure and on a
    non-success status; otherwise it resolves with [response.data], which is
    either a buffer or a falsy value ([None]). *)
Inductive Fetch : Type :=
| TimedOut
| NetworkFailure (message : string)
| StatusFailure (status : Z)
| Responded (data : option Buffer).

(** ** The hosted model *)

Record ReplicateInput : Type := mkInput {
  model_image : Buffer;
  num_outputs : Z;
  seed : Z;
  garment_images : gmap string Buffer
}.

(** ** The world outside the repository *)

Record World : Type := mkWorld {
  dirname : string;
  JSON_parse : string → option Json;
  parseInt : Json → option Z;
  random_seed : Z;
  REPLICATE_API_TOKEN : option string;
  replicate_constructs : bool;
  replicate_run : ReplicateInput → Result RawOutput;
  axios_get : string → Fetch;
  canvas : Picture → Mime → Result Buffer
}.

(** Drawing [picture] and encoding it with [canvas.toBuffer(mime)]: the
    library either throws somewhere on the way or returns an encoding, the
    format's signature followed by the body the world supplies. *)
Definition toBuffer (w : World) (picture : Picture) (mime : Mime) : Result Buffer :=
  body ← canvas w picture mime; Returns (signature mime ++ body).

Definition fetch (w : World) (url : string) : Result (option Buffer) :=
  match axios_get w url with
  | TimedOut => Throws "timeout of 30000ms exceeded"
  | NetworkFailure m => Throws m
  | StatusFailure status => Throws ("Request failed with status code " +:+ pretty status)
  | Responded data => Returns data
  end.

(** [streamToBuffer]: resolves with the concatenated chunks on [end],
    rejects on [error]. *)
Definition streamToBuffer (stream : Stream) : Result Buffer :=
  match failure stream with
  | Some m => Throws m
  | None => Returns (concat (chunks stream))
  end.

(** ** The stand-alone service class *)
Module VellaService.

(** [garments.some(g => g.type === t)] *)
Definition some_type (t : string) (garments : list Garment) : bool :=
  existsb (λ g, strictEqStr (garment_type g) t) garments.

Definition determineGarmentType (garments : list Garment) : string :=
  let hasTop := some_type "top" garments in
  let hasBottom := some_type "bottom" garments in
  let hasDress := some_type "dress" garments in
  let hasOuter := some_type "outer" garments in
  if hasDress then "dress"
  else if hasTop && hasBottom then "top_bottom"
  else if hasTop && hasOuter then "top_outer"
  else if hasTop then "top"
  else if hasBottom then "bottom"
  else if hasOuter then "outer"
  else "top".

Definition createMockResults : list ResultRecord :=
  [mkRecord None (UrlText "mock://tryon-result-1") 0 "tryon_result" "image/png" false true].

(** The canvas module is loaded and used inside a [try]; any failure
    there ends in [Buffer.from([])]. *)
Definition createMockImageBuffer (w : World) : Result Buffer :=
  try_catch (toBuffer w MockImage image_png) (λ _, Returns []).

(** What one object item (or a single object output) pushes. *)
Definition pushObject (url : UrlMember) (i : nat) (results : list ResultRecord)
  : list ResultRecord :=
  match url with
  | UrlResolver (Returns resolvedUrl) => results ++ [url_record (resolved_value resolvedUrl) i]
  | UrlResolver (Throws _) => results
  | UrlString s =>
      if String.eqb s EmptyString then results else results ++ [url_record (UrlText s) i]
  | UrlOther => results
  end.

(** One turn of the loop over an array output. *)
Definition pushItem (i : nat) (item : RawItem) (results : list ResultRecord)
  : Result (list ResultRecord) :=
  match item with
  | ItemStream stream =>
      imageBuffer ← streamToBuffer stream;
      Returns (results ++ [stream_record imageBuffer i])
  | ItemString s => Returns (results ++ [url_record (UrlText s) i])
  | ItemObject url => Returns (pushObject url i results)
  | ItemOther => Returns results
  end.

Fixpoint forItems (i : nat) (items : list RawItem) (results : list ResultRecord)
  : Result (list ResultRecord) :=
  match items with
  | [] => Returns results
  | item :: rest => results' ← pushItem i item results; forItems (S i) rest results'
  end.

(** A single (non-array) output is tested for being a string, then for
    being an object; a stream is an object without a [url] member here. *)
Definition pushSingle (output : RawItem) (results : list ResultRecord)
  : list ResultRecord :=
  match output with
  | ItemString s => results ++ [url_record (UrlText s) 0]
  | ItemObject url => pushObject url 0 results
  | ItemStream _ => results
  | ItemOther => results
  end.

(** The records gathered before the emptiness test. *)
Definition collect (output : RawOutput) : Result (list ResultRecord) :=
  match output with
  | OutputArray items => forItems 0 items []
  | OutputSingle item => Returns (pushSingle item [])
  end.

Definition processReplicateOutput (output : RawOutput) : Result (list ResultRecord) :=
  try_catch
    (results ← collect output;
     if bool_decide (length results = 0) then Returns createMockResults
     else Returns results)
    (λ m, Throws ("Failed to process results: " +:+ m)).

(** The body of the [try] either throws or returns a buffer or a promise
    of one; a returned promise settles the call as it settles itself. *)
Definition getImageBuffer (w : World) (result : ResultRecord) : Result Buffer :=
  let body : Result (Result Buffer) :=
    match imageBuffer result with
    | Some buffer => Returns (Returns buffer)
    | None =>
        imageUrl ← match imageUrl result with
                   | UrlThunk outcome => outcome
                   | url => Returns url
                   end;
        match imageUrl with
        | UrlText url =>
            if startsWith url "mock://" then Returns (createMockImageBuffer w)
            else
              data ← fetch w url;
              match data with
              | None => Throws "Empty response from image URL"
              | Some bytes => Returns (Returns bytes)
              end
        | other => Throws ("Invalid image URL type: " +:+ typeof_url other)
        end
    end in
  match body with
  | Returns settled => settled
  | Throws _ => createMockImageBuffer w
  end.

End VellaService.

(** ** Jobs, the registry and the disk *)

Inductive Status : Type := processing | completed | failed.

#[global] Instance Status_eq_dec : EqDecision Status.
Proof. solve_decision. Defined.

Record Job : Type := mkJob {
  status : Status;
  progress : Z;
  message : string;
  results : option (gmap string string);
  startTime : Z;
  modelImage : string;
  garments : list Garment;
  isDefaultModel : bool;
  userId : string;
  error : option string;
  completedTime : option Z
}.

(** Files by path.  Writing a file always succeeds; directories are not
    tracked. *)
Abbreviation Disk := (gmap string Buffer).

(** The shared state: the registry [generationJobs] and the files. *)
Record State : Type := mkState {
  generationJobs : gmap string Job;
  disk : Disk
}.

(** The options a service receives from the pipeline. *)
Record Options : Type := mkOptions {
  numOutputs : Z;
  option_seed : option Z
}.

Inductive AIService : Type := ReplicateVella | MockAI.

(** ** Requests and responses *)

(** An authenticated request as the handler of [/api/generate] reads it
    once the upload middleware has let it through and the framework has
    parsed a body for it: the user id of the verified token, the path of
    each uploaded file (absent when the field was not sent) and the body
    fields ([JUndefined] when absent).  A request that reaches the handler
    with [req.body] undefined is a [Delivered] one without a body; what the
    upload middleware grants of the uploaded files is [stored]. *)
Record Request : Type := mkRequest {
  user_userId : string;
  files_modelImage : option string;
  files_singleGarmentImage : option string;
  files_topGarmentImage : option string;
  files_bottomGarmentImage : option string;
  body_modelType : Json;
  body_garmentType : Json;
  body_outputCount : Json;
  body_seed : Json;
  body_modelId : Json;
  body_garmentData : Json
}.

(** A member of a response body. *)
Inductive Field : Type :=
| FString (s : string)
| FNumber (n : Z)
| FResults (slots : option (gmap string string))
| FUndefined.

Record Response : Type := mkResponse {
  code : Z;
  body : list (string * Field)
}.

(** A handler under way: it goes on, has sent its reply and returned, or
    has thrown. *)
Inductive Handled (A : Type) : Type :=
| Continue (a : A)
| Reply (response : Response)
| Raise (message : string).
Arguments Continue {A} a.
Arguments Reply {A} response.
Arguments Raise {A} message.

#[global] Instance Handled_bind : MBind Handled := λ A B k h,
  match h with
  | Continue a => k a
  | Reply response => Reply response
  | Raise m => Raise m
  end.

Definition run {A : Type} (r : Result A) : Handled A :=
  match r with
  | Returns a => Continue a
  | Throws m => Raise m
  end.

Definition quote : string := String (Ascii.ascii_of_nat 34) EmptyString.

(** ** The server file *)
Module Server.

(** *** [ReplicateVellaService] *)

Definition prepareImage (files : Disk) (imagePath : string) : Result Buffer :=
  match files !! imagePath with
  | Some imageBuffer => Returns imageBuffer
  | None =>
      Throws ("Image preparation failed: ENOENT: no such file or directory, open '"
              +:+ imagePath +:+ "'")
  end.

(** [garmentParams[garmentType] || 'top_image'], for the four keys of
    the table (member names inherited by every object are left out). *)
Definition getGarmentParameter (garmentType : string) : string :=
  if String.eqb garmentType "top" then "top_image"
  else if String.eqb garmentType "bottom" then "bottom_image"
  else if String.eqb garmentType "dress" then "dress_image"
  else if String.eqb garmentType "outer" then "outer_image"
  else "top_image".

Definition createMockResults : list ResultRecord :=
  [mkRecord None (UrlText "mock://tryon-result-1") 0 "tryon_result" "image/png" false true].

Definition createMockImageBuffer (w : World) : Result Buffer :=
  toBuffer w MockImage image_png.

(** [resolvedUrl.toString()] *)
Definition resolved_toString (r : Resolved) : Result string :=
  match r with
  | ResolvedString s => Returns s
  | ResolvedUrlObject href => Returns href
  | ResolvedNullish => Throws "Cannot read properties of undefined (reading 'toString')"
  end.

Definition pushObject (url : UrlMember) (i : nat) (results : list ResultRecord)
  : list ResultRecord :=
  match url with
  | UrlResolver outcome =>
      match resolvedUrl ← outcome; resolved_toString resolvedUrl with
      | Returns text => results ++ [url_record (UrlText text) i]
      | Throws _ => results
      end
  | UrlString s =>
      if String.eqb s EmptyString then results else results ++ [url_record (UrlText s) i]
  | UrlOther => results
  end.

Definition pushItem (i : nat) (item : RawItem) (results : list ResultRecord)
  : Result (list ResultRecord) :=
  match item with
  | ItemStream stream =>
      imageBuffer ← streamToBuffer stream;
      Returns (results ++ [stream_record imageBuffer i])
  | ItemString s => Returns (results ++ [url_record (UrlText s) i])
  | ItemObject url => Returns (pushObject url i results)
  | ItemOther => Returns results
  end.

Fixpoint forItems (i : nat) (items : list RawItem) (results : list ResultRecord)
  : Result (list ResultRecord) :=
  match items with
  | [] => Returns results
  | item :: rest => results' ← pushItem i item results; forItems (S i) rest results'
  end.

(** The records gathered before the emptiness test.  A single output is
    tested like an item of an array. *)
Definition collect (output : RawOutput) : Result (list ResultRecord) :=
  match output with
  | OutputArray items => forItems 0 items []
  | OutputSingle item => pushItem 0 item []
  end.

Definition processReplicateOutput (output : RawOutput) : Result (list ResultRecord) :=
  try_catch
    (match output with
     | OutputSingle ItemOther => Returns createMockResults
     | _ =>
         results ← collect output;
         if bool_decide (length results = 0) then Returns createMockResults
         else Returns results
     end)
    (λ m, Throws ("Failed to process results: " +:+ m)).

Definition getImageBuffer (w : World) (result : ResultRecord) : Result Buffer :=
  let body : Result (Result Buffer) :=
    match imageBuffer result with
    | Some buffer => Returns (Returns buffer)
    | None =>
        imageUrl ← match imageUrl result with
                   | UrlThunk outcome => outcome
                   | url => Returns url
                   end;
        match imageUrl with
        | UrlText url =>
            if startsWith url "mock://" then Returns (createMockImageBuffer w)
            else
              data ← fetch w url;
              match data with
              | None => Throws "Empty response from image URL"
              | Some bytes => Returns (Returns bytes)
              end
        | other => Throws ("Invalid image URL type: " +:+ typeof_url other)
        end
    end in
  match body with
  | Returns settled => settled
  | Throws _ => createMockImageBuffer w
  end.

(** The loop attaching each garment's image under its parameter name. *)
Fixpoint attachGarments (files : Disk) (garments : list Garment)
    (images : gmap string Buffer) : Result (gmap string Buffer) :=
  match garments with
  | [] => Returns images
  | garment :: rest =>
      garmentImageBuffer ← prepareImage files (garment_imagePath garment);
      let garmentParam := getGarmentParameter (toString (garment_type garment)) in
      attachGarments files rest (<[garmentParam := garmentImageBuffer]> images)
  end.

(** The promise of [processReplicateOutput] is returned from inside the
    [try] without being awaited, so its rejection is not rewrapped. *)
Definition virtualTryOn (w : World) (files : Disk) (modelImagePath : string)
    (garments : list Garment) (options : Options) : Result (list ResultRecord) :=
  let body : Result (Result (list ResultRecord)) :=
    modelImageBuffer ← prepareImage files modelImagePath;
    images ← attachGarments files garments ∅;
    let input := {|
      model_image := modelImageBuffer;
      num_outputs := if (numOutputs options =? 0)%Z then 1%Z else numOutputs options;
      seed := match option_seed options with
              | Some n => if (n =? 0)%Z then random_seed w else n
              | None => random_seed w
              end;
      garment_images := images |} in
    output ← replicate_run w input;
    Returns (processReplicateOutput output) in
  match body with
  | Returns settled => settled
  | Throws m => Throws ("Virtual try-on failed: " +:+ m)
  end.

(** *** [MockAIService] *)

Definition createProfessionalMockImage (w : World) (modelImagePath : string)
    (garments : list Garment) (index : Z) : Result Buffer :=
  toBuffer w (ProfessionalMockImage modelImagePath garments index) image_jpeg.

Fixpoint mockLoop (w : World) (modelImagePath : string) (garments : list Garment)
    (indices : list nat) (mockResults : list ResultRecord) : Result (list ResultRecord) :=
  match indices with
  | [] => Returns mockResults
  | i :: rest =>
      mockBuffer ← createProfessionalMockImage w modelImagePath garments (Z.of_nat i);
      mockLoop w modelImagePath garments rest
        (mockResults ++
         [mkRecord (Some mockBuffer) (UrlText ("mock://tryon-result-" +:+ pretty i)) i
                   "tryon_result" "image/jpeg" false true])
  end.

Definition mock_virtualTryOn (w : World) (modelImagePath : string)
    (garments : list Garment) (options : Options) : Result (list ResultRecord) :=
  let numOutputs := if (numOutputs options =? 0)%Z then 1%Z else numOutputs options in
  mockLoop w modelImagePath garments (seq 0 (Z.to_nat numOutputs)) [].

Definition mock_getImageBuffer (w : World) (result : ResultRecord) : Result Buffer :=
  match imageBuffer result with
  | Some buffer => Returns buffer
  | None => createProfessionalMockImage w EmptyString [] (Z.of_nat (index result))
  end.

(** *** The active service, chosen once at start-up *)

Definition activeAIService (w : World) : AIService :=
  match REPLICATE_API_TOKEN w with
  | Some token =>
      if String.eqb token EmptyString then MockAI
      else if replicate_constructs w then ReplicateVella else MockAI
  | None => MockAI
  end.

Definition active_virtualTryOn (w : World) (files : Disk) (modelImagePath : string)
    (garments : list Garment) (options : Options) : Result (list ResultRecord) :=
  match activeAIService w with
  | ReplicateVella => virtualTryOn w files modelImagePath garments options
  | MockAI => mock_virtualTryOn w modelImagePath garments options
  end.

Definition active_getImageBuffer (w : World) (result : ResultRecord) : Result Buffer :=
  match activeAIService w with
  | ReplicateVella => getImageBuffer w result
  | MockAI => mock_getImageBuffer w result
  end.

(** *** Persistence *)

(** Writes the file under the user's output directory and returns the
    reference served to the client. *)
Definition saveGeneratedImage (w : World) (imageBuffer : Buffer) (filename userId : string)
    (files : Disk) : string * Disk :=
  let outputPath := dirname w +:+ "/outputs/" +:+ userId +:+ "/" +:+ filename in
  ("/outputs/" +:+ userId +:+ "/" +:+ filename, <[outputPath := imageBuffer]> files).

(** *** The pipeline task *)

Definition createMockResultImage (w : World) (modelImagePath : string)
    (garments : list Garment) (index : nat) : Result Buffer :=
  toBuffer w (MockResultImage modelImagePath garments index) image_jpeg.

Definition createProfessionalEnhancedProduct (w : World) (garments : list Garment)
  : Result Buffer :=
  toBuffer w (EnhancedProduct garments) image_jpeg.

Definition createProfessionalProductBack (w : World) (garments : list Garment)
  : Result Buffer :=
  toBuffer w (ProductBack garments) image_jpeg.

Definition createModelBackView (w : World) (frontImagePath userId : string)
  : Result Buffer :=
  toBuffer w (ModelBackView frontImagePath userId) image_jpeg.

(** Field updates of a job. *)
Definition advance (percent : Z) (text : string) (job : Job) : Job :=
  mkJob (status job) percent text (results job) (startTime job) (modelImage job)
        (garments job) (isDefaultModel job) (userId job) (error job) (completedTime job).

Definition complete (slots : gmap string string) (finish : Z) (job : Job) : Job :=
  mkJob completed 100 "Vella virtual try-on completed successfully" (Some slots)
        (startTime job) (modelImage job) (garments job) (isDefaultModel job) (userId job)
        (error job) (Some finish).

Definition fail (reason : string) (finish : Z) (job : Job) : Job :=
  mkJob failed (progress job) (message job) (results job) (startTime job) (modelImage job)
        (garments job) (isDefaultModel job) (userId job) (Some reason) (Some finish).

(** The name of the slot of the [i]-th result. *)
Definition slotName (i : nat) : string := "tryonResult" +:+ pretty (i + 1).

(** One turn of the loop over [vellaResults]. *)
Definition materialize (w : World) (requestId : string) (job : Job) (i : nat)
    (result : ResultRecord) (slots : gmap string string) (files : Disk)
  : Result (gmap string string * Disk) :=
  try_catch
    (imageBuffer ← active_getImageBuffer w result;
     let filename := "vella-result-" +:+ requestId +:+ "-" +:+ pretty i +:+ ".png" in
     let '(reference, files') := saveGeneratedImage w imageBuffer filename (userId job) files in
     Returns (<[slotName i := reference]> slots, files'))
    (λ _,
     mockBuffer ← createMockResultImage w (modelImage job) (garments job) i;
     let filename := "vella-result-" +:+ requestId +:+ "-" +:+ pretty i +:+ ".jpg" in
     let '(reference, files') := saveGeneratedImage w mockBuffer filename (userId job) files in
     Returns (<[slotName i := reference]> slots, files')).

Fixpoint materializeAll (w : World) (requestId : string) (job : Job) (i : nat)
    (vellaResults : list ResultRecord) (slots : gmap string string) (files : Disk)
  : Result (gmap string string) * Disk :=
  match vellaResults with
  | [] => (Returns slots, files)
  | result :: rest =>
      match materialize w requestId job i result slots files with
      | Returns (slots', files') => materializeAll w requestId job (S i) rest slots' files'
      | Throws m => (Throws m, files)
      end
  end.

(** [results.key] when it is set and truthy. *)
Definition slot (slots : gmap string string) (key : string) : option string :=
  match slots !! key with
  | Some reference => if String.eqb reference EmptyString then None else Some reference
  | None => None
  end.

(** The block adding the extra images; a throw anywhere in it leaves the
    slots filled so far and is otherwise ignored. *)
Definition addExtras (w : World) (requestId : string) (job : Job)
    (slots : gmap string string) (files : Disk) : gmap string string * Disk :=
  match createProfessionalEnhancedProduct w (garments job) with
  | Throws _ => (slots, files)
  | Returns enhancedProductBuffer =>
      let '(enhanced, files1) :=
        saveGeneratedImage w enhancedProductBuffer ("enhanced-" +:+ requestId +:+ ".jpg")
                           (userId job) files in
      let slots1 := <["enhancedProduct" := enhanced]> slots in
      match createProfessionalProductBack w (garments job) with
      | Throws _ => (slots1, files1)
      | Returns productBackBuffer =>
          let '(back, files2) :=
            saveGeneratedImage w productBackBuffer ("product-back-" +:+ requestId +:+ ".jpg")
                               (userId job) files1 in
          let slots2 := <["productBack" := back]> slots1 in
          let slots3 :=
            match slot slots2 "tryonResult1" with
            | Some first => <["modelFront" := first]> slots2
            | None => slots2
            end in
          match slot slots3 "tryonResult2" with
          | Some second => (<["modelBack" := second]> slots3, files2)
          | None =>
              match slot slots3 "tryonResult1" with
              | Some first =>
                  match createModelBackView w first (userId job) with
                  | Throws _ => (slots3, files2)
                  | Returns backViewBuffer =>
                      let '(modelBack, files3) :=
                        saveGeneratedImage w backViewBuffer
                                           ("model-back-" +:+ requestId +:+ ".jpg")
                                           (userId job) files2 in
                      (<["modelBack" := modelBack]> slots3, files3)
                  end
              | None => (slots3, files2)
              end
          end
      end
  end.

(** [fs.existsSync] *)
Definition existsSync (files : Disk) (path : string) : bool :=
  bool_decide (is_Some (files !! path)).

(** Removal of the transient uploads once the job is complete. *)
Definition unlinkIfPresent (path : string) (files : Disk) : Disk :=
  if existsSync files path then delete path files else files.

Definition cleanup (job : Job) (files : Disk) : Disk :=
  let files1 :=
    if negb (isDefaultModel job) then unlinkIfPresent (modelImage job) files else files in
  foldl (λ remaining garment,
           if negb (includes (garment_imagePath garment) "defaults")
           then unlinkIfPresent (garment_imagePath garment) remaining
           else remaining)
        files1 (garments job).

(** The options the handler passes to the task. *)
Record TaskOptions : Type := mkTaskOptions {
  task_numOutputs : Z;
  task_seed : Json
}.

(** [x || 1] on the number [parseInt] produced ([None] is [NaN]). *)
Definition orOne (n : option Z) : Z :=
  match n with
  | Some n => if (n =? 0)%Z then 1%Z else n
  | None => 1%Z
  end.

Definition serviceOptions (w : World) (options : TaskOptions) : Options :=
  {| numOutputs := orOne (parseInt w (JNum (task_numOutputs options)));
     option_seed := if truthy (task_seed options) then parseInt w (task_seed options)
                    else None |}.

(** The two updates made before the service is called; they run in the
    same turn as the handler that launched the task. *)
Definition preparing (job : Job) : Job := advance 20 "Preparing images for Vella AI..." job.
Definition running (job : Job) : Job := advance 40 "Running Vella AI model..." job.

(** The task from the call of the service to its end, on the job object
    it holds: the successive contents it stores with [generationJobs.set],
    and the files it leaves.  [finish] is the clock when it ends. *)
Definition resume (w : World) (finish : Z) (requestId : string) (options : TaskOptions)
    (job : Job) (files : Disk) : list Job * Disk :=
  match active_virtualTryOn w files (modelImage job) (garments job)
                            (serviceOptions w options) with
  | Throws m => ([fail m finish job], files)
  | Returns vellaResults =>
      let job80 := advance 80 "Processing results..." job in
      match materializeAll w requestId job80 0 vellaResults ∅ files with
      | (Throws m, files1) => ([job80; fail m finish job80], files1)
      | (Returns slots, files1) =>
          let '(slots', files2) :=
            if bool_decide (size slots = 0) then (slots, files1)
            else addExtras w requestId job80 slots files1 in
          let done := complete slots' finish job80 in
          ([job80; done], cleanup done files2)
      end
  end.

(** Every content the task gives its job, in order, from the moment it
    looks the job up. *)
Definition pipeline (w : World) (finish : Z) (requestId : string) (options : TaskOptions)
    (st : State) : list Job * Disk :=
  match generationJobs st !! requestId with
  | None => ([], disk st)
  | Some job =>
      let job40 := running (preparing job) in
      let '(later, files) := resume w finish requestId options job40 (disk st) in
      (preparing job :: job40 :: later, files)
  end.

Definition store (requestId : string) (job : Job) (st : State) : State :=
  mkState (<[requestId := job]> (generationJobs st)) (disk st).

(** The whole task run in one go. *)
Definition processVellaTryOn (w : World) (finish : Z) (requestId : string)
    (options : TaskOptions) (st : State) : State :=
  let '(written, files) := pipeline w finish requestId options st in
  mkState (foldl (λ jobs job, <[requestId := job]> jobs) (generationJobs st) written) files.

(** *** The handlers *)

Definition defaultImages_models (id : string) : option string :=
  if String.eqb id "1" then Some "model1.png"
  else if String.eqb id "2" then Some "model2.jpeg"
  else if String.eqb id "3" then Some "model3.png"
  else if String.eqb id "4" then Some "model4.png"
  else if String.eqb id "5" then Some "model5.png"
  else if String.eqb id "6" then Some "model6.jpg"
  else if String.eqb id "7" then Some "model7.jpg"
  else if String.eqb id "8" then Some "model8.png"
  else None.

Definition defaultImages_garments (id : string) : option string :=
  if String.eqb id "top2" then Some "top2.png"
  else if String.eqb id "top3" then Some "top3.png"
  else if String.eqb id "top4" then Some "top4.png"
  else if String.eqb id "bottom1" then Some "bottom1.png"
  else if String.eqb id "dress" then Some "dress.png"
  else None.

(** The two tables are read by their own keys (member names inherited by
    every object are left out). *)
Definition getImagePath (w : World) (files : Disk) (type : string) (id : Json)
    (file : option string) : Result string :=
  match file with
  | Some path => Returns path
  | None =>
      if truthy id then
        let filename :=
          if String.eqb type "model" then defaultImages_models (toString id)
          else if String.eqb type "garment" then defaultImages_garments (toString id)
          else None in
        match filename with
        | Some filename =>
            let defaultPath := dirname w +:+ "/defaults/" +:+ filename in
            if existsSync files defaultPath then Returns defaultPath
            else Throws ("Default image not found: " +:+ filename)
        | None => Throws ("Invalid " +:+ type +:+ " ID: " +:+ toString id)
        end
      else Throws ("Invalid " +:+ type +:+ " image: " +:+ toString id)
  end.

Definition validateImage (files : Disk) (imagePath : string) : Result bool :=
  if includes imagePath "defaults" then Returns true
  else
    match files !! imagePath with
    | None => Throws ("ENOENT: no such file or directory, stat '" +:+ imagePath +:+ "'")
    | Some content =>
        let size := Z.of_nat (length content) in
        if (size <? 1024)%Z then Throws "Image file too small"
        else if (size >? 10 * 1024 * 1024)%Z then Throws "Image file too large"
        else Returns true
    end.

Fixpoint validateGarments (files : Disk) (garments : list Garment) : Result bool :=
  match garments with
  | [] => Returns true
  | garment :: rest =>
      _ ← (if negb (includes (garment_imagePath garment) "defaults")
           then validateImage files (garment_imagePath garment) else Returns true);
      validateGarments files rest
  end.

Definition bad_request (text : string) : Response :=
  mkResponse 400 [("error", FString text)].

Definition uploaded (file : option string) : bool :=
  match file with Some _ => true | None => false end.

(** The branch for [garmentType === 'single']. *)
Definition singleGarment (w : World) (files : Disk) (req : Request)
    (parsedGarmentData : Json) : Handled (list Garment) :=
  let hasUploadedSingle := files_singleGarmentImage req in
  let hasDefaultSingle := guarded parsedGarmentData "id" in
  if negb (uploaded hasUploadedSingle) && negb (truthy hasDefaultSingle)
  then Reply (bad_request "Single garment image is required.")
  else
    garmentType ← run
      (if truthy (guarded parsedGarmentData "garmentType")
       then Returns (field parsedGarmentData "garmentType")
       else if truthy (guarded parsedGarmentData "id") then
         let garmentId := field parsedGarmentData "id" in
         isBottom ← json_includes garmentId "bottom";
         if isBottom : bool then Returns (JStr "bottom")
         else
           isDress ← json_includes garmentId "dress";
           Returns (if isDress : bool then JStr "dress" else JStr "top")
       else Returns (JStr "top"));
    garmentImagePath ← run
      (getImagePath w files "garment"
         (if truthy hasDefaultSingle then field parsedGarmentData "id" else JNull)
         hasUploadedSingle);
    Continue [mkGarment garmentType garmentImagePath
                        (orElse (field parsedGarmentData "id") (JStr "uploaded"))].

(** The branch for [garmentType === 'multiple']. *)
Definition multipleGarments (w : World) (files : Disk) (req : Request)
    (parsedGarmentData : Json) : Handled (list Garment) :=
  let hasUploadedTop := files_topGarmentImage req in
  let hasUploadedBottom := files_bottomGarmentImage req in
  let hasDefaultTop := guarded (guarded parsedGarmentData "top") "id" in
  let hasDefaultBottom := guarded (guarded parsedGarmentData "bottom") "id" in
  let hasTop := uploaded hasUploadedTop || truthy hasDefaultTop in
  let hasBottom := uploaded hasUploadedBottom || truthy hasDefaultBottom in
  if negb hasTop && negb hasBottom
  then Reply (bad_request "At least one garment (top or bottom) is required.")
  else
    tops ←
      (if hasTop then
         top ← run (member parsedGarmentData "top");
         topType ← run
           (if truthy (guarded top "garmentType") then Returns (field top "garmentType")
            else if truthy (guarded top "id") then
              isDress ← json_includes (field top "id") "dress";
              Returns (if isDress : bool then JStr "dress" else JStr "top")
            else Returns (JStr "top"));
         topImagePath ← run
           (getImagePath w files "garment"
              (if truthy hasDefaultTop then field top "id" else JNull)
              hasUploadedTop);
         Continue [mkGarment topType topImagePath
                             (orElse (field (field parsedGarmentData "top") "id")
                                     (JStr "uploaded"))]
       else Continue []);
    let firstIsDress :=
      match tops with
      | first :: _ => strictEqStr (garment_type first) "dress"
      | [] => false
      end in
    bottoms ←
      (if hasBottom && negb firstIsDress then
         bottomImagePath ← run
           (getImagePath w files "garment"
              (if truthy hasDefaultBottom
               then field (field parsedGarmentData "bottom") "id" else JNull)
              hasUploadedBottom);
         Continue [mkGarment (JStr "bottom") bottomImagePath
                             (orElse (field (field parsedGarmentData "bottom") "id")
                                     (JStr "uploaded"))]
       else Continue []);
    Continue (tops ++ bottoms).

(** The job the handler registers. *)
Definition newJob (now : Z) (modelImagePath : string) (garments : list Garment)
    (userId : string) : Job :=
  mkJob processing 0 "Starting Vella virtual try-on generation..." None now
        modelImagePath garments (includes modelImagePath "defaults") userId None None.

(** A launched task: the id it works under, its options and the job
    object it holds. *)
Record Task : Type := mkTask {
  task_requestId : string;
  task_options : TaskOptions;
  task_job : Job
}.

(** The parse of [garmentData], replying 400 when a string does not
    parse. *)
Definition parseGarmentData (w : World) (req : Request) : Handled Json :=
  match body_garmentData req with
  | JStr text =>
      match JSON_parse w text with
      | Some parsed => Continue parsed
      | None => Reply (bad_request "Invalid garment data format")
      end
  | garmentData => Continue garmentData
  end.

(** The garment list the handler builds, by the kind of request. *)
Definition collectGarments (w : World) (files : Disk) (req : Request)
    (parsedGarmentData : Json) : Handled (list Garment) :=
  if strictEqStr (body_garmentType req) "single"
  then singleGarment w files req parsedGarmentData
  else if strictEqStr (body_garmentType req) "multiple"
  then multipleGarments w files req parsedGarmentData
  else Reply (bad_request ("Invalid garment type. Must be " +:+ quote +:+ "single"
                           +:+ quote +:+ " or " +:+ quote +:+ "multiple" +:+ quote
                           +:+ ".")).

(** The handler up to the point where it creates the job: the garments
    and the model image path it has settled on, unless it has replied
    already or thrown. *)
Definition validated (w : World) (req : Request) (st : State)
  : Handled (list Garment * string) :=
  parsedGarmentData ← parseGarmentData w req;
  let hasUploadedModel := files_modelImage req in
  let hasDefaultModel :=
    if strictEqStr (body_modelType req) "default" then body_modelId req
    else JBool false in
  let hasModel := uploaded hasUploadedModel || truthy hasDefaultModel in
  if negb hasModel then Reply (bad_request "Model image is required.")
  else
    garments ← collectGarments w (disk st) req parsedGarmentData;
    modelImagePath ← run
      (getImagePath w (disk st) "model"
         (if strictEqStr (body_modelType req) "default" then body_modelId req else JNull)
         hasUploadedModel);
    match
      _ ← (if negb (includes modelImagePath "defaults")
           then validateImage (disk st) modelImagePath else Returns true);
      validateGarments (disk st) garments
    with
    | Returns _ => Continue (garments, modelImagePath)
    | Throws m => Reply (bad_request m)
    end.

Definition accepted (requestId : string) : Response :=
  mkResponse 200
    [("message", FString "Vella virtual try-on generation started successfully");
     ("requestId", FString requestId);
     ("status", FString "processing")].

(** [POST /api/generate], handled when the clock reads [now].  The state
    it leaves includes the task's first two updates, made before the
    handler's turn ends. *)
Definition generate (w : World) (now : Z) (req : Request) (st : State)
  : State * Response * option Task :=
  match validated w req st with
  | Continue (garments, modelImagePath) =>
      let outputCount :=
        match body_outputCount req with JUndefined => JNum 1 | given => given end in
      let requestId := pretty now in
      let job := newJob now modelImagePath garments (user_userId req) in
      let options :=
        {| task_numOutputs := orOne (parseInt w outputCount);
           task_seed := body_seed req |} in
      let job40 := running (preparing job) in
      (store requestId job40 st, accepted requestId, Some (mkTask requestId options job40))
  | Reply response => (st, response, None)
  | Raise m =>
      (st, mkResponse 500 [("error", FString ("Failed to start generation: " +:+ m))], None)
  end.

(** The rest of a launched task, run when the clock reads [finish]. *)
Definition finishTask (w : World) (finish : Z) (task : Task) (st : State) : State :=
  let '(written, files) :=
    resume w finish (task_requestId task) (task_options task) (task_job task) (disk st) in
  mkState (foldl (λ jobs job, <[task_requestId task := job]> jobs) (generationJobs st) written)
          files.

Definition optionalString (s : option string) : Field :=
  match s with Some text => FString text | None => FUndefined end.

(** [GET /api/status/:requestId] for the user of the verified token. *)
Definition getStatus (requestId caller : string) (st : State) : State * Response :=
  match generationJobs st !! requestId with
  | None => (st, mkResponse 404 [("error", FString "Job not found")])
  | Some job =>
      if negb (String.eqb (userId job) caller)
      then (st, mkResponse 403 [("error", FString "Access denied")])
      else
        match status job with
        | failed =>
            (st, mkResponse 500 [("status", FString "failed");
                                 ("error", optionalString (error job))])
        | completed =>
            (st, mkResponse 200 [("status", FString "completed");
                                 ("progress", FNumber 100);
                                 ("message", FString (message job));
                                 ("results", FResults (results job))])
        | processing =>
            (st, mkResponse 200 [("status", FString "processing");
                                 ("progress", FNumber (progress job));
                                 ("message", FString (message job))])
        end
  end.

End Server.

(** ** Vocabulary of the statements *)

(** A garment of type [t] occurs in the list. *)
Definition present (t : string) (garments : list Garment) : Prop :=
  ∃ g, g ∈ garments ∧ garment_type g = JStr t.

(** A stream item is readable when its stream ends without an [error]
    event; every other item is. *)
Definition item_readable (item : RawItem) : Prop :=
  match item with
  | ItemStream stream => failure stream = None
  | _ => True
  end.

(** Every stream the normalizer of the stand-alone service reads is
    readable (it reads none of a single output). *)
Definition readable (output : RawOutput) : Prop :=
  match output with
  | OutputArray items => Forall item_readable items
  | OutputSingle _ => True
  end.

(** An item that yields no record: an unrecognised shape, an object whose
    [url] is neither callable nor a non-empty string, or a resolver that
    throws. *)
Definition barren (item : RawItem) : Prop :=
  match item with
  | ItemOther => True
  | ItemObject UrlOther => True
  | ItemObject (UrlString s) => s = EmptyString
  | ItemObject (UrlResolver (Throws _)) => True
  | _ => False
  end.

(** The records one item of an array contributes, in each version. *)
Definition pushed (i : nat) (item : RawItem) : list ResultRecord :=
  match VellaService.pushItem i item [] with
  | Returns records => records
  | Throws _ => []
  end.

Definition server_pushed (i : nat) (item : RawItem) : list ResultRecord :=
  match Server.pushItem i item [] with
  | Returns records => records
  | Throws _ => []
  end.

(** The one record of [createMockResults]. *)
Definition mockRecord : ResultRecord :=
  mkRecord None (UrlText "mock://tryon-result-1") 0 "tryon_result" "image/png" false true.

(** The canvas can draw the fallback image of the hosted-model service. *)
Definition fallback_drawn (w : World) : Prop :=
  returned (canvas w MockImage image_png).

(** The canvas can draw the three extra images of a job. *)
Definition extras_drawn (w : World) : Prop :=
  (∀ garments, returned (canvas w (EnhancedProduct garments) image_jpeg)) ∧
  (∀ garments, returned (canvas w (ProductBack garments) image_jpeg)) ∧
  (∀ front owner, returned (canvas w (ModelBackView front owner) image_jpeg)).

(** The fetch of [url] does not deliver a buffer: it times out, fails on
    the network, ends with a non-success status, or responds without data
    ([response.data] is falsy; a zero-length buffer is data). *)
Definition fetch_fails (w : World) (url : string) : Prop :=
  match axios_get w url with
  | Responded (Some _) => False
  | _ => True
  end.

(** The garment metadata of a request once parsed (nothing when a string
    does not parse). *)
Definition parsedGarmentDataOf (w : World) (req : Request) : Json :=
  match body_garmentData req with
  | JStr text => default JUndefined (JSON_parse w text)
  | garmentData => garmentData
  end.

(** A model image reference is present: an uploaded file, or the id of a
    default model. *)
Definition modelReferencePresent (req : Request) : bool :=
  Server.uploaded (files_modelImage req) ||
  (strictEqStr (body_modelType req) "default" && truthy (body_modelId req)).

(** At least one garment reference is present for the kind of request: an
    uploaded file or the id of a default garment. *)
Definition garmentReferencePresent (w : World) (req : Request) : bool :=
  let data := parsedGarmentDataOf w req in
  if strictEqStr (body_garmentType req) "single" then
    Server.uploaded (files_singleGarmentImage req) || truthy (guarded data "id")
  else if strictEqStr (body_garmentType req) "multiple" then
    Server.uploaded (files_topGarmentImage req) ||
    truthy (guarded (guarded data "top") "id") ||
    Server.uploaded (files_bottomGarmentImage req) ||
    truthy (guarded (guarded data "bottom") "id")
  else false.

(** The contents a job goes through, from its creation on. *)
Definition trace (w : World) (finish : Z) (requestId : string)
    (options : Server.TaskOptions) (st : State) (job : Job) : list Job :=
  job :: (Server.pipeline w finish requestId options st).1.

(** The reference under which the [i]-th result of a job is served, and
    the file it is written to. *)
Definition resultReference (requestId owner : string) (i : nat) : string :=
  "/outputs/" +:+ owner +:+ "/" +:+ "vella-result-" +:+ requestId +:+ "-" +:+ pretty i
  +:+ ".png".

Definition resultPath (w : World) (requestId owner : string) (i : nat) : string :=
  dirname w +:+ "/outputs/" +:+ owner +:+ "/" +:+ "vella-result-" +:+ requestId +:+ "-"
  +:+ pretty i +:+ ".png".

(** The references of the extra images of a job. *)
Definition extraReference (kind requestId owner : string) : string :=
  "/outputs/" +:+ owner +:+ "/" +:+ kind +:+ requestId +:+ ".jpg".

(** The slots after results [i], [i+1], ..., [i+n-1] have been stored. *)
Fixpoint filled (requestId owner : string) (i n : nat) (slots : gmap string string)
  : gmap string string :=
  match n with
  | 0 => slots
  | S n' =>
      filled requestId owner (S i) n'
             (<[Server.slotName i := resultReference requestId owner i]> slots)
  end.

(** The slots once the extra images are added to [slots], whose first
    result is [first]. *)
Definition withExtras (requestId owner first : string) (slots : gmap string string)
  : gmap string string :=
  <["modelBack" := match Server.slot slots "tryonResult2" with
                   | Some second => second
                   | None => extraReference "model-back-" requestId owner
                   end]>
    (<["modelFront" := first]>
       (<["productBack" := extraReference "product-back-" requestId owner]>
          (<["enhancedProduct" := extraReference "enhanced-" requestId owner]> slots))).

(** ** Sample inputs *)

Definition garmentOf (t : string) : Garment :=
  mkGarment (JStr t) ("uploads/" +:+ t +:+ ".png") (JStr "uploaded").

(** A stream that breaks after its first chunk, and one that ends. *)
Definition brokenStream : Stream := mkStream [[x89; x50]] (Some "aborted").

Definition wholeStream : Stream := mkStream [[x89; x50]; [x4e; x47]] None.

Definition failingResolver : RawItem := ItemObject (UrlResolver (Throws "no url")).

Definition urlRecord : ResultRecord := url_record (UrlText "https://host/x.png") 0.

(** Worlds with the hosted model configured, by what the model returns,
    whether the image host answers and whether the canvas works. *)
Definition sampleParse (text : string) : option Json :=
  if String.eqb text "null" then Some JNull
  else if String.eqb text "{}" then Some (JObj [])
  else None.

Definition sampleParseInt (v : Json) : option Z :=
  match v with
  | JNum n => Some n
  | JStr s => if String.eqb s "2" then Some 2%Z else None
  | _ => None
  end.

Definition sampleWorld (run : ReplicateInput → Result RawOutput) (get : string → Fetch)
    (draw : Picture → Mime → Result Buffer) : World :=
  mkWorld "/srv/app" sampleParse sampleParseInt 424242 (Some "r8_token") true run get draw.

Definition healthyCanvas : Picture → Mime → Result Buffer := λ _ _, Returns [x00; x01].

Definition brokenCanvas : Picture → Mime → Result Buffer :=
  λ _ _, Throws "canvas is not available".

Definition oneUrl : ReplicateInput → Result RawOutput :=
  λ _, Returns (OutputArray [ItemString "https://host/x.png"]).

Definition oneStream : ReplicateInput → Result RawOutput :=
  λ _, Returns (OutputArray [ItemStream wholeStream]).

Definition offline : string → Fetch := λ _, TimedOut.

Definition online : string → Fetch := λ _, Responded (Some [xff; xd8; xff; xe0]).

Definition healthyWorld : World := sampleWorld oneUrl online healthyCanvas.
Definition offlineWorld : World := sampleWorld oneUrl offline healthyCanvas.
Definition offlineNoCanvas : World := sampleWorld oneUrl offline brokenCanvas.
Definition onlineNoCanvas : World := sampleWorld oneUrl online brokenCanvas.
Definition streamNoCanvas : World := sampleWorld oneStream online brokenCanvas.

(** The default images on disk, a job for default model 1 wearing default
    garment [top2], and a registry holding one job under the id
    [1700000000000]. *)
Definition sampleDisk : Disk :=
  <["/srv/app/defaults/model1.png" := [x89; x50]]>
    (<["/srv/app/defaults/top2.png" := [x89; x50]]> ∅).

Definition sampleGarments : list Garment :=
  [mkGarment (JStr "top") "/srv/app/defaults/top2.png" (JStr "top2")].

Definition sampleJob (owner : string) : Job :=
  Server.newJob 1700000000000 "/srv/app/defaults/model1.png" sampleGarments owner.

Definition emptyRegistry : State := mkState ∅ sampleDisk.

Definition registered (job : Job) : State :=
  mkState (<["1700000000000" := job]> ∅) sampleDisk.

Definition failedJob : Job :=
  Server.fail "Virtual try-on failed: quota exceeded" 1700000000500
              (Server.running (Server.preparing (sampleJob "alice"))).

Definition sampleOptions : Server.TaskOptions := Server.mkTaskOptions 1 JUndefined.

(** A request for default model 1 wearing default garment [top2], and the
    same without any garment. *)
Definition sampleRequest (owner : string) : Request :=
  mkRequest owner None None None None (JStr "default") (JStr "single") JUndefined JUndefined
            (JStr "1") (JObj [("id", JStr "top2")]).

Definition bareRequest (owner : string) : Request :=
  mkRequest owner None None None None (JStr "default") (JStr "single") JUndefined JUndefined
            (JStr "1") JUndefined.

(** The job [sampleJob "alice"] as its task leaves it in [healthyWorld],
    and its result mapping. *)
Definition sampleFinal : Job :=
  default (sampleJob "alice")
    (last (Server.pipeline healthyWorld 1700000000500 "1700000000000" sampleOptions
             (registered (sampleJob "alice"))).1).

Definition sampleSlots : gmap string string := default ∅ (results sampleFinal).

(** ** The stand-alone service: calling the hosted model *)

(** The input the stand-alone service sends: the fields the server's copy
    sends, and [garment_type]. *)
Record VellaInput : Type := mkVellaInput {
  input_garment_type : string;
  input_fields : ReplicateInput
}.

(** The names every object inherits; a table read under one of them does
    not give [undefined]. *)
Definition inheritedMembers : list string :=
  ["constructor"; "__proto__"; "hasOwnProperty"; "isPrototypeOf"; "propertyIsEnumerable";
   "toLocaleString"; "toString"; "valueOf"; "__defineGetter__"; "__defineSetter__";
   "__lookupGetter__"; "__lookupSetter__"].

(** The methods of the stand-alone class around [processReplicateOutput]:
    [prepareImage], [getGarmentParameter] and [virtualTryOn]. *)
Module VellaTryOn.

Definition prepareImage (files : Disk) (imagePath : string) : Result Buffer :=
  match files !! imagePath with
  | Some imageBuffer => Returns imageBuffer
  | None =>
      Throws ("Image preparation failed: ENOENT: no such file or directory, open '"
              +:+ imagePath +:+ "'")
  end.

Definition getGarmentParameter (garmentType : string) : string :=
  if String.eqb garmentType "top" then "top_image"
  else if String.eqb garmentType "bottom" then "bottom_image"
  else if String.eqb garmentType "dress" then "dress_image"
  else if String.eqb garmentType "outer" then "outer_image"
  else "top_image".

Fixpoint attachGarments (files : Disk) (garments : list Garment)
    (images : gmap string Buffer) : Result (gmap string Buffer) :=
  match garments with
  | [] => Returns images
  | garment :: rest =>
      garmentImageBuffer ← prepareImage files (garment_imagePath garment);
      let garmentParam := getGarmentParameter (toString (garment_type garment)) in
      attachGarments files rest (<[garmentParam := garmentImageBuffer]> images)
  end.

(** The [catch] of [virtualTryOn]: the error thrown in place of one whose
    message is [m]. *)
Definition rethrown (m : string) : string :=
  if includes m "auth"
  then "Invalid Replicate API token. Please check your REPLICATE_API_TOKEN."
  else if includes m "garment_type"
  then "Garment type configuration error. Please ensure proper garment selection."
  else if includes m "size" || includes m "dimension"
  then "Image size issue. Please try with different images."
  else if includes m "timeout"
  then "Request timeout. Please try again."
  else "Virtual try-on failed: " +:+ m.

(** The input built for the model once the images are read. *)
Definition input (w : World) (garments : list Garment) (options : Options)
    (modelImageBuffer : Buffer) (images : gmap string Buffer) : VellaInput :=
  {| input_garment_type := VellaService.determineGarmentType garments;
     input_fields := {|
       model_image := modelImageBuffer;
       num_outputs := if (numOutputs options =? 0)%Z then 1%Z else numOutputs options;
       seed := match option_seed options with
               | Some n => if (n =? 0)%Z then random_seed w else n
               | None => random_seed w
               end;
       garment_images := images |} |}.

(** The promise of [processReplicateOutput] is returned from inside the
    [try] without being awaited: its rejection passes the [catch] by. *)
Definition virtualTryOn (w : World) (replicate_run : VellaInput → Result RawOutput)
    (files : Disk) (modelImagePath : string) (garments : list Garment) (options : Options)
  : Result (list ResultRecord) :=
  let body : Result (Result (list ResultRecord)) :=
    modelImageBuffer ← prepareImage files modelImagePath;
    images ← attachGarments files garments ∅;
    output ← replicate_run (input w garments options modelImageBuffer images);
    Returns (VellaService.processReplicateOutput output) in
  match body with
  | Returns settled => settled
  | Throws m => Throws (rethrown m)
  end.

End VellaTryOn.

(** ** The dashboard *)

(** What a verified token carries. *)
Record Payload : Type := mkPayload {
  payload_userId : string;
  payload_email : Json
}.

(** One entry of [recentJobs]. *)
Record JobSummary : Type := mkSummary {
  summary_requestId : string;
  summary_status : Status;
  summary_progress : Z;
  summary_message : string;
  summary_startTime : Z;
  summary_completedTime : option Z
}.

(** The body of the dashboard's answer. *)
Record DashboardBody : Type := mkDashboardBody {
  dashboard_id : string;
  dashboard_email : Json;
  recentJobs : list JobSummary;
  totalJobs : nat;
  completedJobs : nat;
  failedJobs : nat
}.

(** [Array.prototype.sort(compareFn)]: the sort is stable, so for a
    consistent comparator its result is the one of inserting the elements
    from the last to the first, each before the first element it does not
    come after. *)
Fixpoint insertSorted {A : Type} (compareFn : A → A → Z) (x : A) (sorted : list A)
  : list A :=
  match sorted with
  | [] => [x]
  | y :: rest =>
      if (compareFn x y <=? 0)%Z then x :: y :: rest
      else y :: insertSorted compareFn x rest
  end.

Definition sort {A : Type} (compareFn : A → A → Z) (l : list A) : list A :=
  foldr (insertSorted compareFn) [] l.

Module Dashboard.

Definition summary (entry : string * Job) : JobSummary :=
  mkSummary entry.1 (status entry.2) (progress entry.2) (message entry.2)
            (startTime entry.2) (completedTime entry.2).

(** [GET /api/user/dashboard] for the user of the verified token, on the
    entries of [generationJobs] in the order the map iterates them (the
    order in which the ids were first set). *)
Definition dashboard (user : Payload) (entries : list (string * Job)) : DashboardBody :=
  let userJobs :=
    take 10
      (sort (λ a b, summary_startTime b - summary_startTime a)%Z
         (summary <$> filter (λ entry, userId entry.2 = payload_userId user) entries)) in
  {| dashboard_id := payload_userId user;
     dashboard_email := payload_email user;
     recentJobs := userJobs;
     totalJobs := length userJobs;
     completedJobs := length (filter (λ job, summary_status job = completed) userJobs);
     failedJobs := length (filter (λ job, summary_status job = failed) userJobs) |}.

End Dashboard.

(** ** Vocabulary of the further statements *)

(** The files a job was submitted with. *)
Definition uploads (job : Job) : list string :=
  modelImage job :: (garment_imagePath <$> garments job).

(** The paths the clean-up of a completed job removes. *)
Definition removable (job : Job) (path : string) : Prop :=
  (isDefaultModel job = false ∧ path = modelImage job) ∨
  (∃ garment, garment ∈ garments job ∧ garment_imagePath garment = path ∧
              includes path "defaults" = false).

(** The first path of a list that is not on the disk. *)
Fixpoint firstMissing (files : Disk) (paths : list string) : option string :=
  match paths with
  | [] => None
  | path :: rest =>
      match files !! path with
      | Some _ => firstMissing files rest
      | None => Some path
      end
  end.

(** The message of [prepareImage] for a missing file. *)
Definition preparationFailed (path : string) : string :=
  "Image preparation failed: ENOENT: no such file or directory, open '" +:+ path +:+ "'".

(** The parameter a garment's image is sent under. *)
Definition parameterOf (garment : Garment) : string :=
  Server.getGarmentParameter (toString (garment_type garment)).

(** The entries of the registry, in some order. *)
Definition listing (entries : list (string * Job)) (st : State) : Prop :=
  entries ≡ₚ map_to_list (generationJobs st).

(** Every garment's type is a string that names no inherited member. *)
Definition plainTypes (garments : list Garment) : Prop :=
  Forall (λ garment, ∃ t, garment_type garment = JStr t ∧ t ∉ inheritedMembers) garments.

(** The number of records the mock service is asked for. *)
Definition requested (options : Options) : nat :=
  Z.to_nat (if (numOutputs options =? 0)%Z then 1%Z else numOutputs options).

(** The file the fallback image of the [i]-th result is written to. *)
Definition fallbackPath (w : World) (requestId owner : string) (i : nat) : string :=
  dirname w +:+ "/outputs/" +:+ owner +:+ "/" +:+ "vella-result-" +:+ requestId +:+ "-"
  +:+ pretty i +:+ ".jpg".

(** The file an extra image is written to. *)
Definition extraPath (w : World) (kind requestId owner : string) : string :=
  dirname w +:+ extraReference kind requestId owner.

(** None of the job's images lies under the output directory. *)
Definition outsideOutputs (w : World) (job : Job) : Prop :=
  ∀ path, path ∈ uploads job → String.prefix (dirname w +:+ "/outputs/") path = false.

(** Every reference of a result mapping starts with [/outputs/] and names
    a file of the output directory that is on the disk. *)
Definition served (w : World) (slots : gmap string string) (files : Disk) : Prop :=
  ∀ key reference, slots !! key = Some reference →
    (∃ rest, reference = "/outputs/" +:+ rest) ∧ is_Some (files !! (dirname w +:+ reference)).

(** The second disk holds every path the first one holds. *)
Definition grows (files files' : Disk) : Prop :=
  ∀ path, is_Some (files !! path) → is_Some (files' !! path).

(** A world whose model refuses every call. *)
Definition quotaWorld : World :=
  sampleWorld (λ _, Throws "quota exceeded") online healthyCanvas.

(** A request for default model 1 wearing the default garment [id]. *)
Definition garmentRequest (owner id : string) : Request :=
  mkRequest owner None None None None (JStr "default") (JStr "single") JUndefined JUndefined
            (JStr "1") (JObj [("id", JStr id)]).

(** The same request with an uploaded model image. *)
Definition uploadRequest (owner path : string) : Request :=
  mkRequest owner (Some path) None None None JUndefined (JStr "single") JUndefined JUndefined
            JUndefined (JObj [("id", JStr "top2")]).

(** The uploaded files of a request. *)
Definition uploadedPaths (req : Request) : list string :=
  omap id [files_modelImage req; files_singleGarmentImage req; files_topGarmentImage req;
           files_bottomGarmentImage req].

(** The entries of the registry that belong to a user. *)
Definition ownJobs (owner : string) (entries : list (string * Job)) : list (string * Job) :=
  filter (λ entry, userId entry.2 = owner) entries.

(** A summary that does not come after another one in the dashboard. *)
Definition newerFirst (a b : JobSummary) : Prop :=
  (summary_startTime b ≤ summary_startTime a)%Z.

(** ** Accounts *)

(** A record of [users.json].  Times are clock readings; the hash is the
    string the hashing library returned. *)
Record User : Type := mkUser {
  user_id : string;
  user_email : Json;
  user_password : string;
  user_createdAt : Z;
  user_lastLogin : Z
}.

(** What [users.json] holds: the list last written, or nothing that can
    be read as one (the file is missing or does not parse). *)
Abbreviation UsersFile := (option (list User)).

(** What the account routes take from outside the repository: the
    password hashing library, the token library (signing a token does not
    fail), and the comparison [v < n] of the language for a value that is
    not a number. *)
Record AuthWorld : Type := mkAuthWorld {
  bcrypt_hash : Json → Result string;
  bcrypt_compare : Json → string → Result bool;
  jwt_sign : string → Json → string;
  jwt_verify : string → option Payload;
  lessThan : Json → Z → Result bool
}.

(** The answer of an account route: an error, or the account with its
    token. *)
Inductive AuthResponse : Type :=
| AuthError (code : Z) (error : string)
| AuthGranted (code : Z) (message : string) (id : string) (email : Json) (createdAt : Z)
              (lastLogin : option Z) (token : string) (redirectTo : string).

(** [a === b] on data values: two arrays or two objects are never the same
    one. *)
Definition strictEq (a b : Json) : bool :=
  match a, b with
  | JUndefined, JUndefined | JNull, JNull => true
  | JBool x, JBool y => Bool.eqb x y
  | JNum x, JNum y => (x =? y)%Z
  | JStr x, JStr y => String.eqb x y
  | _, _ => false
  end.

(** The string a data value is converted to where a string is expected.
    An object with a [toString] member of its own has no conversion: the
    member is not callable, and neither [valueOf] gives a primitive. *)
Fixpoint ToString (v : Json) : Result string :=
  match v with
  | JObj fields =>
      if existsb (λ member, String.eqb member.1 "toString") fields
      then Throws "Cannot convert object to primitive value"
      else Returns "[object Object]"
  | JArr items =>
      parts ← (fix each (items : list Json) : Result (list string) :=
                 match items with
                 | [] => Returns []
                 | item :: rest =>
                     part ← match item with
                            | JUndefined | JNull => Returns EmptyString
                            | _ => ToString item
                            end;
                     parts ← each rest;
                     Returns (part :: parts)
                 end) items;
      Returns (String.concat "," parts)
  | _ => Returns (toString v)
  end.

(** The character [c] is the one of the one-character string [s]. *)
Definition isChar (c : Ascii.ascii) (s : string) : bool := String.eqb (String c EmptyString) s.

(** [\s] on a character, characters being code units below 256. *)
Definition isSpace (c : Ascii.ascii) : bool :=
  bool_decide (Ascii.nat_of_ascii c ∈ [9; 10; 11; 12; 13; 32; 160]).

Definition startsNonSpace (s : string) : bool :=
  match s with
  | EmptyString => false
  | String c _ => negb (isSpace c)
  end.

(** [\S+\.\S+] matches at the start of [s]; [seen] tells that a first
    [\S] has been read. *)
Fixpoint domainPart (s : string) (seen : bool) : bool :=
  match s with
  | EmptyString => false
  | String c rest =>
      if isSpace c then false
      else (seen && isChar c "." && startsNonSpace rest) || domainPart rest true
  end.

(** [/\S+@\S+\.\S+/.test(s)]: the pattern matches somewhere in [s];
    [before] tells that the character before [s] is a [\S]. *)
Fixpoint emailLike (s : string) (before : bool) : bool :=
  match s with
  | EmptyString => false
  | String c rest =>
      (before && isChar c "@" && domainPart rest false) ||
      emailLike rest (negb (isSpace c))
  end.

(** [s.split(' ')] *)
Fixpoint split_space (s : string) : list string :=
  match s with
  | EmptyString => [EmptyString]
  | String c rest =>
      match split_space rest with
      | first :: others =>
          if isChar c " " then EmptyString :: first :: others
          else String c first :: others
      | [] => [String c EmptyString]
      end
  end.

Module Accounts.

Definition readUsers (file : UsersFile) : list User := default [] file.

Definition writeUsers (users : list User) : UsersFile := Some users.

Definition findUserByEmail (email : Json) (file : UsersFile) : option User :=
  List.find (λ user, strictEq (user_email user) email) (readUsers file).

(** [createUser], the clock reading [now] where the id is taken, then
    [created] and [login] where the two times are: the new user and the file
    it leaves. *)
Definition createUser (a : AuthWorld) (now created login : Z) (email password : Json)
    (file : UsersFile) : Result (User * UsersFile) :=
  let users := readUsers file in
  match List.find (λ user, strictEq (user_email user) email) users with
  | Some _ => Throws "User already exists with this email"
  | None =>
      hashedPassword ← bcrypt_hash a password;
      let newUser := mkUser (pretty now) email hashedPassword created login in
      Returns (newUser, writeUsers (users ++ [newUser]))
  end.

Definition verifyPassword (a : AuthWorld) (password : Json) (hashedPassword : string)
  : Result bool :=
  bcrypt_compare a password hashedPassword.

Definition generateToken (a : AuthWorld) (userId : string) (email : Json) : string :=
  jwt_sign a userId email.

(** The middleware of the protected routes: it answers itself, or lets
    the request through with the user of the token. *)
Definition authenticateToken (a : AuthWorld) (authorization : option string)
  : Handled Payload :=
  let token :=
    match authorization with
    | None => None
    | Some authHeader =>
        if String.eqb authHeader EmptyString then Some authHeader
        else split_space authHeader !! 1
    end in
  match token with
  | None => Reply (mkResponse 401 [("error", FString "Access token required")])
  | Some token =>
      if String.eqb token EmptyString
      then Reply (mkResponse 401 [("error", FString "Access token required")])
      else
        match jwt_verify a token with
        | None => Reply (mkResponse 403 [("error", FString "Invalid or expired token")])
        | Some user => Continue user
        end
  end.

(** The update of [lastLogin]: the first user with the id, when there is
    one. *)
Fixpoint setLastLogin (id : string) (later : Z) (users : list User) : option (list User) :=
  match users with
  | [] => None
  | user :: rest =>
      if String.eqb (user_id user) id
      then Some (mkUser (user_id user) (user_email user) (user_password user)
                        (user_createdAt user) later :: rest)
      else (λ updated, user :: updated) <$> setLastLogin id later rest
  end.

Definition updateLastLogin (id : string) (later : Z) (file : UsersFile) : UsersFile :=
  match setLastLogin id later (readUsers file) with
  | Some users => writeUsers users
  | None => file
  end.

(** [password.length < 6] *)
Definition tooShort (a : AuthWorld) (password : Json) : Result bool :=
  match password with
  | JUndefined => Throws "Cannot read properties of undefined (reading 'length')"
  | JNull => Throws "Cannot read properties of null (reading 'length')"
  | JBool _ | JNum _ => Returns false
  | JStr s => Returns (String.length s <? 6)
  | JArr items => Returns (length items <? 6)
  | JObj fields =>
      match assoc "length" fields with
      | JUndefined => Returns false
      | JNull | JBool _ => Returns true
      | JNum n => Returns (n <? 6)%Z
      | other => lessThan a other 6
      end
  end.

(** [POST /api/auth/signup] with a parsed body, the user being created
    at the clock readings [now], [created] and [login] and the login
    recorded when the clock reads [later]; no other request touches
    [users.json] meanwhile. *)
Definition signup (a : AuthWorld) (now created login later : Z) (email password : Json)
    (file : UsersFile) : UsersFile * AuthResponse :=
  let attempt : Result (UsersFile * AuthResponse) :=
    if negb (truthy email) || negb (truthy password)
    then Returns (file, AuthError 400 "Email and password are required")
    else
      text ← ToString email;
      if negb (emailLike text false)
      then Returns (file, AuthError 400 "Invalid email format")
      else
        short ← tooShort a password;
        if short : bool
        then Returns (file, AuthError 400 "Password must be at least 6 characters")
        else
          made ← createUser a now created login email password file;
          let user := made.1 in
          let token := generateToken a (user_id user) (user_email user) in
          Returns (updateLastLogin (user_id user) later made.2,
                   AuthGranted 201 "User created successfully" (user_id user)
                               (user_email user) (user_createdAt user) None token
                               "/dashboard") in
  match attempt with
  | Returns outcome => outcome
  | Throws m =>
      (file,
       if String.eqb m "User already exists with this email" then AuthError 409 m
       else AuthError 500 ("Failed to create user: " +:+ m))
  end.

(** [POST /api/auth/signin], the login recorded when the clock reads
    [later]. *)
Definition signin (a : AuthWorld) (later : Z) (email password : Json) (file : UsersFile)
  : UsersFile * AuthResponse :=
  let attempt : Result (UsersFile * AuthResponse) :=
    if negb (truthy email) || negb (truthy password)
    then Returns (file, AuthError 400 "Email and password are required")
    else
      match findUserByEmail email file with
      | None => Returns (file, AuthError 401 "Invalid email or password")
      | Some user =>
          isValidPassword ← verifyPassword a password (user_password user);
          if negb isValidPassword
          then Returns (file, AuthError 401 "Invalid email or password")
          else
            let token := generateToken a (user_id user) (user_email user) in
            Returns (updateLastLogin (user_id user) later file,
                     AuthGranted 200 "Sign in successful" (user_id user) (user_email user)
                                 (user_createdAt user) (Some (user_lastLogin user)) token
                                 "/dashboard")
      end in
  match attempt with
  | Returns outcome => outcome
  | Throws m => (file, AuthError 500 ("Failed to sign in: " +:+ m))
  end.

(** A protected route: the middleware, then the handler for the user it
    lets through. *)
Definition protected {A : Type} (a : AuthWorld) (authorization : option string)
    (handler : Payload → A * Response) (unchanged : A) : A * Response :=
  match authenticateToken a authorization with
  | Continue user => handler user
  | Reply response => (unchanged, response)
  | Raise m => (unchanged, mkResponse 500 [("error", FString m)])
  end.

(** [GET /api/status/:requestId] behind the middleware. *)
Definition status_route (a : AuthWorld) (authorization : option string) (requestId : string)
    (st : State) : State * Response :=
  protected a authorization (λ user, Server.getStatus requestId (payload_userId user) st) st.

End Accounts.

(** A string without a space. *)
Definition spaceless (s : string) : Prop := includes s " " = false.


(** ** Start-up: the default images *)

(** The placeholder pictures drawn at start-up, by the table and the id
    they stand for. *)
Inductive Placeholder : Type :=
| ModelPlaceholder (id : string)
| GarmentPlaceholder (id : string).

Module Startup.

(** [Object.entries(defaultImages.models)] and
    [Object.entries(defaultImages.garments)]. *)
Definition models : list (string * string) :=
  [("1", "model1.png"); ("2", "model2.jpeg"); ("3", "model3.png"); ("4", "model4.png");
   ("5", "model5.png"); ("6", "model6.jpg"); ("7", "model7.jpg"); ("8", "model8.png")].

Definition garments : list (string * string) :=
  [("top2", "top2.png"); ("top3", "top3.png"); ("top4", "top4.png");
   ("bottom1", "bottom1.png"); ("dress", "dress.png")].

(** One of the two loops of [createPlaceholderImages]: the disk it
    leaves, and the error that stopped it, if any. *)
Fixpoint placeEach (draw : Placeholder → Result Buffer) (kind : string → Placeholder)
    (targetDir : string) (entries : list (string * string)) (files : Disk)
  : Disk * option string :=
  match entries with
  | [] => (files, None)
  | (id, filename) :: rest =>
      let targetPath := targetDir +:+ "/" +:+ filename in
      if Server.existsSync files targetPath
      then placeEach draw kind targetDir rest files
      else
        match draw (kind id) with
        | Returns body =>
            placeEach draw kind targetDir rest
                      (<[targetPath := signature image_png ++ body]> files)
        | Throws m => (files, Some m)
        end
  end.

Definition createPlaceholderImages (w : World) (draw : Placeholder → Result Buffer)
    (files : Disk) : Disk * option string :=
  let targetDir := dirname w +:+ "/defaults" in
  match placeEach draw ModelPlaceholder targetDir models files with
  | (files1, None) => placeEach draw GarmentPlaceholder targetDir garments files1
  | stopped => stopped
  end.

(** [initializeDefaultImages], run once when the server starts: the disk
    it leaves, and the error that ends the start, if any. *)
Definition initializeDefaultImages (w : World) (draw : Placeholder → Result Buffer)
    (files : Disk) : Disk * option string :=
  let targetDir := dirname w +:+ "/defaults" in
  let allImages := (snd <$> models) ++ (snd <$> garments) in
  let hasRealImages :=
    existsb (λ filename,
               match files !! (targetDir +:+ "/" +:+ filename) with
               | Some content => (1000 <? Z.of_nat (length content))%Z
               | None => false
               end) allImages in
  if hasRealImages then (files, None) else createPlaceholderImages w draw files.

End Startup.

(** One of the default images is on the disk with more than 1000 bytes. *)
Definition realImage (w : World) (files : Disk) : Prop :=
  ∃ filename content,
    filename ∈ (snd <$> Startup.models) ++ (snd <$> Startup.garments) ∧
    files !! (dirname w +:+ "/defaults/" +:+ filename) = Some content ∧
    1000 < length content.

(** ** What reaches the handler of [/api/generate] *)

(** [limits.fileSize] of the upload middleware. *)
Definition fileSize : Z := 10 * 1024 * 1024.

(** The upload middleware has let the request through: every uploaded
    file of the request is on the disk, where the middleware wrote it, with
    fewer bytes than [limits.fileSize].  A request with a larger file is
    refused by the middleware, and the handler does not run. *)
Definition stored (req : Request) (files : Disk) : Prop :=
  ∀ path, path ∈ uploadedPaths req →
    ∃ content, files !! path = Some content ∧ (Z.of_nat (length content) < fileSize)%Z.

(** A request as the handler receives it: with the body the framework
    parsed for it, or with [req.body] left undefined because none was
    parsed.  The second one carries no file: the upload middleware gives a
    body to every request it reads. *)
Inductive Delivered : Type :=
| WithBody (req : Request)
| WithoutBody (userId : string).

(** The message of the error thrown when the fields of an undefined
    [req.body] are looked up. *)
Definition undefinedBody : string :=
  "Cannot destructure property 'modelType' of 'req.body' as it is undefined.".

(** The handler of [POST /api/generate] on a delivered request.  Without
    a body, the destructuring of [req.body] at the head of the [try] throws
    and the [catch] answers. *)
Definition generate_handler (w : World) (now : Z) (delivered : Delivered) (st : State)
  : State * Response * option Server.Task :=
  match delivered with
  | WithBody req => Server.generate w now req st
  | WithoutBody _ =>
      (st,
       mkResponse 500
         [("error",
           FString ("Failed to start generation: " +:+ undefinedBody))],
       None)
  end.

(** The validation of a delivered request fails: it has no body, or its
    body and files lack a model image reference or a garment reference. *)
Definition failsValidation (w : World) (delivered : Delivered) : Prop :=
  match delivered with
  | WithBody req => modelReferencePresent req && garmentReferencePresent w req = false
  | WithoutBody _ => True
  end.

(** An upload of [n] bytes. *)
Definition bytes (n : nat) : Buffer := replicate n x00.

(** * Properties *)

(** ** The classifier *)

Lemma strictEqStr_true v t : strictEqStr v t = true ↔ v = JStr t.
Proof.
  destruct v; simpl; try (split; [discriminate | intros; discriminate]).
  rewrite String.eqb_eq. split; [by intros -> | by intros [= ->]].
Qed.

Lemma some_type_present t garments :
  VellaService.some_type t garments = true ↔ present t garments.
Proof.
  unfold VellaService.some_type, present. rewrite existsb_exists.
  split; intros (g & Hin & Hg); exists g.
  - split; [by apply list_elem_of_In | by apply strictEqStr_true].
  - split; [by apply list_elem_of_In | by apply strictEqStr_true].
Qed.

Lemma some_type_absent t garments :
  VellaService.some_type t garments = false ↔ ¬ present t garments.
Proof.
  rewrite <- some_type_present. destruct (VellaService.some_type t garments); naive_solver.
Qed.

Lemma present_perm t gs gs' : gs ≡ₚ gs' → present t gs → present t gs'.
Proof.
  intros Hp (g & Hin & Hg). exists g. split; [by rewrite <- Hp | done].
Qed.

Lemma some_type_perm t gs gs' :
  gs ≡ₚ gs' → VellaService.some_type t gs = VellaService.some_type t gs'.
Proof.
  intros Hp. destruct (VellaService.some_type t gs') eqn:E.
  - apply some_type_present. apply some_type_present in E.
    by apply (present_perm t gs' gs).
  - apply some_type_absent. apply some_type_absent in E.
    intros H. apply E. by apply (present_perm t gs gs').
Qed.

(** C1. The classifier is a total function of the garment list whose value
    is fixed by which of the four types occur: a dress wins; else top with
    bottom gives [top_bottom]; else top with outer gives [top_outer]; else a
    lone top, bottom or outer gives itself; else (nothing recognised, or the
    empty list) the default [top].  Reordering the list changes nothing. *)
Theorem determineGarmentType_precedence (garments : list Garment) :
  (present "dress" garments →
     VellaService.determineGarmentType garments = "dress") ∧
  (¬ present "dress" garments → present "top" garments → present "bottom" garments →
     VellaService.determineGarmentType garments = "top_bottom") ∧
  (¬ present "dress" garments → present "top" garments → ¬ present "bottom" garments →
   present "outer" garments →
     VellaService.determineGarmentType garments = "top_outer") ∧
  (¬ present "dress" garments → present "top" garments → ¬ present "bottom" garments →
   ¬ present "outer" garments →
     VellaService.determineGarmentType garments = "top") ∧
  (¬ present "dress" garments → ¬ present "top" garments → present "bottom" garments →
     VellaService.determineGarmentType garments = "bottom") ∧
  (¬ present "dress" garments → ¬ present "top" garments → ¬ present "bottom" garments →
   present "outer" garments →
     VellaService.determineGarmentType garments = "outer") ∧
  (¬ present "dress" garments → ¬ present "top" garments → ¬ present "bottom" garments →
   ¬ present "outer" garments →
     VellaService.determineGarmentType garments = "top") ∧
  (∀ reordered, garments ≡ₚ reordered →
     VellaService.determineGarmentType reordered =
     VellaService.determineGarmentType garments).
Proof.
  unfold VellaService.determineGarmentType.
  repeat split.
  - intros Hd. apply some_type_present in Hd. by rewrite Hd.
  - intros Hd Ht Hb. apply some_type_absent in Hd.
    apply some_type_present in Ht, Hb. by rewrite Hd, Ht, Hb.
  - intros Hd Ht Hb Ho. apply some_type_absent in Hd, Hb.
    apply some_type_present in Ht, Ho. by rewrite Hd, Ht, Hb, Ho.
  - intros Hd Ht Hb Ho. apply some_type_absent in Hd, Hb, Ho.
    apply some_type_present in Ht. by rewrite Hd, Ht, Hb, Ho.
  - intros Hd Ht Hb. apply some_type_absent in Hd, Ht.
    apply some_type_present in Hb. by rewrite Hd, Ht, Hb.
  - intros Hd Ht Hb Ho. apply some_type_absent in Hd, Ht, Hb.
    apply some_type_present in Ho. by rewrite Hd, Ht, Hb, Ho.
  - intros Hd Ht Hb Ho. apply some_type_absent in Hd, Ht, Hb, Ho.
    by rewrite Hd, Ht, Hb, Ho.
  - intros reordered Hp.
    by rewrite !(some_type_perm _ garments reordered Hp).
Qed.

Lemma determineGarmentType_precedence_witness :
  VellaService.determineGarmentType [garmentOf "bottom"; garmentOf "dress"] = "dress" ∧
  VellaService.determineGarmentType [garmentOf "bottom"; garmentOf "top"] = "top_bottom" ∧
  VellaService.determineGarmentType [garmentOf "outer"; garmentOf "top"] = "top_outer" ∧
  VellaService.determineGarmentType [garmentOf "top"] = "top" ∧
  VellaService.determineGarmentType [garmentOf "bottom"] = "bottom" ∧
  VellaService.determineGarmentType [garmentOf "outer"] = "outer" ∧
  VellaService.determineGarmentType [garmentOf "scarf"] = "top" ∧
  VellaService.determineGarmentType [garmentOf "top"; garmentOf "bottom"] =
  VellaService.determineGarmentType [garmentOf "bottom"; garmentOf "top"].
Proof.
  refine (conj _ (conj _ (conj _ (conj _ (conj _ (conj _ (conj _ _))))))).
  - apply (proj1 (determineGarmentType_precedence [garmentOf "bottom"; garmentOf "dress"])).
    by apply some_type_present.
  - apply (proj1 (proj2 (determineGarmentType_precedence
                           [garmentOf "bottom"; garmentOf "top"])));
      first [by apply some_type_present | by apply some_type_absent].
  - apply (proj1 (proj2 (proj2 (determineGarmentType_precedence
                                  [garmentOf "outer"; garmentOf "top"]))));
      first [by apply some_type_present | by apply some_type_absent].
  - apply (proj1 (proj2 (proj2 (proj2 (determineGarmentType_precedence
                                         [garmentOf "top"])))));
      first [by apply some_type_present | by apply some_type_absent].
  - apply (proj1 (proj2 (proj2 (proj2 (proj2 (determineGarmentType_precedence
                                                [garmentOf "bottom"]))))));
      first [by apply some_type_present | by apply some_type_absent].
  - apply (proj1 (proj2 (proj2 (proj2 (proj2 (proj2 (determineGarmentType_precedence
                                                       [garmentOf "outer"])))))));
      first [by apply some_type_present | by apply some_type_absent].
  - apply (proj1 (proj2 (proj2 (proj2 (proj2 (proj2 (proj2
             (determineGarmentType_precedence [garmentOf "scarf"]))))))));
      first [by apply some_type_present | by apply some_type_absent].
  - apply (proj2 (proj2 (proj2 (proj2 (proj2 (proj2 (proj2
             (determineGarmentType_precedence [garmentOf "bottom"; garmentOf "top"])))))))).
    apply Permutation_swap.
Defined.

(** ** The normalizer *)

Lemma pushItem_readable i item acc :
  item_readable item → VellaService.pushItem i item acc = Returns (acc ++ pushed i item).
Proof.
  unfold pushed. destruct item as [stream | s | url |]; simpl.
  - unfold streamToBuffer. intros ->. done.
  - done.
  - intros _. destruct url as [[resolved | m] | s |]; simpl;
      rewrite ?app_nil_r; try done.
    by destruct (String.eqb s EmptyString); rewrite ?app_nil_r.
  - intros _. by rewrite app_nil_r.
Qed.


Lemma forItems_readable items : ∀ i acc,
  Forall item_readable items →
  VellaService.forItems i items acc =
  Returns (acc ++ concat (imap (λ j, pushed (i + j)) items)).
Proof.
  induction items as [| item rest IH]; intros i acc Hall; simpl.
  - by rewrite app_nil_r.
  - inversion Hall as [| ? ? Hitem Hrest]; subst.
    rewrite (pushItem_readable _ _ _ Hitem). simpl.
    rewrite (IH (S i) _ Hrest). rewrite Nat.add_0_r, <- app_assoc.
    do 4 f_equal. apply imap_ext. intros j x _. simpl. f_equal. lia.
Qed.


Lemma barren_pushed i item : barren item → pushed i item = [].
Proof.
  unfold pushed. destruct item as [stream | s | [[resolved | m] | s |] |]; simpl; try done.
  by intros ->.
Qed.

Lemma barren_readable item : barren item → item_readable item.
Proof. by destruct item. Qed.

Lemma barren_pushed_all items : ∀ i,
  Forall barren items → concat (imap (λ j, pushed (i + j)) items) = [].
Proof.
  induction items as [| item rest IH]; intros i Hall; [done |].
  inversion Hall as [| ? ? Hitem Hrest]; subst. simpl.
  rewrite (barren_pushed _ _ Hitem). simpl.
  rewrite <- (IH (S i) Hrest). f_equal. apply imap_ext. intros j x _. simpl. f_equal. lia.
Qed.

Lemma barren_collect items :
  Forall barren items → VellaService.collect (OutputArray items) = Returns [].
Proof.
  intros Hall. simpl. rewrite forItems_readable.
  - by rewrite (barren_pushed_all _ 0 Hall).
  - eapply Forall_impl; [exact Hall | apply barren_readable].
Qed.

Lemma pushItem_throws i item acc m :
  VellaService.pushItem i item acc = Throws m →
  ∃ stream, item = ItemStream stream ∧ failure stream = Some m.
Proof.
  destruct item as [stream | s | url |]; simpl; try discriminate.
  unfold streamToBuffer. destruct (failure stream) as [reason |] eqn:E; simpl; [| discriminate].
  intros [= ->]. by exists stream.
Qed.

Lemma forItems_throws items : ∀ i acc m,
  VellaService.forItems i items acc = Throws m →
  ∃ stream, ItemStream stream ∈ items ∧ failure stream = Some m.
Proof.
  induction items as [| item rest IH]; intros i acc m; simpl; [discriminate |].
  destruct (VellaService.pushItem i item acc) as [acc' | m'] eqn:E; simpl.
  - intros H. destruct (IH _ _ _ H) as (stream & Hin & Hf).
    exists stream. split; [by apply list_elem_of_further | done].
  - intros [= ->]. destruct (pushItem_throws _ _ _ _ E) as (stream & -> & Hf).
    exists stream. split; [apply list_elem_of_here | done].
Qed.

(** C2, as the code has it.  The normalizer of the stand-alone service
    returns a non-empty list of records whenever every stream item can be
    read to its end; when nothing was gathered (an empty list, only
    unrecognised items, only failing resolvers) it returns exactly the one
    mock record, at slot 0; and it throws only by rewrapping the error of a
    stream item that broke. *)
Theorem processReplicateOutput_returns (output : RawOutput) :
  (readable output →
     ∃ records, VellaService.processReplicateOutput output = Returns records ∧ records ≠ []) ∧
  (VellaService.collect output = Returns [] →
     VellaService.processReplicateOutput output = Returns [mockRecord] ∧
     isMock mockRecord = true ∧ index mockRecord = 0) ∧
  (∀ items, output = OutputArray items → Forall barren items →
     VellaService.collect output = Returns []) ∧
  (∀ m, VellaService.processReplicateOutput output = Throws m →
     ∃ items stream reason,
       output = OutputArray items ∧ ItemStream stream ∈ items ∧
       failure stream = Some reason ∧ m = "Failed to process results: " +:+ reason).
Proof.
  refine (conj _ (conj _ (conj _ _))).
  - intros Hr. unfold VellaService.processReplicateOutput.
    assert (∃ gathered, VellaService.collect output = Returns gathered) as [gathered ->].
    { destruct output as [items | item]; simpl in *; [| by eexists].
      rewrite forItems_readable by done. by eexists. }
    simpl. case_bool_decide as Hlen.
    + by exists VellaService.createMockResults.
    + exists gathered. split; [done |]. by intros ->.
  - intros Hc. unfold VellaService.processReplicateOutput. by rewrite Hc.
  - intros items -> Hall. by apply barren_collect.
  - intros m. unfold VellaService.processReplicateOutput.
    destruct (VellaService.collect output) as [gathered | reason] eqn:E; simpl.
    + by case_bool_decide.
    + intros [= <-]. destruct output as [items | item]; simpl in E; [| discriminate].
      destruct (forItems_throws _ _ _ _ E) as (stream & Hin & Hf).
      by exists items, stream, reason.
Qed.

Lemma processReplicateOutput_returns_witness :
  (∃ records, VellaService.processReplicateOutput
                (OutputArray [ItemString "https://host/x.png"; failingResolver]) =
              Returns records ∧ records ≠ []) ∧
  VellaService.processReplicateOutput (OutputArray [ItemOther; failingResolver]) =
  Returns [mockRecord] ∧
  VellaService.collect (OutputArray []) = Returns [].
Proof.
  refine (conj _ (conj _ _)).
  - apply (proj1 (processReplicateOutput_returns
                    (OutputArray [ItemString "https://host/x.png"; failingResolver]))).
    simpl. repeat constructor.
  - apply (proj1 (proj2 (processReplicateOutput_returns
                           (OutputArray [ItemOther; failingResolver])))).
    reflexivity.
  - apply (proj1 (proj2 (proj2 (processReplicateOutput_returns (OutputArray []))))
             [] eq_refl).
    constructor.
Defined.

(** A stream item that breaks makes the normalizer throw, whatever the
    other items are. *)
Lemma processReplicateOutput_raises :
  VellaService.processReplicateOutput (OutputArray [ItemStream brokenStream]) =
  Throws "Failed to process results: aborted" ∧
  ¬ returned (VellaService.processReplicateOutput (OutputArray [ItemStream brokenStream])).
Proof.
  split; [reflexivity |]. intros [records H]. discriminate H.
Qed.




(** ** The fallback image *)

(** C6, as the code has it.  The stand-alone service's
    [createMockImageBuffer] never throws: it returns the PNG encoding the
    canvas produces, a non-empty buffer opening with the PNG signature, and
    an empty buffer when the canvas throws.  The server's copy returns the
    same encoding when the canvas works and throws when the canvas does. *)
Theorem createMockImageBuffer_outcomes (w : World) :
  returned (VellaService.createMockImageBuffer w) ∧
  (∀ encoded, canvas w MockImage image_png = Returns encoded →
     VellaService.createMockImageBuffer w = Returns (signature image_png ++ encoded) ∧
     Server.createMockImageBuffer w = Returns (signature image_png ++ encoded) ∧
     signature image_png ++ encoded ≠ [] ∧
     signature image_png `prefix_of` signature image_png ++ encoded) ∧
  (∀ m, canvas w MockImage image_png = Throws m →
     VellaService.createMockImageBuffer w = Returns [] ∧
     Server.createMockImageBuffer w = Throws m).
Proof.
  unfold VellaService.createMockImageBuffer, Server.createMockImageBuffer, toBuffer.
  refine (conj _ (conj _ _)).
  - destruct (canvas w MockImage image_png); simpl; by eexists.
  - intros encoded ->. simpl. repeat split; [done |]. by exists encoded.
  - by intros m ->.
Qed.

Lemma createMockImageBuffer_outcomes_witness :
  VellaService.createMockImageBuffer (sampleWorld oneUrl offline healthyCanvas) =
  Returns [x89; x50; x4e; x47; x0d; x0a; x1a; x0a; x00; x01] ∧
  VellaService.createMockImageBuffer (sampleWorld oneUrl offline brokenCanvas) = Returns [].
Proof.
  split.
  - apply (proj1 (proj2 (createMockImageBuffer_outcomes
                           (sampleWorld oneUrl offline healthyCanvas))) [x00; x01]).
    reflexivity.
  - apply (proj2 (proj2 (createMockImageBuffer_outcomes
                           (sampleWorld oneUrl offline brokenCanvas)))
             "canvas is not available").
    reflexivity.
Defined.

(** When the canvas throws, the stand-alone service's fallback image is the
    empty buffer and the server's copy throws. *)
Lemma createMockImageBuffer_empty :
  VellaService.createMockImageBuffer (sampleWorld oneUrl offline brokenCanvas) = Returns [] ∧
  ¬ returned (Server.createMockImageBuffer (sampleWorld oneUrl offline brokenCanvas)).
Proof.
  split; [reflexivity |]. intros [buffer H]. discriminate H.
Qed.

(** ** Reading a job's status *)

(** C8, as the code has it.  A status read leaves the state as it was, so
    repeating it gives the same answer.  It answers 404 when no job has the
    id and 403 when the job belongs to someone else.  Otherwise a job under
    way is reported with status, progress and message; a completed one with
    status, progress 100, message and results; a failed one with status and
    error alone, under code 500. *)
Theorem getStatus_contract (requestId caller : string) (st : State) :
  (Server.getStatus requestId caller st).1 = st ∧
  Server.getStatus requestId caller (Server.getStatus requestId caller st).1 =
    Server.getStatus requestId caller st ∧
  (generationJobs st !! requestId = None →
     (Server.getStatus requestId caller st).2 =
       mkResponse 404 [("error", FString "Job not found")]) ∧
  (∀ job, generationJobs st !! requestId = Some job → userId job ≠ caller →
     (Server.getStatus requestId caller st).2 =
       mkResponse 403 [("error", FString "Access denied")]) ∧
  (∀ job, generationJobs st !! requestId = Some job → userId job = caller →
     (Server.getStatus requestId caller st).2 =
       match status job with
       | processing =>
           mkResponse 200 [("status", FString "processing");
                           ("progress", FNumber (progress job));
                           ("message", FString (message job))]
       | completed =>
           mkResponse 200 [("status", FString "completed");
                           ("progress", FNumber 100);
                           ("message", FString (message job));
                           ("results", FResults (results job))]
       | failed =>
           mkResponse 500 [("status", FString "failed");
                           ("error", Server.optionalString (error job))]
       end).
Proof.
  assert ((Server.getStatus requestId caller st).1 = st) as Hsame.
  { unfold Server.getStatus. destruct (generationJobs st !! requestId) as [job |]; [| done].
    destruct (negb (String.eqb (userId job) caller)); [done |]. by destruct (status job). }
  refine (conj Hsame (conj _ (conj _ (conj _ _)))).
  - by rewrite Hsame.
  - unfold Server.getStatus. by intros ->.
  - unfold Server.getStatus. intros job -> Hne.
    destruct (String.eqb (userId job) caller) eqn:E; [| done].
    by apply String.eqb_eq in E.
  - unfold Server.getStatus. intros job -> <-.
    rewrite String.eqb_refl. simpl. by destruct (status job).
Qed.

Lemma getStatus_contract_witness :
  (Server.getStatus "1699999999999" "alice" (registered failedJob)).2 =
    mkResponse 404 [("error", FString "Job not found")] ∧
  (Server.getStatus "1700000000000" "bob" (registered failedJob)).2 =
    mkResponse 403 [("error", FString "Access denied")] ∧
  (Server.getStatus "1700000000000" "alice" (registered (sampleJob "alice"))).2 =
    mkResponse 200 [("status", FString "processing");
                    ("progress", FNumber 0);
                    ("message", FString "Starting Vella virtual try-on generation...")].
Proof.
  refine (conj _ (conj _ _)).
  - apply (proj1 (proj2 (proj2 (getStatus_contract "1699999999999" "alice"
                                  (registered failedJob))))).
    reflexivity.
  - apply (proj1 (proj2 (proj2 (proj2 (getStatus_contract "1700000000000" "bob"
                                         (registered failedJob))))) failedJob).
    + reflexivity.
    + discriminate.
  - apply (proj2 (proj2 (proj2 (proj2 (getStatus_contract "1700000000000" "alice"
                                         (registered (sampleJob "alice"))))))
             (sampleJob "alice")).
    + reflexivity.
    + reflexivity.
Defined.

(** The snapshot of a failed job carries neither a progress nor a message
    member. *)
Lemma getStatus_failed_snapshot :
  (Server.getStatus "1700000000000" "alice" (registered failedJob)).2 =
    mkResponse 500 [("status", FString "failed");
                    ("error", FString "Virtual try-on failed: quota exceeded")] ∧
  ("progress" ∉ map fst (body (snd (Server.getStatus "1700000000000" "alice"
                                      (registered failedJob))))) ∧
  ("message" ∉ map fst (body (snd (Server.getStatus "1700000000000" "alice"
                                     (registered failedJob))))).
Proof.
  split; [reflexivity |].
  split; intros H; repeat (apply elem_of_cons in H as [H | H]; [discriminate H |]);
    by apply elem_of_nil in H.
Qed.

(** ** Submitting a request *)

Lemma generate_rejected w now req st :
  (∀ response, Server.validated w req st = Reply response →
     Server.generate w now req st = (st, response, None)) ∧
  (∀ st' response task, Server.generate w now req st = (st', response, task) →
     code response ≠ 200%Z → st' = st ∧ task = None).
Proof.
  unfold Server.generate. split.
  - by intros response ->.
  - intros st' response task.
    destruct (Server.validated w req st) as [[garments modelImagePath] | reply | m].
    + intros [= <- <- <-]. done.
    + by intros [= <- <- <-].
    + by intros [= <- <- <-].
Qed.

Lemma parseGarmentData_cases w req :
  Server.parseGarmentData w req = Continue (parsedGarmentDataOf w req) ∨
  Server.parseGarmentData w req = Reply (Server.bad_request "Invalid garment data format").
Proof.
  unfold Server.parseGarmentData, parsedGarmentDataOf.
  destruct (body_garmentData req); try by left.
  destruct (JSON_parse w s); [by left | by right].
Qed.

Lemma hasModel_present req :
  Server.uploaded (files_modelImage req) ||
  truthy (if strictEqStr (body_modelType req) "default" then body_modelId req
          else JBool false) = modelReferencePresent req.
Proof.
  unfold modelReferencePresent. by destruct (strictEqStr (body_modelType req) "default").
Qed.

Lemma collectGarments_absent w files req :
  garmentReferencePresent w req = false →
  ∃ text, Server.collectGarments w files req (parsedGarmentDataOf w req) =
          Reply (Server.bad_request text).
Proof.
  unfold garmentReferencePresent, Server.collectGarments.
  destruct (strictEqStr (body_garmentType req) "single").
  - unfold Server.singleGarment. intros Hnone.
    apply orb_false_elim in Hnone as [-> ->]. simpl. by eexists.
  - destruct (strictEqStr (body_garmentType req) "multiple"); [| by eexists].
    unfold Server.multipleGarments. intros Hnone.
    apply orb_false_elim in Hnone as [Hnone ->].
    apply orb_false_elim in Hnone as [Hnone ->].
    apply orb_false_elim in Hnone as [-> ->]. simpl. by eexists.
Qed.

Lemma generate_rejects w now req st :
  modelReferencePresent req && garmentReferencePresent w req = false →
  ∃ text,
    Server.generate w now req st = (st, mkResponse 400 [("error", FString text)], None).
Proof.
  intros Hinvalid.
  assert (∃ text, Server.validated w req st = Reply (Server.bad_request text)) as [text Hv].
  { unfold Server.validated.
    destruct (parseGarmentData_cases w req) as [-> | ->]; [| by eexists]. simpl.
    apply andb_false_iff in Hinvalid as [Hmodel | Hgarment].
    - rewrite (hasModel_present req), Hmodel. simpl. by eexists.
    - destruct (Server.uploaded (files_modelImage req) || _); simpl; [| by eexists].
      destruct (collectGarments_absent w (disk st) req Hgarment) as [text ->].
      simpl. by eexists. }
  exists text.
  destruct (generate_rejected w now req st) as [Hreply _].
  by rewrite (Hreply _ Hv).
Qed.

(** C7, as the code has it.  A request that reaches the handler without
    a model image reference or without a garment reference is answered in
    the handler's own turn, the state, and with it the job registry, is left
    as it was, and no task is launched.  When the framework parsed a body
    for the request the answer has code 400; when it parsed none the lookup
    of the body fields throws and the answer has code 500. *)
Theorem generate_validates (w : World) (now : Z) (delivered : Delivered) (st : State) :
  failsValidation w delivered →
  ∃ response,
    generate_handler w now delivered st = (st, response, None) ∧
    generationJobs (generate_handler w now delivered st).1.1 = generationJobs st ∧
    match delivered with
    | WithBody _ => ∃ text, response = mkResponse 400 [("error", FString text)]
    | WithoutBody _ =>
        response =
          mkResponse 500
            [("error", FString ("Failed to start generation: " +:+ undefinedBody))]
    end.
Proof.
  destruct delivered as [req | userId]; simpl.
  - intros Hinvalid. destruct (generate_rejects w now req st Hinvalid) as [text Hreply].
    eexists. rewrite Hreply. split; [reflexivity |]. split; [reflexivity |]. by exists text.
  - intros _. eexists. split; [reflexivity |]. by split.
Qed.

Lemma generate_validates_witness :
  ∃ response,
    generate_handler healthyWorld 1700000000000 (WithBody (bareRequest "alice"))
                     emptyRegistry = (emptyRegistry, response, None) ∧
    generationJobs (generate_handler healthyWorld 1700000000000
                      (WithBody (bareRequest "alice")) emptyRegistry).1.1 =
      generationJobs emptyRegistry ∧
    ∃ text, response = mkResponse 400 [("error", FString text)].
Proof.
  apply (generate_validates healthyWorld 1700000000000 (WithBody (bareRequest "alice"))
           emptyRegistry).
  reflexivity.
Defined.

(** A request for which the framework parsed no body fails the
    validation, and is answered with code 500, not 400. *)
Lemma generate_without_body :
  failsValidation healthyWorld (WithoutBody "alice") ∧
  generate_handler healthyWorld 1700000000000 (WithoutBody "alice") emptyRegistry =
    (emptyRegistry,
     mkResponse 500
       [("error", FString ("Failed to start generation: " +:+ undefinedBody))],
     None) ∧
  code (generate_handler healthyWorld 1700000000000 (WithoutBody "alice")
          emptyRegistry).1.2 ≠ 400%Z.
Proof. split; [exact I |]. split; [reflexivity |]. simpl. discriminate. Qed.

Lemma generate_accepted w now req st st' response task :
  Server.generate w now req st = (st', response, Some task) →
  Server.task_requestId task = pretty now ∧
  response = Server.accepted (pretty now) ∧
  st' = Server.store (pretty now) (Server.task_job task) st ∧
  status (Server.task_job task) = processing ∧
  userId (Server.task_job task) = user_userId req.
Proof.
  unfold Server.generate.
  destruct (Server.validated w req st) as [[garments modelImagePath] | reply | m];
    [| discriminate | discriminate].
  by intros [= <- <- <-].
Qed.

(** An accepted submission registers a new job, at progress 0, and
    launches its task, which makes its first two updates before the handler's
    turn ends; the task's writes are those of [pipeline] on the job as
    registered. *)
Lemma generate_launches w now req st st' response task :
  Server.generate w now req st = (st', response, Some task) →
  ∃ job,
    status job = processing ∧ progress job = 0%Z ∧ userId job = user_userId req ∧
    Server.task_job task = Server.running (Server.preparing job) ∧
    st' = Server.store (pretty now) (Server.task_job task) st ∧
    ∀ finish,
      (Server.pipeline w finish (pretty now) (Server.task_options task)
                       (Server.store (pretty now) job st)).1 =
      Server.preparing job :: Server.task_job task ::
      (Server.resume w finish (pretty now) (Server.task_options task)
                     (Server.task_job task) (disk st)).1.
Proof.
  unfold Server.generate.
  destruct (Server.validated w req st) as [[garments modelImagePath] | reply | m];
    [| discriminate | discriminate].
  intros [= <- <- <-].
  exists (Server.newJob now modelImagePath garments (user_userId req)).
  repeat split. intros finish. unfold Server.pipeline, Server.store. simpl.
  rewrite lookup_insert_eq.
  by destruct (Server.resume w finish (pretty now) _ _ (disk st)).
Qed.

(** Submissions handled at different clock readings get different ids, and
    the later one leaves the earlier job in the registry. *)
Lemma generate_distinct_clocks w now1 now2 req1 req2 st st1 st2 r1 r2 task1 task2 :
  now1 ≠ now2 →
  Server.generate w now1 req1 st = (st1, r1, Some task1) →
  Server.generate w now2 req2 st1 = (st2, r2, Some task2) →
  Server.task_requestId task1 ≠ Server.task_requestId task2 ∧
  generationJobs st2 !! Server.task_requestId task1 = Some (Server.task_job task1) ∧
  generationJobs st2 !! Server.task_requestId task2 = Some (Server.task_job task2).
Proof.
  intros Hne H1 H2.
  apply generate_accepted in H1 as (Hid1 & _ & -> & _).
  apply generate_accepted in H2 as (Hid2 & _ & -> & _).
  rewrite Hid1, Hid2.
  assert (pretty now1 ≠ pretty now2) as Hids by (intros H; by apply (inj pretty) in H).
  split; [done |]. unfold Server.store; simpl. split.
  - rewrite lookup_insert_ne by done. by rewrite lookup_insert_eq.
  - by rewrite lookup_insert_eq.
Qed.

(** C9 at its failing input.  Two valid submissions by different owners
    handled at the same clock reading receive the same id; the registry
    keeps one job, the second owner's, and the first owner's status read is
    refused. *)
Theorem generate_same_clock_collides :
  let first :=
    Server.generate healthyWorld 1700000000000 (sampleRequest "alice") emptyRegistry in
  let second :=
    Server.generate healthyWorld 1700000000000 (sampleRequest "bob") first.1.1 in
  first.1.2 = Server.accepted "1700000000000" ∧
  second.1.2 = Server.accepted "1700000000000" ∧
  userId <$> generationJobs second.1.1 !! "1700000000000" = Some "bob" ∧
  size (generationJobs second.1.1) = 1 ∧
  (Server.getStatus "1700000000000" "alice" second.1.1).2 =
    mkResponse 403 [("error", FString "Access denied")].
Proof. vm_compute. repeat split. Qed.

(** ** The pipeline task *)

Lemma pipeline_writes w finish requestId options st job :
  generationJobs st !! requestId = Some job →
  (Server.pipeline w finish requestId options st).1 =
  Server.preparing job :: Server.running (Server.preparing job) ::
  (Server.resume w finish requestId options (Server.running (Server.preparing job))
                 (disk st)).1.
Proof.
  intros H. unfold Server.pipeline. rewrite H.
  by destruct (Server.resume w finish requestId options _ (disk st)).
Qed.

(** The three ways the task ends. *)
Lemma resume_cases w finish requestId options job files :
  let job80 := Server.advance 80 "Processing results..." job in
  (∃ m,
     Server.active_virtualTryOn w files (modelImage job) (garments job)
                                (Server.serviceOptions w options) = Throws m ∧
     (Server.resume w finish requestId options job files).1 = [Server.fail m finish job]) ∨
  (∃ records m,
     Server.active_virtualTryOn w files (modelImage job) (garments job)
                                (Server.serviceOptions w options) = Returns records ∧
     (Server.materializeAll w requestId job80 0 records ∅ files).1 = Throws m ∧
     (Server.resume w finish requestId options job files).1 =
       [job80; Server.fail m finish job80]) ∨
  (∃ records slots,
     Server.active_virtualTryOn w files (modelImage job) (garments job)
                                (Server.serviceOptions w options) = Returns records ∧
     (Server.materializeAll w requestId job80 0 records ∅ files).1 = Returns slots ∧
     (Server.resume w finish requestId options job files).1 =
       [job80;
        Server.complete
          (if bool_decide (size slots = 0) then slots
           else (Server.addExtras w requestId job80 slots
                   (Server.materializeAll w requestId job80 0 records ∅ files).2).1)
          finish job80]).
Proof.
  intros job80. unfold Server.resume.
  destruct (Server.active_virtualTryOn w files (modelImage job) (garments job)
              (Server.serviceOptions w options)) as [records | m].
  - fold job80.
    destruct (Server.materializeAll w requestId job80 0 records ∅ files)
      as [[slots | m] files1] eqn:E.
    + right. right. exists records, slots. rewrite E. split; [done |]. split; [done |].
      simpl. case_bool_decide; [done |].
      by destruct (Server.addExtras w requestId job80 slots files1).
    + right. left. exists records, m. by rewrite E.
  - left. by exists m.
Qed.

(** C4.  From its creation a job's progress never decreases and goes
    through the checkpoints in order: 20 and 40 are always recorded, in that
    order, before the service is called; when the service call (backend
    invocation with normalization) throws, the job fails where it stands, at
    40, with that error's message; when the call returns, 80 is recorded,
    and the job then ends failed at 80 or completed at 100, so that the
    progress recorded for a completed job is exactly 0, 20, 40, 80, 100.
    The task always ends by storing a completed or a failed job, and
    nothing is stored after that; a job fails at most once. *)
Theorem pipeline_progress (w : World) (finish : Z) (requestId : string)
    (options : Server.TaskOptions) (st : State) (job : Job) :
  generationJobs st !! requestId = Some job →
  status job = processing →
  progress job = 0%Z →
  StronglySorted Z.le (progress <$> trace w finish requestId options st job) ∧
  Forall (λ p, p ∈ [0; 20; 40; 80; 100]%Z)
         (progress <$> trace w finish requestId options st job) ∧
  (∃ final, last (trace w finish requestId options st job) = Some final ∧
            status final ≠ processing ∧
            (status final = completed → progress final = 100%Z)) ∧
  (∀ i entry, trace w finish requestId options st job !! i = Some entry →
              status entry ≠ processing →
              S i = length (trace w finish requestId options st job)) ∧
  length (filter (λ entry, status entry = failed)
                 (trace w finish requestId options st job)) ≤ 1 ∧
  (∀ m, Server.active_virtualTryOn w (disk st) (modelImage job) (garments job)
                                   (Server.serviceOptions w options) = Throws m →
        ∃ final, last (trace w finish requestId options st job) = Some final ∧
                 status final = failed ∧ error final = Some m ∧
                 length (filter (λ entry, status entry = failed)
                                (trace w finish requestId options st job)) = 1) ∧
  (∃ later, progress <$> trace w finish requestId options st job =
            [0; 20; 40]%Z ++ later) ∧
  (∀ m, Server.active_virtualTryOn w (disk st) (modelImage job) (garments job)
                                   (Server.serviceOptions w options) = Throws m →
        progress <$> trace w finish requestId options st job = [0; 20; 40; 40]%Z) ∧
  (∀ records,
     Server.active_virtualTryOn w (disk st) (modelImage job) (garments job)
                                (Server.serviceOptions w options) = Returns records →
     ∃ final, last (trace w finish requestId options st job) = Some final ∧
              ((status final = failed ∧
                progress <$> trace w finish requestId options st job =
                  [0; 20; 40; 80; 80]%Z) ∨
               (status final = completed ∧
                progress <$> trace w finish requestId options st job =
                  [0; 20; 40; 80; 100]%Z))) ∧
  (∀ final, last (trace w finish requestId options st job) = Some final →
            status final = completed →
            progress <$> trace w finish requestId options st job =
              [0; 20; 40; 80; 100]%Z).
Proof.
  intros Hjob Hstatus Hprogress. unfold trace.
  rewrite (pipeline_writes _ _ _ _ _ _ Hjob).
  assert (∀ entries : list Job,
            Forall (λ entry, status entry ≠ failed) entries →
            filter (λ entry, status entry = failed) entries = []) as Hnone.
  { induction 1 as [| entry entries Hentry _ IH]; [done |].
    rewrite filter_cons. by case_decide. }
  destruct (resume_cases w finish requestId options
              (Server.running (Server.preparing job)) (disk st))
    as [(m & Hcall & ->) | [(records & m & Hcall & _ & ->) | (records & slots & Hcall & _ & ->)]];
    simpl in Hcall; simpl; rewrite Hprogress.
  - refine (conj _ (conj _ (conj _ (conj _ (conj _ (conj _ (conj _ (conj _ (conj _ _))))))))).
    + repeat constructor; lia.
    + repeat constructor; set_solver.
    + eexists. split; [reflexivity |]. simpl. by split.
    + intros i entry.
      do 4 (destruct i as [| i]; simpl;
            [intros [= <-]; simpl; rewrite ?Hstatus; done |]).
      done.
    + change [job; ?a; ?b; ?c] with ([job; a; b] ++ [c]).
      rewrite filter_app, (Hnone [job; _; _]).
      * rewrite filter_cons. simpl. lia.
      * repeat constructor; simpl; by rewrite Hstatus.
    + intros m' Hm'. rewrite Hcall in Hm'. injection Hm' as <-.
      eexists. split; [reflexivity |]. simpl. split; [done |]. split; [done |].
      change [job; ?a; ?b; ?c] with ([job; a; b] ++ [c]).
      rewrite filter_app, (Hnone [job; _; _]).
      * by rewrite filter_cons.
      * repeat constructor; simpl; by rewrite Hstatus.
    + by exists [40%Z].
    + done.
    + intros records Hrecords. rewrite Hcall in Hrecords. discriminate.
    + intros final [= <-]. simpl. discriminate.
  - refine (conj _ (conj _ (conj _ (conj _ (conj _ (conj _ (conj _ (conj _ (conj _ _))))))))).
    + repeat constructor; lia.
    + repeat constructor; set_solver.
    + eexists. split; [reflexivity |]. simpl. by split.
    + intros i entry.
      do 5 (destruct i as [| i]; simpl;
            [intros [= <-]; simpl; rewrite ?Hstatus; done |]).
      done.
    + change [job; ?a; ?b; ?c; ?d] with ([job; a; b; c] ++ [d]).
      rewrite filter_app, (Hnone [job; _; _; _]).
      * rewrite filter_cons. simpl. lia.
      * repeat constructor; simpl; by rewrite Hstatus.
    + intros m' Hm'. rewrite Hcall in Hm'. discriminate.
    + by exists [80; 80]%Z.
    + intros m' Hm'. rewrite Hcall in Hm'. discriminate.
    + intros records' _. eexists. split; [reflexivity |]. left. by split.
    + intros final [= <-]. simpl. discriminate.
  - refine (conj _ (conj _ (conj _ (conj _ (conj _ (conj _ (conj _ (conj _ (conj _ _))))))))).
    + repeat constructor; lia.
    + repeat constructor; set_solver.
    + eexists. split; [reflexivity |]. simpl. by split.
    + intros i entry.
      do 5 (destruct i as [| i]; simpl;
            [intros [= <-]; simpl; rewrite ?Hstatus; done |]).
      done.
    + rewrite (Hnone [job; _; _; _; _]); [simpl; lia |].
      repeat constructor; simpl; by rewrite ?Hstatus.
    + intros m' Hm'. rewrite Hcall in Hm'. discriminate.
    + by exists [80; 100]%Z.
    + intros m' Hm'. rewrite Hcall in Hm'. discriminate.
    + intros records' _. eexists. split; [reflexivity |]. right. by split.
    + intros final _ _. reflexivity.
Qed.

Lemma pipeline_progress_witness :
  StronglySorted Z.le
    (progress <$> trace healthyWorld 1700000000500 "1700000000000" sampleOptions
                        (registered (sampleJob "alice")) (sampleJob "alice")) ∧
  ∃ later,
    progress <$> trace healthyWorld 1700000000500 "1700000000000" sampleOptions
                       (registered (sampleJob "alice")) (sampleJob "alice") =
    [0; 20; 40]%Z ++ later.
Proof.
  assert (generationJobs (registered (sampleJob "alice")) !! "1700000000000" =
          Some (sampleJob "alice")) as Hjob by reflexivity.
  destruct (pipeline_progress healthyWorld 1700000000500 "1700000000000" sampleOptions
              (registered (sampleJob "alice")) (sampleJob "alice") Hjob eq_refl eq_refl)
    as (Hsorted & _ & _ & _ & _ & _ & Hcheckpoints & _).
  exact (conj Hsorted Hcheckpoints).
Defined.

(** The same job when everything works, and when the hosted model refuses
    the call. *)
Example trace_completed :
  (λ entry, (status entry, progress entry)) <$>
    trace healthyWorld 1700000000500 "1700000000000" sampleOptions
          (registered (sampleJob "alice")) (sampleJob "alice") =
  [(processing, 0); (processing, 20); (processing, 40); (processing, 80);
   (completed, 100)]%Z.
Proof. vm_compute. reflexivity. Qed.

Example trace_failed :
  (λ entry, (status entry, progress entry, error entry)) <$>
    trace (sampleWorld (λ _, Throws "quota exceeded") online healthyCanvas)
          1700000000500 "1700000000000" sampleOptions
          (registered (sampleJob "alice")) (sampleJob "alice") =
  [(processing, 0, None); (processing, 20, None); (processing, 40, None);
   (failed, 40, Some "Virtual try-on failed: quota exceeded")]%Z.
Proof. vm_compute. reflexivity. Qed.

(** ** Materializing the records *)

Lemma toBuffer_drawn w picture mime :
  returned (canvas w picture mime) →
  ∃ encoded, toBuffer w picture mime = Returns (signature mime ++ encoded).
Proof. intros [encoded H]. exists encoded. unfold toBuffer. by rewrite H. Qed.

Lemma createMockImageBuffer_returned w : returned (VellaService.createMockImageBuffer w).
Proof.
  unfold VellaService.createMockImageBuffer.
  destruct (toBuffer w MockImage image_png); simpl; by eexists.
Qed.

Lemma getImageBuffer_returned w record : returned (VellaService.getImageBuffer w record).
Proof.
  unfold VellaService.getImageBuffer.
  match goal with |- returned (match ?body with _ => _ end) => destruct body as [settled | m] eqn:E end.
  - destruct (imageBuffer record) as [buffer |].
    + injection E as <-. by eexists.
    + destruct (match imageUrl record with UrlThunk outcome => outcome | url => Returns url end)
        as [[url | href | | thunk] | m]; simpl in E; try discriminate.
      destruct (startsWith url "mock://").
      * injection E as <-. apply createMockImageBuffer_returned.
      * destruct (fetch w url) as [[bytes |] | m]; simpl in E; try discriminate.
        injection E as <-. by eexists.
  - apply createMockImageBuffer_returned.
Qed.

Lemma server_getImageBuffer_returned w record :
  fallback_drawn w → returned (Server.getImageBuffer w record).
Proof.
  intros [encoded Hdrawn].
  assert (returned (Server.createMockImageBuffer w)) as Hmock.
  { unfold Server.createMockImageBuffer, toBuffer. rewrite Hdrawn. by eexists. }
  unfold Server.getImageBuffer.
  match goal with |- returned (match ?body with _ => _ end) => destruct body as [settled | m] eqn:E end.
  - destruct (imageBuffer record) as [buffer |].
    + injection E as <-. by eexists.
    + destruct (match imageUrl record with UrlThunk outcome => outcome | url => Returns url end)
        as [[url | href | | thunk] | m]; simpl in E; try discriminate.
      destruct (startsWith url "mock://").
      * by injection E as <-.
      * destruct (fetch w url) as [[bytes |] | m]; simpl in E; try discriminate.
        injection E as <-. by eexists.
  - done.
Qed.

Lemma replicate_getImageBuffer_returned w record :
  Server.activeAIService w = ReplicateVella → fallback_drawn w →
  returned (Server.active_getImageBuffer w record).
Proof.
  intros Hactive Hdrawn. unfold Server.active_getImageBuffer. rewrite Hactive.
  by apply server_getImageBuffer_returned.
Qed.

Lemma materialize_returned w requestId job i record slots files buffer :
  Server.active_getImageBuffer w record = Returns buffer →
  Server.materialize w requestId job i record slots files =
  Returns (<[Server.slotName i := resultReference requestId (userId job) i]> slots,
           <[resultPath w requestId (userId job) i := buffer]> files).
Proof. intros H. unfold Server.materialize. by rewrite H. Qed.

Lemma materializeAll_returned w requestId job records :
  (∀ record, returned (Server.active_getImageBuffer w record)) → ∀ i slots files,
  (Server.materializeAll w requestId job i records slots files).1 =
  Returns (filled requestId (userId job) i (length records) slots).
Proof.
  intros Hget. induction records as [| record rest IH]; intros i slots files; [done |].
  simpl. destruct (Hget record) as [buffer H].
  rewrite (materialize_returned _ _ _ _ _ _ _ _ H). apply IH.
Qed.

Lemma slotName_inj a b : Server.slotName a = Server.slotName b → a = b.
Proof.
  unfold Server.slotName. intros H.
  apply (inj (String.append "tryonResult")) in H. apply (inj pretty) in H. lia.
Qed.

Lemma slotName_not_extra i :
  Server.slotName i ≠ "enhancedProduct" ∧ Server.slotName i ≠ "productBack" ∧
  Server.slotName i ≠ "modelFront" ∧ Server.slotName i ≠ "modelBack".
Proof. unfold Server.slotName. simpl. repeat split; discriminate. Qed.

Lemma filled_lookup_other requestId owner n : ∀ i slots key,
  (∀ k, i ≤ k < i + n → key ≠ Server.slotName k) →
  filled requestId owner i n slots !! key = slots !! key.
Proof.
  induction n as [| n IH]; intros i slots key Hkey; [done |].
  simpl. rewrite IH.
  - apply lookup_insert_ne. intros H. apply (Hkey i); [lia | done].
  - intros k Hk. apply Hkey. lia.
Qed.

Lemma filled_lookup requestId owner n : ∀ i slots k,
  i ≤ k < i + n →
  filled requestId owner i n slots !! Server.slotName k =
  Some (resultReference requestId owner k).
Proof.
  induction n as [| n IH]; intros i slots k Hk; [lia |].
  simpl. destruct (decide (k = i)) as [-> | Hne].
  - rewrite filled_lookup_other.
    + apply lookup_insert_eq.
    + intros k' Hk' H. apply slotName_inj in H. lia.
  - apply IH. lia.
Qed.

(** Whichever way a record is materialized, its slot receives a
    non-empty reference. *)
Lemma materialize_slot w requestId job i record slots files slots' files' :
  Server.materialize w requestId job i record slots files = Returns (slots', files') →
  ∃ reference,
    slots' = <[Server.slotName i := reference]> slots ∧
    String.eqb reference EmptyString = false.
Proof.
  unfold Server.materialize, Server.saveGeneratedImage.
  destruct (Server.active_getImageBuffer w record) as [buffer | m]; simpl.
  - intros [= <- _]. by eexists.
  - destruct (Server.createMockResultImage w (modelImage job) (garments job) i)
      as [mockBuffer | m']; simpl; [| discriminate].
    intros [= <- _]. by eexists.
Qed.

Lemma materializeAll_slots w requestId job records : ∀ i slots files slots',
  (Server.materializeAll w requestId job i records slots files).1 = Returns slots' →
  (∀ k, k < length records →
        ∃ reference, slots' !! Server.slotName (i + k) = Some reference ∧
                     String.eqb reference EmptyString = false) ∧
  (∀ key, (∀ k, k < length records → key ≠ Server.slotName (i + k)) →
          slots' !! key = slots !! key).
Proof.
  induction records as [| record rest IH]; intros i slots files slots'; simpl.
  - intros [= <-]. split; [intros k Hk; lia | done].
  - destruct (Server.materialize w requestId job i record slots files)
      as [[slots1 files1] | m] eqn:E; [| discriminate].
    destruct (materialize_slot _ _ _ _ _ _ _ _ _ E) as (reference & -> & Hne).
    intros Hrest. destruct (IH _ _ _ _ Hrest) as [Hfilled Hother]. split.
    + intros [| k] Hk.
      * exists reference. split; [| done]. rewrite Nat.add_0_r, Hother.
        -- apply lookup_insert_eq.
        -- intros k' _ H. apply slotName_inj in H. lia.
      * destruct (Hfilled k ltac:(lia)) as (reference' & Hlookup & Hne').
        exists reference'. split; [| done]. by replace (i + S k) with (S i + k) by lia.
    + intros key Hkey. rewrite Hother.
      * apply lookup_insert_ne. intros H. apply (Hkey 0); [lia |]. by rewrite Nat.add_0_r.
      * intros k Hk. replace (S i + k) with (i + S k) by lia. apply Hkey. lia.
Qed.

Lemma resultReference_nonempty requestId owner i :
  String.eqb (resultReference requestId owner i) EmptyString = false.
Proof. done. Qed.

Lemma slot_other key value slots wanted :
  key ≠ wanted → Server.slot (<[key := value]> slots) wanted = Server.slot slots wanted.
Proof. intros Hne. unfold Server.slot. by rewrite lookup_insert_ne. Qed.

(** When the canvas draws the extra images, the block that adds them runs
    to its end. *)
Lemma addExtras_drawn w requestId job slots files first :
  extras_drawn w →
  slots !! "tryonResult1" = Some first →
  String.eqb first EmptyString = false →
  (Server.addExtras w requestId job slots files).1 =
  withExtras requestId (userId job) first slots.
Proof.
  intros (Henhanced & Hback & Hview) Hfirst Hne. unfold Server.addExtras, withExtras.
  unfold Server.createProfessionalEnhancedProduct, Server.createProfessionalProductBack,
    Server.createModelBackView.
  destruct (toBuffer_drawn w _ image_jpeg (Henhanced (garments job))) as [e1 ->].
  destruct (toBuffer_drawn w _ image_jpeg (Hback (garments job))) as [e2 ->].
  unfold Server.saveGeneratedImage.
  assert (Server.slot slots "tryonResult1" = Some first) as Hslot.
  { unfold Server.slot. by rewrite Hfirst, Hne. }
  rewrite !slot_other by done. rewrite Hslot.
  rewrite !slot_other by done. rewrite ?Hslot.
  destruct (Server.slot slots "tryonResult2") as [second |]; [done |].
  destruct (toBuffer_drawn w _ image_jpeg (Hview first (userId job))) as [e3 ->].
  done.
Qed.

Lemma withExtras_lookup requestId owner first slots i :
  withExtras requestId owner first slots !! Server.slotName i = slots !! Server.slotName i.
Proof.
  destruct (slotName_not_extra i) as (H1 & H2 & H3 & H4).
  unfold withExtras. by rewrite !lookup_insert_ne.
Qed.

(** The block of the extra images never touches a result slot. *)
Lemma addExtras_keeps w requestId job slots files i :
  (Server.addExtras w requestId job slots files).1 !! Server.slotName i =
  slots !! Server.slotName i.
Proof.
  destruct (slotName_not_extra i) as (H1 & H2 & H3 & H4).
  unfold Server.addExtras, Server.saveGeneratedImage. cbv zeta.
  repeat match goal with
         | |- context [match Server.slot ?m ?k with _ => _ end] =>
             destruct (Server.slot m k)
         | |- context [match ?call with Returns _ => _ | Throws _ => _ end] =>
             destruct call
         end;
    cbn [fst]; by rewrite ?lookup_insert_ne.
Qed.

(** A task whose service call returns, and none of whose records makes
    [getImageBuffer] throw, completes the job with every result slot
    filled, whatever becomes of the extra images. *)
Lemma pipeline_completes w finish requestId options st job records :
  (∀ record, returned (Server.active_getImageBuffer w record)) →
  generationJobs st !! requestId = Some job →
  Server.active_virtualTryOn w (disk st) (modelImage job) (garments job)
                             (Server.serviceOptions w options) = Returns records →
  ∃ done slots,
    last (Server.pipeline w finish requestId options st).1 = Some done ∧
    status done = completed ∧ results done = Some slots ∧
    ∀ i, i < length records →
         slots !! Server.slotName i = Some (resultReference requestId (userId job) i).
Proof.
  intros Hget Hjob Hcall. rewrite (pipeline_writes _ _ _ _ _ _ Hjob).
  destruct (resume_cases w finish requestId options
              (Server.running (Server.preparing job)) (disk st))
    as [(m & Hthrow & _) | [(records' & m & Hcall' & Hm & _) |
                            (records' & slots & Hcall' & Hslots & ->)]].
  - simpl in Hthrow. rewrite Hcall in Hthrow. discriminate.
  - simpl in Hcall'. rewrite Hcall in Hcall'. injection Hcall' as <-.
    by rewrite (materializeAll_returned w requestId _ records Hget) in Hm.
  - simpl in Hcall'. rewrite Hcall in Hcall'. injection Hcall' as <-.
    rewrite (materializeAll_returned w requestId _ records Hget) in Hslots.
    injection Hslots as <-.
    eexists _, _. split; [reflexivity |]. split; [done |]. split; [reflexivity |].
    intros i Hi. case_bool_decide.
    + apply (filled_lookup requestId (userId job) (length records) 0 ∅ i). lia.
    + rewrite addExtras_keeps.
      apply (filled_lookup requestId (userId job) (length records) 0 ∅ i). lia.
Qed.

(** C3, as the code has it.  The stand-alone service's [getImageBuffer]
    never throws, and a record's inline bytes are returned as they are.
    When the canvas can draw the fallback image, the server's copy never
    throws either; a record whose fetch times out, fails on the network,
    ends in a non-success status or responds without data gets the
    fallback image, a non-empty PNG buffer; with the hosted-model service active,
    every record is stored under its slot, and a job whose service call
    returned is completed with every result slot filled. *)
Theorem getImageBuffer_degrades (w : World) :
  (∀ record, returned (VellaService.getImageBuffer w record)) ∧
  (∀ record bytes, imageBuffer record = Some bytes →
     VellaService.getImageBuffer w record = Returns bytes ∧
     Server.getImageBuffer w record = Returns bytes) ∧
  (fallback_drawn w →
     (∀ record, returned (Server.getImageBuffer w record)) ∧
     (∀ record url,
        imageBuffer record = None → imageUrl record = UrlText url → fetch_fails w url →
        ∃ fallback,
          fallback ≠ [] ∧ signature image_png `prefix_of` fallback ∧
          VellaService.getImageBuffer w record = Returns fallback ∧
          Server.getImageBuffer w record = Returns fallback) ∧
     (Server.activeAIService w = ReplicateVella →
        (∀ requestId job i record slots files,
           ∃ buffer,
             Server.getImageBuffer w record = Returns buffer ∧
             Server.materialize w requestId job i record slots files =
               Returns (<[Server.slotName i := resultReference requestId (userId job) i]> slots,
                        <[resultPath w requestId (userId job) i := buffer]> files)) ∧
        (∀ finish requestId options st job records,
           generationJobs st !! requestId = Some job →
           Server.active_virtualTryOn w (disk st) (modelImage job) (garments job)
                                      (Server.serviceOptions w options) = Returns records →
           ∃ done slots,
             last (Server.pipeline w finish requestId options st).1 = Some done ∧
             status done = completed ∧ results done = Some slots ∧
             ∀ i, i < length records →
                  slots !! Server.slotName i =
                  Some (resultReference requestId (userId job) i)))).
Proof.
  refine (conj (getImageBuffer_returned w) (conj _ _)).
  - intros record bytes H.
    unfold VellaService.getImageBuffer, Server.getImageBuffer. by rewrite H.
  - intros Hdrawn.
    refine (conj (λ record, server_getImageBuffer_returned w record Hdrawn) (conj _ _)).
    + intros record url Hbuffer Hurl Hfails.
      destruct Hdrawn as [encoded Hdrawn].
      exists (signature image_png ++ encoded).
      split; [done |]. split; [by exists encoded |].
      unfold VellaService.getImageBuffer, Server.getImageBuffer,
        VellaService.createMockImageBuffer, Server.createMockImageBuffer, toBuffer.
      rewrite Hbuffer, Hurl, Hdrawn. simpl.
      destruct (startsWith url "mock://"); [done |].
      unfold fetch_fails in Hfails. unfold fetch.
      by destruct (axios_get w url) as [| m | code | [bytes |]].
    + intros Hactive. split.
      * intros requestId job i record slots files.
        destruct (replicate_getImageBuffer_returned w record Hactive Hdrawn) as [buffer H].
        exists buffer. split.
        -- unfold Server.active_getImageBuffer in H. by rewrite Hactive in H.
        -- by apply materialize_returned.
      * intros finish requestId options st job records Hjob Hcall.
        apply pipeline_completes; [| done | done].
        intros record. by apply replicate_getImageBuffer_returned.
Qed.

Lemma getImageBuffer_degrades_witness :
  (∃ fallback,
     fallback ≠ [] ∧ signature image_png `prefix_of` fallback ∧
     VellaService.getImageBuffer offlineWorld urlRecord = Returns fallback ∧
     Server.getImageBuffer offlineWorld urlRecord = Returns fallback) ∧
  (∃ done slots,
     last (Server.pipeline offlineWorld 1700000000500 "1700000000000" sampleOptions
             (registered (sampleJob "alice"))).1 = Some done ∧
     status done = completed ∧ results done = Some slots ∧
     ∀ i, i < 1 →
          slots !! Server.slotName i =
          Some (resultReference "1700000000000" "alice" i)).
Proof.
  split.
  - apply (proj1 (proj2 (proj2 (proj2 (getImageBuffer_degrades offlineWorld))
                           (ex_intro _ [x00; x01] eq_refl)))
             urlRecord "https://host/x.png" eq_refl eq_refl I).
  - apply (proj2 (proj2 (proj2 (proj2 (proj2 (getImageBuffer_degrades offlineWorld))
                                  (ex_intro _ [x00; x01] eq_refl))) eq_refl)
             1700000000500%Z "1700000000000" sampleOptions (registered (sampleJob "alice"))
             (sampleJob "alice") [urlRecord] eq_refl eq_refl).
Defined.

(** The same fetch failure under a job, with the canvas working. *)
Example degraded_job_completes :
  (λ entry, (status entry, progress entry)) <$>
    last (Server.pipeline offlineWorld 1700000000500 "1700000000000" sampleOptions
            (registered (sampleJob "alice"))).1 =
  Some (completed, 100%Z).
Proof. vm_compute. reflexivity. Qed.

(** When the canvas throws as well, a fetch that times out leaves the
    stand-alone service with an empty buffer, makes the server's copy throw,
    and fails the job; the same job completes when the fetch succeeds. *)
Lemma getImageBuffer_without_canvas :
  VellaService.getImageBuffer offlineNoCanvas urlRecord = Returns [] ∧
  ¬ returned (Server.getImageBuffer offlineNoCanvas urlRecord) ∧
  status <$> last (Server.pipeline offlineNoCanvas 1700000000500 "1700000000000"
                     sampleOptions (registered (sampleJob "alice"))).1 = Some failed ∧
  status <$> last (Server.pipeline onlineNoCanvas 1700000000500 "1700000000000"
                     sampleOptions (registered (sampleJob "alice"))).1 = Some completed.
Proof.
  split; [reflexivity |]. split; [intros [buffer H]; discriminate H |].
  split; vm_compute; reflexivity.
Qed.

(** ** The extra slots of a completed job *)

(** C10, as the code has it.  When the canvas draws the extra images, a
    job completed with at least one result holds, beside its result slots,
    the slots [enhancedProduct] and [productBack], a [modelFront] equal to
    [tryonResult1], and a [modelBack] equal to [tryonResult2] when there is a
    second result and otherwise the reference of a newly drawn back view;
    none of these four names is the name of a result slot. *)
Theorem completed_results_extras (w : World) (finish : Z) (requestId : string)
    (options : Server.TaskOptions) (st : State) (job done : Job)
    (slots : gmap string string) :
  extras_drawn w →
  generationJobs st !! requestId = Some job →
  last (Server.pipeline w finish requestId options st).1 = Some done →
  status done = completed →
  results done = Some slots →
  is_Some (slots !! "tryonResult1") →
  slots !! "enhancedProduct" = Some (extraReference "enhanced-" requestId (userId job)) ∧
  slots !! "productBack" = Some (extraReference "product-back-" requestId (userId job)) ∧
  slots !! "modelFront" = slots !! "tryonResult1" ∧
  (∀ second, slots !! "tryonResult2" = Some second → slots !! "modelBack" = Some second) ∧
  (slots !! "tryonResult2" = None →
     slots !! "modelBack" = Some (extraReference "model-back-" requestId (userId job))) ∧
  (∀ i, Server.slotName i ∉ ["enhancedProduct"; "productBack"; "modelFront"; "modelBack"]).
Proof.
  intros Hdrawn Hjob Hlast Hstatus Hresults [first Hfirst].
  rewrite (pipeline_writes _ _ _ _ _ _ Hjob) in Hlast.
  destruct (resume_cases w finish requestId options
              (Server.running (Server.preparing job)) (disk st))
    as [(m & _ & Hwritten) | [(records & m & _ & _ & Hwritten) |
                              (records & base & _ & Hbase & Hwritten)]];
    rewrite Hwritten in Hlast; simpl in Hlast; injection Hlast as <-;
    [discriminate Hstatus | discriminate Hstatus |].
  simpl in Hresults. injection Hresults as <-.
  destruct (materializeAll_slots _ _ _ _ _ _ _ _ Hbase) as [Hfilled Hother].
  assert (∀ i, Server.slotName i ∉
               ["enhancedProduct"; "productBack"; "modelFront"; "modelBack"]) as Hnames.
  { intros i Hin. destruct (slotName_not_extra i) as (H1 & H2 & H3 & H4).
    repeat (apply elem_of_cons in Hin as [Hin | Hin]; [done |]).
    by apply elem_of_nil in Hin. }
  case_bool_decide as Hsize.
  { apply map_size_empty_iff in Hsize. by rewrite Hsize in Hfirst. }
  rewrite (addExtras_keeps _ _ _ _ _ 0) in Hfirst.
  change (Server.slotName 0) with "tryonResult1" in Hfirst.
  assert (String.eqb first EmptyString = false) as Hne.
  { destruct records as [| record rest].
    - simpl in Hbase. injection Hbase as <-. by rewrite lookup_empty in Hfirst.
    - destruct (Hfilled 0 ltac:(simpl; lia)) as (reference & Hlookup & Hne).
      change (Server.slotName (0 + 0)) with "tryonResult1" in Hlookup.
      rewrite Hfirst in Hlookup. by injection Hlookup as ->. }
  assert (∀ second, base !! "tryonResult2" = Some second →
                    Server.slot base "tryonResult2" = Some second) as Hsecond.
  { intros second Hlookup. unfold Server.slot. rewrite Hlookup.
    destruct (decide (1 < length records)) as [Hlen | Hlen].
    - destruct (Hfilled 1 Hlen) as (reference & Hlookup' & Hne').
      change (Server.slotName (0 + 1)) with "tryonResult2" in Hlookup'.
      rewrite Hlookup in Hlookup'. injection Hlookup' as ->. by rewrite Hne'.
    - rewrite (Hother "tryonResult2"), lookup_empty in Hlookup; [done |].
      intros k Hk H. change "tryonResult2" with (Server.slotName 1) in H.
      apply slotName_inj in H. lia. }
  rewrite !(addExtras_keeps _ _ _ _ _ 0), !(addExtras_keeps _ _ _ _ _ 1).
  change (Server.slotName 0) with "tryonResult1".
  change (Server.slotName 1) with "tryonResult2".
  rewrite (addExtras_drawn w requestId _ base _ first Hdrawn Hfirst Hne).
  unfold withExtras. rewrite Hfirst.
  refine (conj _ (conj _ (conj _ (conj _ (conj _ Hnames))))).
  - rewrite !lookup_insert_ne by done. apply lookup_insert_eq.
  - rewrite !lookup_insert_ne by done. apply lookup_insert_eq.
  - rewrite lookup_insert_ne by done. apply lookup_insert_eq.
  - intros second Hlookup. by rewrite (Hsecond _ Hlookup), lookup_insert_eq.
  - intros Hnone. unfold Server.slot. by rewrite Hnone, lookup_insert_eq.
Qed.

Lemma extras_drawn_healthy run get : extras_drawn (sampleWorld run get healthyCanvas).
Proof. repeat split; intros; by eexists. Qed.

Lemma completed_results_extras_witness :
  sampleSlots !! "enhancedProduct" = Some "/outputs/alice/enhanced-1700000000000.jpg" ∧
  sampleSlots !! "productBack" = Some "/outputs/alice/product-back-1700000000000.jpg" ∧
  sampleSlots !! "modelFront" = sampleSlots !! "tryonResult1" ∧
  (∀ second, sampleSlots !! "tryonResult2" = Some second →
             sampleSlots !! "modelBack" = Some second) ∧
  (sampleSlots !! "tryonResult2" = None →
     sampleSlots !! "modelBack" = Some "/outputs/alice/model-back-1700000000000.jpg") ∧
  (∀ i, Server.slotName i ∉ ["enhancedProduct"; "productBack"; "modelFront"; "modelBack"]).
Proof.
  apply (completed_results_extras healthyWorld 1700000000500 "1700000000000" sampleOptions
           (registered (sampleJob "alice")) (sampleJob "alice") sampleFinal sampleSlots).
  - apply extras_drawn_healthy.
  - reflexivity.
  - reflexivity.
  - reflexivity.
  - reflexivity.
  - eexists. reflexivity.
Defined.

(** That job has one result slot and the four extra slots. *)
Example sampleSlots_contents :
  size sampleSlots = 5 ∧
  sampleSlots !! "tryonResult1" = Some "/outputs/alice/vella-result-1700000000000-0.png" ∧
  sampleSlots !! "modelFront" = Some "/outputs/alice/vella-result-1700000000000-0.png" ∧
  sampleSlots !! "modelBack" = Some "/outputs/alice/model-back-1700000000000.jpg".
Proof. vm_compute. repeat split. Qed.

(** When the canvas throws, a job whose one result arrived as a stream is
    completed with that result's slot and none of the four extra slots. *)
Lemma completed_without_extras :
  ∃ done slots,
    last (Server.pipeline streamNoCanvas 1700000000500 "1700000000000" sampleOptions
            (registered (sampleJob "alice"))).1 = Some done ∧
    status done = completed ∧ results done = Some slots ∧
    slots !! "tryonResult1" = Some "/outputs/alice/vella-result-1700000000000-0.png" ∧
    slots !! "enhancedProduct" = None ∧ slots !! "productBack" = None ∧
    slots !! "modelFront" = None ∧ slots !! "modelBack" = None.
Proof.
  eexists _, _. split; [vm_compute; reflexivity |].
  repeat split; vm_compute; reflexivity.
Qed.

(** ** Further checks *)

(** The registry after a whole run holds the last content the task gave
    the job. *)
Lemma processVellaTryOn_registry w finish requestId options st job :
  generationJobs st !! requestId = Some job →
  generationJobs (Server.processVellaTryOn w finish requestId options st) !! requestId =
  last (Server.pipeline w finish requestId options st).1.
Proof.
  intros Hjob. unfold Server.processVellaTryOn.
  rewrite (surjective_pairing (Server.pipeline w finish requestId options st)).
  rewrite (pipeline_writes _ _ _ _ _ _ Hjob). simpl.
  generalize (Server.resume w finish requestId options
                (Server.running (Server.preparing job)) (disk st)).1.
  intros later.
  assert (∀ (written : list Job) (jobs : gmap string Job) entry,
            foldl (λ jobs job, <[requestId := job]> jobs) (<[requestId := entry]> jobs) written
              !! requestId = last (entry :: written)) as Hfold.
  { induction written as [| next written IH]; intros jobs entry; simpl.
    - apply lookup_insert_eq.
    - rewrite IH. by destruct written. }
  by rewrite (Hfold later).
Qed.

(** A single URL, an empty list and an object of unknown shape. *)
Example normalize_single_url :
  VellaService.processReplicateOutput (OutputSingle (ItemString "https://host/x.png")) =
  Returns [mkRecord None (UrlText "https://host/x.png") 0 "tryon_result" "image/png"
                    false false].
Proof. reflexivity. Qed.

Example normalize_nothing :
  VellaService.processReplicateOutput (OutputArray []) = Returns [mockRecord] ∧
  VellaService.processReplicateOutput (OutputSingle (ItemObject UrlOther)) =
  Returns [mockRecord].
Proof. split; reflexivity. Qed.

(** A single stream is read by the server's normalizer and passed over by
    the stand-alone one. *)
Example normalize_single_stream :
  Server.processReplicateOutput (OutputSingle (ItemStream wholeStream)) =
  Returns [mkRecord (Some [x89; x50; x4e; x47]) UrlNullish 0 "tryon_result" "image/png"
                    true false] ∧
  VellaService.processReplicateOutput (OutputSingle (ItemStream wholeStream)) =
  Returns [mockRecord].
Proof. split; reflexivity. Qed.

(** A resolver that returns a URL object: the stand-alone normalizer keeps
    the object, the server's keeps its text. *)
Example normalize_url_object :
  pushed 0 (ItemObject (UrlResolver (Returns (ResolvedUrlObject "https://host/x.png")))) =
  [mkRecord None (UrlObject "https://host/x.png") 0 "tryon_result" "image/png" false false] ∧
  server_pushed 0 (ItemObject (UrlResolver (Returns (ResolvedUrlObject "https://host/x.png")))) =
  [mkRecord None (UrlText "https://host/x.png") 0 "tryon_result" "image/png" false false].
Proof. split; reflexivity. Qed.

(** A response whose data is a buffer of length zero is returned as it
    is. *)
Example zero_length_body :
  VellaService.getImageBuffer (sampleWorld oneUrl (λ _, Responded (Some [])) healthyCanvas)
                              urlRecord = Returns [].
Proof. reflexivity. Qed.

(** * Further properties *)

(** The garments of a concrete list have plain types. *)
Ltac plain_types :=
  repeat constructor; eexists; (split; [reflexivity |]);
  unfold inheritedMembers; intros H;
  repeat (apply elem_of_cons in H as [H | H]; [discriminate H |]);
  by apply elem_of_nil in H.

(** ** Calling the hosted model *)

Lemma vella_normalizer_throws output m :
  VellaService.processReplicateOutput output = Throws m →
  ∃ items stream reason,
    output = OutputArray items ∧ ItemStream stream ∈ items ∧
    failure stream = Some reason ∧ m = "Failed to process results: " +:+ reason.
Proof.
  unfold VellaService.processReplicateOutput.
  destruct (VellaService.collect output) as [gathered | reason] eqn:E; simpl.
  - by case_bool_decide.
  - intros [= <-]. destruct output as [items | item]; simpl in E; [| discriminate].
    destruct (forItems_throws _ _ _ _ E) as (stream & Hin & Hf).
    by exists items, stream, reason.
Qed.

Lemma server_pushItem_throws i item acc m :
  Server.pushItem i item acc = Throws m →
  ∃ stream, item = ItemStream stream ∧ failure stream = Some m.
Proof.
  destruct item as [stream | s | url |]; simpl; try discriminate.
  unfold streamToBuffer. destruct (failure stream) as [reason |] eqn:E; simpl; [| discriminate].
  intros [= ->]. by exists stream.
Qed.

Lemma server_forItems_throws items : ∀ i acc m,
  Server.forItems i items acc = Throws m →
  ∃ stream, ItemStream stream ∈ items ∧ failure stream = Some m.
Proof.
  induction items as [| item rest IH]; intros i acc m; simpl; [discriminate |].
  destruct (Server.pushItem i item acc) as [acc' | m'] eqn:E; simpl.
  - intros H. destruct (IH _ _ _ H) as (stream & Hin & Hf).
    exists stream. split; [by apply list_elem_of_further | done].
  - intros [= ->]. destruct (server_pushItem_throws _ _ _ _ E) as (stream & -> & Hf).
    exists stream. split; [apply list_elem_of_here | done].
Qed.

(** The streams the server's normalizer reads: those of an array, or the
    output itself. *)
Lemma server_normalizer_throws output m :
  Server.processReplicateOutput output = Throws m →
  ∃ stream reason,
    (output = OutputSingle (ItemStream stream) ∨
     ∃ items, output = OutputArray items ∧ ItemStream stream ∈ items) ∧
    failure stream = Some reason ∧ m = "Failed to process results: " +:+ reason.
Proof.
  unfold Server.processReplicateOutput.
  assert (∀ reason, Server.collect output = Throws reason →
            ∃ stream,
              (output = OutputSingle (ItemStream stream) ∨
               ∃ items, output = OutputArray items ∧ ItemStream stream ∈ items) ∧
              failure stream = Some reason) as Hcollect.
  { intros reason. destruct output as [items | item]; simpl.
    - intros H. destruct (server_forItems_throws _ _ _ _ H) as (stream & Hin & Hf).
      exists stream. split; [right; by exists items | done].
    - intros H. destruct (server_pushItem_throws _ _ _ _ H) as (stream & -> & Hf).
      exists stream. split; [by left | done]. }
  assert (∀ r : Result (list ResultRecord),
            try_catch
              (results ← r;
               if bool_decide (length results = 0) then Returns Server.createMockResults
               else Returns results)
              (λ m, Throws ("Failed to process results: " +:+ m)) = Throws m →
            ∃ reason, r = Throws reason ∧ m = "Failed to process results: " +:+ reason)
    as Hwrap.
  { intros [results | reason]; simpl.
    - by case_bool_decide.
    - intros [= <-]. by exists reason. }
  intros H.
  assert (∃ reason, Server.collect output = Throws reason ∧
                    m = "Failed to process results: " +:+ reason) as (reason & Hc & ->).
  { destruct output as [items | [stream | s | url |]]; by apply Hwrap. }
  destruct (Hcollect _ Hc) as (stream & Hshape & Hf). by exists stream, reason.
Qed.

Lemma firstMissing_none files paths :
  firstMissing files paths = None ↔ ∀ path, path ∈ paths → is_Some (files !! path).
Proof.
  induction paths as [| path rest IH]; simpl.
  - split; [intros _ path H; by apply elem_of_nil in H | done].
  - destruct (files !! path) as [content |] eqn:E.
    + rewrite IH. split.
      * intros H p Hp. apply elem_of_cons in Hp as [-> | Hp]; [by rewrite E | by apply H].
      * intros H p Hp. apply H. by apply list_elem_of_further.
    + split; [discriminate |]. intros H.
      destruct (H path (list_elem_of_here _ _)) as [content Hc]. by rewrite E in Hc.
Qed.

(** The loop over the garments, in each version: it stops at the first
    garment whose image is missing. *)
Lemma vella_attachGarments_cases files garments : ∀ images,
  match firstMissing files (garment_imagePath <$> garments) with
  | Some missing =>
      VellaTryOn.attachGarments files garments images = Throws (preparationFailed missing)
  | None => returned (VellaTryOn.attachGarments files garments images)
  end.
Proof.
  induction garments as [| garment rest IH]; intros images; simpl; [by eexists |].
  unfold VellaTryOn.prepareImage.
  destruct (files !! garment_imagePath garment) as [content |]; simpl; [apply IH | done].
Qed.

Lemma server_attachGarments_cases files garments : ∀ images,
  match firstMissing files (garment_imagePath <$> garments) with
  | Some missing =>
      Server.attachGarments files garments images = Throws (preparationFailed missing)
  | None => returned (Server.attachGarments files garments images)
  end.
Proof.
  induction garments as [| garment rest IH]; intros images; simpl; [by eexists |].
  unfold Server.prepareImage.
  destruct (files !! garment_imagePath garment) as [content |]; simpl; [apply IH | done].
Qed.

Lemma server_vella_attachGarments files garments : ∀ images,
  VellaTryOn.attachGarments files garments images =
  Server.attachGarments files garments images.
Proof.
  induction garments as [| garment rest IH]; intros images; simpl; [done |].
  unfold VellaTryOn.prepareImage, Server.prepareImage.
  destruct (files !! garment_imagePath garment); simpl; [apply IH | done].
Qed.

(** X1.  For garments whose types are plain strings, the stand-alone
    [virtualTryOn] throws in three ways only.  When an image is missing
    from the disk (the model image first, then the garments in order) or
    the call of the model throws, the error is the one the [catch] puts in
    the place of that error's message ([rethrown]:
    the invalid-token text when the message mentions [auth], else the
    garment-type text for [garment_type], else the image-size text for
    [size] or [dimension], else the timeout text for [timeout], else
    [Virtual try-on failed: ] followed by the message).  When the model
    returns an array holding a stream that breaks, the normalizer's error
    [Failed to process results: ...] comes out as it is, whatever its
    message mentions. *)
Theorem standalone_virtualTryOn_throws (w : World)
    (replicate_run : VellaInput → Result RawOutput) (files : Disk)
    (modelImagePath : string) (garments : list Garment) (options : Options) (e : string) :
  plainTypes garments →
  VellaTryOn.virtualTryOn w replicate_run files modelImagePath garments options = Throws e →
  (∃ missing,
     firstMissing files (modelImagePath :: (garment_imagePath <$> garments)) = Some missing ∧
     e = VellaTryOn.rethrown (preparationFailed missing)) ∨
  (∃ modelImageBuffer images,
     files !! modelImagePath = Some modelImageBuffer ∧
     VellaTryOn.attachGarments files garments ∅ = Returns images ∧
     match replicate_run (VellaTryOn.input w garments options modelImageBuffer images) with
     | Throws m => e = VellaTryOn.rethrown m
     | Returns output =>
         ∃ items stream reason,
           output = OutputArray items ∧ ItemStream stream ∈ items ∧
           failure stream = Some reason ∧ e = "Failed to process results: " +:+ reason
     end).
Proof.
  intros _. unfold VellaTryOn.virtualTryOn. simpl firstMissing.
  unfold VellaTryOn.prepareImage at 1.
  destruct (files !! modelImagePath) as [modelImageBuffer |]; simpl.
  - pose proof (vella_attachGarments_cases files garments ∅) as Hattach.
    destruct (firstMissing files (garment_imagePath <$> garments)) as [missing |].
    + rewrite Hattach. simpl. intros [= <-]. left. by exists missing.
    + destruct Hattach as [images Himages]. rewrite Himages. simpl.
      intros H. right. exists modelImageBuffer, images. split; [done |]. split; [done |].
      destruct (replicate_run (VellaTryOn.input w garments options modelImageBuffer images))
        as [output | m]; simpl in H.
      * destruct (vella_normalizer_throws _ _ H) as (items & stream & reason & -> & Hin & Hf & ->).
        by exists items, stream, reason.
      * by injection H as <-.
  - intros [= <-]. left. by exists modelImagePath.
Qed.

(** A stream that breaks with a message mentioning [timeout] is not
    reported as a timeout of the request, while a call of the model that
    throws with such a message is. *)
Lemma standalone_virtualTryOn_throws_witness :
  ((∃ missing,
      firstMissing sampleDisk ["/srv/app/defaults/model1.png"] = Some missing ∧
      "Failed to process results: socket timeout" =
        VellaTryOn.rethrown (preparationFailed missing)) ∨
   (∃ modelImageBuffer images,
      sampleDisk !! "/srv/app/defaults/model1.png" = Some modelImageBuffer ∧
      VellaTryOn.attachGarments sampleDisk [] ∅ = Returns images ∧
      ∃ items stream reason,
        OutputArray [ItemStream (mkStream [] (Some "socket timeout"))] = OutputArray items ∧
        ItemStream stream ∈ items ∧ failure stream = Some reason ∧
        "Failed to process results: socket timeout" =
          "Failed to process results: " +:+ reason)) ∧
  VellaTryOn.virtualTryOn healthyWorld (λ _, Throws "socket timeout") sampleDisk
    "/srv/app/defaults/model1.png" [] (mkOptions 1 None) =
  Throws "Request timeout. Please try again.".
Proof.
  split; [| reflexivity].
  apply (standalone_virtualTryOn_throws healthyWorld
           (λ _, Returns (OutputArray [ItemStream (mkStream [] (Some "socket timeout"))]))
           sampleDisk "/srv/app/defaults/model1.png" [] (mkOptions 1 None)
           "Failed to process results: socket timeout" (Forall_nil_2 _) eq_refl).
Defined.

(** ** The images sent to the model *)

Lemma attachGarments_lookup files garments : ∀ images images',
  Server.attachGarments files garments images = Returns images' →
  ∀ p, images' !! p =
       match last (filter (λ garment, parameterOf garment = p) garments) with
       | Some garment => files !! garment_imagePath garment
       | None => images !! p
       end.
Proof.
  induction garments as [| garment rest IH]; intros images images'; simpl.
  - by intros [= <-].
  - unfold Server.prepareImage at 1.
    destruct (files !! garment_imagePath garment) as [content |] eqn:E; simpl; [| discriminate].
    intros H p. rewrite (IH _ _ H p). rewrite filter_cons.
    fold (parameterOf garment).
    destruct (decide (parameterOf garment = p)) as [<- | Hne].
    + rewrite last_cons.
      destruct (last (filter (λ g, parameterOf g = parameterOf garment) rest)); [done |].
      by rewrite lookup_insert_eq.
    + destruct (last (filter (λ g, parameterOf g = p) rest)); [done |].
      by rewrite lookup_insert_ne.
Qed.

Lemma getGarmentParameter_known t :
  Server.getGarmentParameter t =
  (if bool_decide (t ∈ ["top"; "bottom"; "dress"; "outer"]) then t +:+ "_image"
   else "top_image").
Proof.
  unfold Server.getGarmentParameter.
  destruct (String.eqb_spec t "top") as [-> | H1]; [done |].
  destruct (String.eqb_spec t "bottom") as [-> | H2]; [done |].
  destruct (String.eqb_spec t "dress") as [-> | H3]; [done |].
  destruct (String.eqb_spec t "outer") as [-> | H4]; [done |].
  rewrite bool_decide_eq_false_2; [done |]. intros H.
  repeat (apply elem_of_cons in H as [H | H]; [done |]). by apply elem_of_nil in H.
Qed.

(** X2.  The loop that attaches the garments' images (the same text in
    both versions of the service), for garments whose types are strings
    naming no inherited member: when it returns, every garment's image was
    on the disk; the image sent under a parameter is the image of the last
    garment with that parameter, so a later garment replaces an earlier one
    of the same kind; at most the four parameters [top_image],
    [bottom_image], [dress_image] and [outer_image] are sent; and a type
    other than [top], [bottom], [dress] and [outer] is sent as
    [top_image]. *)
Theorem attachGarments_last_wins (files : Disk) (garments : list Garment)
    (images : gmap string Buffer) :
  plainTypes garments →
  Server.attachGarments files garments ∅ = Returns images →
  VellaTryOn.attachGarments files garments ∅ = Returns images ∧
  (∀ garment, garment ∈ garments → is_Some (files !! garment_imagePath garment)) ∧
  (∀ p, images !! p =
        garment ← last (filter (λ garment, parameterOf garment = p) garments);
        files !! garment_imagePath garment) ∧
  (∀ p, is_Some (images !! p) →
        p ∈ ["top_image"; "bottom_image"; "dress_image"; "outer_image"]) ∧
  (∀ garment t, garment ∈ garments → garment_type garment = JStr t →
     parameterOf garment =
       (if bool_decide (t ∈ ["top"; "bottom"; "dress"; "outer"]) then t +:+ "_image"
        else "top_image")).
Proof.
  intros _ Hattach.
  assert (∀ p, images !! p =
               garment ← last (filter (λ garment, parameterOf garment = p) garments);
               files !! garment_imagePath garment) as Hlookup.
  { intros p. rewrite (attachGarments_lookup _ _ _ _ Hattach p).
    by destruct (last (filter (λ garment, parameterOf garment = p) garments)). }
  refine (conj _ (conj _ (conj Hlookup (conj _ _)))).
  - by rewrite server_vella_attachGarments.
  - pose proof (server_attachGarments_cases files garments ∅) as Hcases.
    destruct (firstMissing files (garment_imagePath <$> garments)) as [missing |] eqn:E.
    + rewrite Hattach in Hcases. discriminate.
    + intros garment Hin. apply (proj1 (firstMissing_none _ _) E).
      by apply list_elem_of_fmap_2.
  - intros p [content Hp]. rewrite Hlookup in Hp.
    destruct (last (filter (λ garment, parameterOf garment = p) garments))
      as [garment |] eqn:E; [| done].
    apply last_Some_elem_of, list_elem_of_filter in E as [<- _].
    unfold parameterOf. rewrite getGarmentParameter_known.
    case_bool_decide as Hknown; [| apply list_elem_of_here].
    repeat (apply elem_of_cons in Hknown as [-> | Hknown];
            [simpl; repeat first [apply list_elem_of_here | apply list_elem_of_further] |]).
    by apply elem_of_nil in Hknown.
  - intros garment t _ Ht. unfold parameterOf. rewrite Ht. simpl.
    apply getGarmentParameter_known.
Qed.

(** Two tops and a hat: the second top is the one sent as [top_image],
    until the hat, sent as [top_image] too, replaces it. *)
Lemma attachGarments_last_wins_witness :
  (<["top_image" := [x03]]> ∅ : gmap string Buffer) !! "top_image" =
  garment ← last (filter (λ garment, parameterOf garment = "top_image")
                    [mkGarment (JStr "top") "a.png" JNull;
                     mkGarment (JStr "top") "b.png" JNull;
                     mkGarment (JStr "hat") "c.png" JNull]);
  (<["a.png" := [x01]]> (<["b.png" := [x02]]> (<["c.png" := [x03]]> ∅)) : Disk)
    !! garment_imagePath garment.
Proof.
  refine (proj1 (proj2 (proj2 (attachGarments_last_wins
           (<["a.png" := [x01]]> (<["b.png" := [x02]]> (<["c.png" := [x03]]> ∅)))
           [mkGarment (JStr "top") "a.png" JNull; mkGarment (JStr "top") "b.png" JNull;
            mkGarment (JStr "hat") "c.png" JNull]
           (<["top_image" := [x03]]> ∅) _ _))) "top_image").
  - plain_types.
  - vm_compute. reflexivity.
Defined.

(** ** A job whose images are gone *)

Lemma server_virtualTryOn_missing w files modelImagePath garments options missing :
  firstMissing files (modelImagePath :: (garment_imagePath <$> garments)) = Some missing →
  Server.virtualTryOn w files modelImagePath garments options =
  Throws ("Virtual try-on failed: " +:+ preparationFailed missing).
Proof.
  unfold Server.virtualTryOn. simpl firstMissing. unfold Server.prepareImage at 1.
  destruct (files !! modelImagePath) as [modelImageBuffer |]; simpl.
  - pose proof (server_attachGarments_cases files garments ∅) as Hattach.
    destruct (firstMissing files (garment_imagePath <$> garments)) as [missing' |];
      [| discriminate].
    intros [= ->]. by rewrite Hattach.
  - by intros [= <-].
Qed.

(** X3.  With the hosted-model service active, a job with garments of
    plain string types one of whose images is no longer on the disk when
    its task runs (the model image first, then the garments in order) fails
    without the model being called: the
    registry holds the job as [failed], at progress 40, with the error
    [Virtual try-on failed: Image preparation failed: ENOENT: ...] naming
    the first missing path; the disk and the other jobs are as they were;
    and the owner's status read answers 500 with that error. *)
Theorem missing_image_fails_job (w : World) (finish : Z) (requestId : string)
    (options : Server.TaskOptions) (st : State) (job : Job) (missing : string) :
  Server.activeAIService w = ReplicateVella →
  generationJobs st !! requestId = Some job →
  plainTypes (garments job) →
  firstMissing (disk st) (uploads job) = Some missing →
  generationJobs (Server.processVellaTryOn w finish requestId options st) !! requestId =
    Some (Server.fail ("Virtual try-on failed: " +:+ preparationFailed missing) finish
            (Server.running (Server.preparing job))) ∧
  disk (Server.processVellaTryOn w finish requestId options st) = disk st ∧
  (∀ other, other ≠ requestId →
     generationJobs (Server.processVellaTryOn w finish requestId options st) !! other =
     generationJobs st !! other) ∧
  (Server.getStatus requestId (userId job)
     (Server.processVellaTryOn w finish requestId options st)).2 =
    mkResponse 500
      [("status", FString "failed");
       ("error", FString ("Virtual try-on failed: " +:+ preparationFailed missing))].
Proof.
  intros Hactive Hjob _ Hmissing.
  assert (Server.processVellaTryOn w finish requestId options st =
          mkState
            (<[requestId :=
                 Server.fail ("Virtual try-on failed: " +:+ preparationFailed missing) finish
                   (Server.running (Server.preparing job))]>
               (<[requestId := Server.running (Server.preparing job)]>
                  (<[requestId := Server.preparing job]> (generationJobs st))))
            (disk st)) as ->.
  { unfold Server.processVellaTryOn, Server.pipeline, Server.resume,
      Server.active_virtualTryOn.
    rewrite Hjob, Hactive. simpl.
    by rewrite (server_virtualTryOn_missing _ _ _ _ _ _ Hmissing). }
  simpl. refine (conj _ (conj _ (conj _ _))).
  - apply lookup_insert_eq.
  - done.
  - intros other Hne. by rewrite !lookup_insert_ne.
  - unfold Server.getStatus. simpl. rewrite lookup_insert_eq. simpl.
    by rewrite String.eqb_refl.
Qed.

(** The default model image has been removed from the disk. *)
Lemma missing_image_fails_job_witness :
  (Server.getStatus "1700000000000" "alice"
     (Server.processVellaTryOn healthyWorld 1700000000500 "1700000000000" sampleOptions
        (mkState (<["1700000000000" := sampleJob "alice"]> ∅)
                 (<["/srv/app/defaults/top2.png" := [x89; x50]]> ∅)))).2 =
  mkResponse 500
    [("status", FString "failed");
     ("error", FString ("Virtual try-on failed: " +:+
                        preparationFailed "/srv/app/defaults/model1.png"))].
Proof.
  refine (proj2 (proj2 (proj2 (missing_image_fails_job healthyWorld 1700000000500
           "1700000000000" sampleOptions
           (mkState (<["1700000000000" := sampleJob "alice"]> ∅)
                    (<["/srv/app/defaults/top2.png" := [x89; x50]]> ∅))
           (sampleJob "alice") "/srv/app/defaults/model1.png" _ _ _ _))));
    [reflexivity | reflexivity | plain_types | reflexivity].
Defined.

(** ** Strings *)

Lemma append_cons c s t : String c s +:+ t = String c (s +:+ t).
Proof. reflexivity. Qed.

Lemma append_nil t : EmptyString +:+ t = t.
Proof. reflexivity. Qed.

Lemma length_append a b : String.length (a +:+ b) = String.length a + String.length b.
Proof.
  induction a as [| c a IH]; [done |]. rewrite append_cons. simpl. by rewrite IH.
Qed.

Lemma append_assoc a b c : (a +:+ b) +:+ c = a +:+ (b +:+ c).
Proof.
  induction a as [| x a IH]; [done |]. rewrite !append_cons. by rewrite IH.
Qed.

Lemma append_suffix_inj s1 : ∀ s2 t1 t2,
  String.length t1 = String.length t2 → s1 +:+ t1 = s2 +:+ t2 → s1 = s2 ∧ t1 = t2.
Proof.
  induction s1 as [| c s1 IH]; intros [| d s2] t1 t2 Hlen;
    rewrite ?append_cons, ?append_nil.
  - done.
  - intros ->. simpl in Hlen. rewrite length_append in Hlen. lia.
  - intros <-. simpl in Hlen. rewrite length_append in Hlen. lia.
  - intros [= -> H]. destruct (IH _ _ _ Hlen H) as [-> ->]. done.
Qed.

Lemma prefix_append a b : String.prefix a (a +:+ b) = true.
Proof.
  induction a as [| c a IH]; [by destruct b |]. rewrite append_cons. simpl.
  destruct (Ascii.ascii_dec c c); [done | congruence].
Qed.

Lemma includes_unfold s needle :
  includes s needle =
  String.prefix needle s ||
  match s with
  | EmptyString => false
  | String _ rest => includes rest needle
  end.
Proof. by destruct s. Qed.

Lemma includes_here needle rest : includes (needle +:+ rest) needle = true.
Proof. by rewrite includes_unfold, prefix_append. Qed.

Lemma includes_further a s needle : includes s needle = true → includes (a +:+ s) needle = true.
Proof.
  intros H. induction a as [| c a IH]; [done |].
  rewrite append_cons, includes_unfold, IH. by rewrite orb_true_r.
Qed.

(** ** The clean-up *)

Lemma unlinkIfPresent_lookup path files p :
  Server.unlinkIfPresent path files !! p = if decide (p = path) then None else files !! p.
Proof.
  unfold Server.unlinkIfPresent, Server.existsSync.
  case_bool_decide as Hpresent; case_decide as Hp; subst.
  - apply lookup_delete_eq.
  - by apply lookup_delete_ne.
  - by apply eq_None_not_Some.
  - done.
Qed.

Lemma cleanup_garments_removed garments : ∀ files p,
  (∃ garment, garment ∈ garments ∧ garment_imagePath garment = p ∧
              includes p "defaults" = false) →
  foldl (λ remaining garment,
           if negb (includes (garment_imagePath garment) "defaults")
           then Server.unlinkIfPresent (garment_imagePath garment) remaining
           else remaining) files garments !! p = None.
Proof.
  induction garments as [| garment rest IH] using rev_ind; intros files p (g & Hin & Hp & Hd).
  - by apply elem_of_nil in Hin.
  - rewrite foldl_app. simpl.
    destruct (includes (garment_imagePath garment) "defaults") eqn:E; simpl.
    + apply IH. apply elem_of_app in Hin as [Hin | Hin]; [by exists g |].
      apply list_elem_of_singleton in Hin as ->. congruence.
    + rewrite unlinkIfPresent_lookup. case_decide; [done |].
      apply IH. apply elem_of_app in Hin as [Hin | Hin]; [by exists g |].
      apply list_elem_of_singleton in Hin as ->. congruence.
Qed.

Lemma cleanup_garments_kept garments : ∀ files p,
  (∀ garment, garment ∈ garments → garment_imagePath garment = p →
              includes p "defaults" = true) →
  foldl (λ remaining garment,
           if negb (includes (garment_imagePath garment) "defaults")
           then Server.unlinkIfPresent (garment_imagePath garment) remaining
           else remaining) files garments !! p = files !! p.
Proof.
  induction garments as [| garment rest IH]; intros files p Hkept; simpl; [done |].
  rewrite IH.
  - destruct (includes (garment_imagePath garment) "defaults") eqn:E; simpl; [done |].
    rewrite unlinkIfPresent_lookup. case_decide as Hp; [| done]. subst p.
    rewrite (Hkept garment (list_elem_of_here _ _) eq_refl) in E. discriminate.
  - intros g Hin. apply Hkept. by apply list_elem_of_further.
Qed.

Lemma cleanup_removed job files p : removable job p → Server.cleanup job files !! p = None.
Proof.
  unfold Server.cleanup. intros [[Hflag ->] | Hgarment].
  - rewrite Hflag. simpl.
    destruct (includes (modelImage job) "defaults") eqn:E.
    + rewrite cleanup_garments_kept.
      * rewrite unlinkIfPresent_lookup. by case_decide.
      * done.
    + destruct (decide (Exists (λ garment, garment_imagePath garment = modelImage job)
                                (garments job))) as [Hin | Hout].
      * apply cleanup_garments_removed.
        apply Exists_exists in Hin as (g & Hin & Hp). by exists g.
      * rewrite cleanup_garments_kept.
        -- rewrite unlinkIfPresent_lookup. by case_decide.
        -- intros g Hin Hp. destruct Hout. apply Exists_exists. by exists g.
  - by apply cleanup_garments_removed.
Qed.

Lemma cleanup_kept job files p : ¬ removable job p → Server.cleanup job files !! p = files !! p.
Proof.
  unfold Server.cleanup. intros Hkept.
  rewrite cleanup_garments_kept.
  - destruct (isDefaultModel job) eqn:E; simpl; [done |].
    rewrite unlinkIfPresent_lookup. case_decide as Hp; [| done].
    destruct Hkept. left. by split.
  - intros g Hin Hp. destruct (includes p "defaults") eqn:E; [done |].
    destruct Hkept. right. by exists g.
Qed.

(** X4.  The clean-up of a completed job removes the job's transient
    uploads and nothing else: after it the model image is gone unless the
    job is marked as using a default model, every garment image whose path
    does not mention [defaults] is gone, and every other path holds what it
    held.  For a job as [/api/generate] registers it (marked by its model
    path mentioning [defaults]) no path that mentions [defaults] is ever
    touched. *)
Theorem cleanup_removes_uploads (job : Job) (files : Disk) (p : string) :
  (removable job p → Server.cleanup job files !! p = None) ∧
  (¬ removable job p → Server.cleanup job files !! p = files !! p) ∧
  (isDefaultModel job = includes (modelImage job) "defaults" →
   includes p "defaults" = true → Server.cleanup job files !! p = files !! p).
Proof.
  refine (conj (cleanup_removed job files p) (conj (cleanup_kept job files p) _)).
  intros Hflag Hp. apply cleanup_kept. intros [[Hmodel ->] | (g & _ & _ & Hd)]; congruence.
Qed.

(** ** The files a task writes *)

Lemma grows_refl files : grows files files.
Proof. by intros path. Qed.

Lemma grows_trans a b c : grows a b → grows b c → grows a c.
Proof. intros Hab Hbc path H. by apply Hbc, Hab. Qed.

Lemma grows_insert files path content : grows files (<[path := content]> files).
Proof.
  intros p H. destruct (decide (p = path)) as [-> | Hne].
  - by rewrite lookup_insert_eq.
  - by rewrite lookup_insert_ne.
Qed.

Lemma served_save w slots files key imageBuffer filename owner :
  served w slots files →
  served w (<[key := (Server.saveGeneratedImage w imageBuffer filename owner files).1]> slots)
         (Server.saveGeneratedImage w imageBuffer filename owner files).2.
Proof.
  intros Hserved k reference. unfold Server.saveGeneratedImage. simpl.
  destruct (decide (k = key)) as [-> | Hne].
  - rewrite lookup_insert_eq. intros [= <-]. split; [by eexists |].
    by rewrite lookup_insert_eq.
  - rewrite lookup_insert_ne by done. intros H.
    destruct (Hserved k reference H) as [Hform Hfile]. split; [done |].
    by apply grows_insert.
Qed.

Lemma served_alias w slots files key from reference :
  served w slots files → Server.slot slots from = Some reference →
  served w (<[key := reference]> slots) files.
Proof.
  intros Hserved Hslot k r. destruct (decide (k = key)) as [-> | Hne].
  - rewrite lookup_insert_eq. intros [= <-]. apply (Hserved from).
    unfold Server.slot in Hslot. destruct (slots !! from) as [found |]; [| done].
    destruct (String.eqb found EmptyString); [done |]. by injection Hslot as ->.
  - rewrite lookup_insert_ne by done. apply Hserved.
Qed.

Lemma served_empty w files : served w ∅ files.
Proof. intros key reference H. by rewrite lookup_empty in H. Qed.

(** One result: a file is written under the output directory and its
    reference stored; when [getImageBuffer] returns, the file is the [.png]
    one and holds the returned bytes. *)
Lemma materialize_disk w requestId job i record slots files slots' files' :
  Server.materialize w requestId job i record slots files = Returns (slots', files') →
  ∃ path content,
    files' = <[path := content]> files ∧
    (path = resultPath w requestId (userId job) i ∨
     path = fallbackPath w requestId (userId job) i) ∧
    (served w slots files → served w slots' files') ∧
    (∀ buffer, Server.active_getImageBuffer w record = Returns buffer →
       path = resultPath w requestId (userId job) i ∧ content = buffer ∧
       slots' = <[Server.slotName i := resultReference requestId (userId job) i]> slots).
Proof.
  unfold Server.materialize.
  destruct (Server.active_getImageBuffer w record) as [buffer | m]; simpl.
  - intros [= <- <-]. eexists _, _. split; [reflexivity |]. split; [by left |]. split.
    + intros Hserved.
      apply (served_save w slots files (Server.slotName i) buffer
               ("vella-result-" +:+ requestId +:+ "-" +:+ pretty i +:+ ".png")
               (userId job) Hserved).
    + by intros ? [= <-].
  - destruct (Server.createMockResultImage w (modelImage job) (garments job) i)
      as [mockBuffer | m']; simpl; [| discriminate].
    intros [= <- <-]. eexists _, _. split; [reflexivity |]. split; [by right |]. split.
    + intros Hserved.
      apply (served_save w slots files (Server.slotName i) mockBuffer
               ("vella-result-" +:+ requestId +:+ "-" +:+ pretty i +:+ ".jpg")
               (userId job) Hserved).
    + discriminate.
Qed.

Lemma resultPath_inj w requestId owner a b :
  resultPath w requestId owner a = resultPath w requestId owner b → a = b.
Proof.
  unfold resultPath. intros H.
  do 7 apply (inj (String.append _)) in H.
  apply append_suffix_inj in H as [H _]; [| done]. by apply (inj pretty) in H.
Qed.

Lemma resultPath_fallbackPath w requestId owner a b :
  resultPath w requestId owner a ≠ fallbackPath w requestId owner b.
Proof.
  unfold resultPath, fallbackPath. intros H.
  do 7 apply (inj (String.append _)) in H.
  apply append_suffix_inj in H as [_ H]; [discriminate | done].
Qed.

Lemma resultPath_extraPath w requestId owner i kind :
  kind ∈ ["enhanced-"; "product-back-"; "model-back-"] →
  resultPath w requestId owner i ≠ extraPath w kind requestId owner.
Proof.
  unfold resultPath, extraPath, extraReference. intros Hkind H.
  do 4 apply (inj (String.append _)) in H.
  repeat (apply elem_of_cons in Hkind as [-> | Hkind]; [discriminate H |]).
  by apply elem_of_nil in Hkind.
Qed.

Lemma materializeAll_disk w requestId job records : ∀ i slots files slots' files',
  Server.materializeAll w requestId job i records slots files = (Returns slots', files') →
  grows files files' ∧
  (served w slots files → served w slots' files') ∧
  (∀ p, (∀ k, p ≠ resultPath w requestId (userId job) (i + k) ∧
              p ≠ fallbackPath w requestId (userId job) (i + k)) →
        files' !! p = files !! p) ∧
  (∀ k record buffer,
     records !! k = Some record →
     Server.active_getImageBuffer w record = Returns buffer →
     files' !! resultPath w requestId (userId job) (i + k) = Some buffer).
Proof.
  induction records as [| record rest IH]; intros i slots files slots' files'; simpl.
  - intros [= <- <-]. split; [apply grows_refl |]. split; [done |]. split; [done |].
    intros k ? ? H. by rewrite lookup_nil in H.
  - destruct (Server.materialize w requestId job i record slots files)
      as [[slots1 files1] | m] eqn:E; [| discriminate].
    intros Hrest.
    destruct (materialize_disk _ _ _ _ _ _ _ _ _ E) as (path & content & -> & Hpath & Hs & Hb).
    destruct (IH _ _ _ _ _ Hrest) as (Hgrows & Hserved & Hother & Hfiles).
    refine (conj _ (conj _ (conj _ _))).
    + eapply grows_trans; [apply grows_insert | done].
    + intros H. by apply Hserved, Hs.
    + intros p Hp. rewrite Hother.
      * apply lookup_insert_ne. intros <-. destruct (Hp 0) as [H1 H2].
        rewrite Nat.add_0_r in H1, H2. by destruct Hpath.
      * intros k. replace (S i + k) with (i + S k) by lia. apply Hp.
    + intros [| k] r buffer Hr Hget; simpl in Hr.
      * injection Hr as <-. destruct (Hb _ Hget) as (-> & -> & _).
        rewrite Nat.add_0_r, Hother; [apply lookup_insert_eq |].
        intros k. split.
        -- intros H. apply resultPath_inj in H. lia.
        -- apply resultPath_fallbackPath.
      * replace (i + S k) with (S i + k) by lia. by apply (Hfiles k r).
Qed.

Lemma saveGeneratedImage_extra w buffer kind requestId owner files p :
  p ≠ extraPath w kind requestId owner →
  (Server.saveGeneratedImage w buffer (kind +:+ requestId +:+ ".jpg") owner files).2 !! p =
  files !! p.
Proof. intros Hne. unfold Server.saveGeneratedImage. simpl. by rewrite lookup_insert_ne. Qed.

(** The block of the extra images writes files of the output directory
    only, under the three names of the extras, and stores their
    references. *)
Lemma addExtras_disk w requestId job slots files :
  grows files (Server.addExtras w requestId job slots files).2 ∧
  (served w slots files →
   served w (Server.addExtras w requestId job slots files).1
          (Server.addExtras w requestId job slots files).2) ∧
  (∀ p, (∀ kind, kind ∈ ["enhanced-"; "product-back-"; "model-back-"] →
                 p ≠ extraPath w kind requestId (userId job)) →
        (Server.addExtras w requestId job slots files).2 !! p = files !! p).
Proof.
  unfold Server.addExtras.
  destruct (Server.createProfessionalEnhancedProduct w (garments job)) as [b1 | m1];
    [| split; [apply grows_refl | by split]].
  rewrite (surjective_pairing (Server.saveGeneratedImage w b1 _ (userId job) files)).
  set (save1 := Server.saveGeneratedImage w b1 ("enhanced-" +:+ requestId +:+ ".jpg")
                  (userId job) files).
  assert (grows files save1.2) as G1 by apply grows_insert.
  assert (served w slots files → served w (<["enhancedProduct" := save1.1]> slots) save1.2)
    as S1 by apply served_save.
  assert (∀ p, (∀ kind, kind ∈ ["enhanced-"; "product-back-"; "model-back-"] →
                        p ≠ extraPath w kind requestId (userId job)) →
               save1.2 !! p = files !! p) as O1.
  { intros p Hp. apply saveGeneratedImage_extra, Hp. apply list_elem_of_here. }
  destruct (Server.createProfessionalProductBack w (garments job)) as [b2 | m2];
    [| exact (conj G1 (conj S1 O1))].
  rewrite (surjective_pairing (Server.saveGeneratedImage w b2 _ (userId job) save1.2)).
  set (save2 := Server.saveGeneratedImage w b2 ("product-back-" +:+ requestId +:+ ".jpg")
                  (userId job) save1.2).
  set (slots2 := <["productBack" := save2.1]> (<["enhancedProduct" := save1.1]> slots)).
  assert (grows files save2.2) as G2.
  { eapply grows_trans; [exact G1 | apply grows_insert]. }
  assert (served w slots files → served w slots2 save2.2) as S2.
  { intros H. apply served_save. by apply S1. }
  assert (∀ p, (∀ kind, kind ∈ ["enhanced-"; "product-back-"; "model-back-"] →
                        p ≠ extraPath w kind requestId (userId job)) →
               save2.2 !! p = files !! p) as O2.
  { intros p Hp. unfold save2. rewrite saveGeneratedImage_extra; [by apply O1 |].
    apply Hp. apply list_elem_of_further, list_elem_of_here. }
  set (slots3 := match Server.slot slots2 "tryonResult1" with
                 | Some first => <["modelFront" := first]> slots2
                 | None => slots2
                 end).
  assert (served w slots files → served w slots3 save2.2) as S3.
  { intros H. unfold slots3.
    destruct (Server.slot slots2 "tryonResult1") as [first |] eqn:E; [| by apply S2].
    eapply served_alias; [by apply S2 | exact E]. }
  destruct (Server.slot slots3 "tryonResult2") as [second |] eqn:E2.
  { cbn [fst snd]. split; [done |]. split; [| done].
    intros H. eapply served_alias; [by apply S3 | exact E2]. }
  destruct (Server.slot slots3 "tryonResult1") as [first |];
    [| exact (conj G2 (conj S3 O2))].
  destruct (Server.createModelBackView w first (userId job)) as [b3 | m3];
    [| exact (conj G2 (conj S3 O2))].
  rewrite (surjective_pairing (Server.saveGeneratedImage w b3 _ (userId job) save2.2)).
  cbn [fst snd]. refine (conj _ (conj _ _)).
  - eapply grows_trans; [exact G2 | apply grows_insert].
  - intros H.
    apply (served_save w slots3 save2.2 "modelBack" b3
             ("model-back-" +:+ requestId +:+ ".jpg") (userId job)). by apply S3.
  - intros p Hp.
    rewrite (saveGeneratedImage_extra w b3 "model-back-" requestId (userId job) save2.2 p).
    + by apply O2.
    + apply Hp. do 2 apply list_elem_of_further. apply list_elem_of_here.
Qed.

Lemma materializeAll_grows w requestId job records : ∀ i slots files,
  grows files (Server.materializeAll w requestId job i records slots files).2.
Proof.
  induction records as [| record rest IH]; intros i slots files; simpl.
  - apply grows_refl.
  - destruct (Server.materialize w requestId job i record slots files)
      as [[slots1 files1] | m] eqn:E; [| apply grows_refl].
    destruct (materialize_disk _ _ _ _ _ _ _ _ _ E) as (path & content & -> & _).
    eapply grows_trans; [apply grows_insert | apply IH].
Qed.

Lemma materializeAll_returned_in w requestId job records : ∀ i slots files,
  (∀ record, record ∈ records → returned (Server.active_getImageBuffer w record)) →
  (Server.materializeAll w requestId job i records slots files).1 =
  Returns (filled requestId (userId job) i (length records) slots).
Proof.
  induction records as [| record rest IH]; intros i slots files Hget; [done |].
  simpl. destruct (Hget record (list_elem_of_here _ _)) as [buffer H].
  rewrite (materialize_returned _ _ _ _ _ _ _ _ H). apply IH.
  intros r Hr. apply Hget. by apply list_elem_of_further.
Qed.

Lemma removable_uploads job p : removable job p → p ∈ uploads job.
Proof.
  unfold uploads. intros [[_ ->] | (g & Hin & <- & _)].
  - apply list_elem_of_here.
  - apply list_elem_of_further. by apply list_elem_of_fmap_2.
Qed.

Lemma outputs_not_removable w job rest :
  outsideOutputs w job → ¬ removable job (dirname w +:+ "/outputs/" +:+ rest).
Proof.
  intros Houtside Hremovable. apply removable_uploads, Houtside in Hremovable.
  by rewrite <- append_assoc, prefix_append in Hremovable.
Qed.

(** The two ways a task leaves the disk: a task that fails has only added
    files; a task that completes has added files, all its references being
    served, and then cleaned up. *)
Lemma resume_disk w finish requestId options job files :
  (∃ final,
     last (Server.resume w finish requestId options job files).1 = Some final ∧
     status final = failed ∧
     grows files (Server.resume w finish requestId options job files).2) ∨
  (∃ done slots written,
     last (Server.resume w finish requestId options job files).1 = Some done ∧
     status done = completed ∧ results done = Some slots ∧
     modelImage done = modelImage job ∧ garments done = garments job ∧
     isDefaultModel done = isDefaultModel job ∧
     grows files written ∧ served w slots written ∧
     (Server.resume w finish requestId options job files).2 = Server.cleanup done written).
Proof.
  unfold Server.resume.
  destruct (Server.active_virtualTryOn w files (modelImage job) (garments job)
              (Server.serviceOptions w options)) as [records | m].
  - set (job80 := Server.advance 80 "Processing results..." job).
    pose proof (materializeAll_grows w requestId job80 records 0 ∅ files) as Hgrows.
    destruct (Server.materializeAll w requestId job80 0 records ∅ files)
      as [[slots | m] files1] eqn:E.
    + right.
      destruct (materializeAll_disk _ _ _ _ _ _ _ _ _ E) as (_ & Hserved & _).
      specialize (Hserved (served_empty w files)).
      simpl in Hgrows. case_bool_decide as Hsize.
      * eexists _, slots, files1. do 6 (split; [reflexivity |]).
        split; [exact Hgrows |]. split; [exact Hserved | reflexivity].
      * destruct (addExtras_disk w requestId job80 slots files1) as (Hg & Hs & _).
        destruct (Server.addExtras w requestId job80 slots files1) as [slots' files2].
        eexists _, slots', files2. do 6 (split; [reflexivity |]).
        split; [eapply grows_trans; [exact Hgrows | exact Hg] |].
        split; [by apply Hs | reflexivity].
    + left. eexists. split; [reflexivity |]. split; [done | exact Hgrows].
  - left. eexists. split; [reflexivity |]. split; [done | apply grows_refl].
Qed.

Lemma processVellaTryOn_disk w finish requestId options st job :
  generationJobs st !! requestId = Some job →
  disk (Server.processVellaTryOn w finish requestId options st) =
  (Server.resume w finish requestId options (Server.running (Server.preparing job))
                 (disk st)).2 ∧
  generationJobs (Server.processVellaTryOn w finish requestId options st) !! requestId =
  last (Server.resume w finish requestId options (Server.running (Server.preparing job))
                      (disk st)).1.
Proof.
  intros Hjob. split.
  - unfold Server.processVellaTryOn, Server.pipeline. rewrite Hjob.
    by destruct (Server.resume w finish requestId options _ (disk st)).
  - rewrite (processVellaTryOn_registry _ _ _ _ _ _ Hjob), (pipeline_writes _ _ _ _ _ _ Hjob).
    destruct (resume_cases w finish requestId options
                (Server.running (Server.preparing job)) (disk st))
      as [(m & _ & ->) | [(records & m & _ & _ & ->) | (records & slots & _ & _ & ->)]];
      reflexivity.
Qed.

(** X5.  What a task does to the files that were on the disk.  It never
    removes a file other than the job's own transient uploads; a job that
    ends [failed] has had nothing removed at all; a job that ends
    [completed] has had its model image removed, unless it is marked as
    using a default model, and every garment image whose path does not
    mention [defaults]; and for a job marked as [/api/generate] marks it, no
    file whose path mentions [defaults] is removed. *)
Theorem task_disk_effects (w : World) (finish : Z) (requestId : string)
    (options : Server.TaskOptions) (st : State) (job : Job) :
  generationJobs st !! requestId = Some job →
  (∀ p, is_Some (disk st !! p) → ¬ removable job p →
        is_Some (disk (Server.processVellaTryOn w finish requestId options st) !! p)) ∧
  (∀ final,
     generationJobs (Server.processVellaTryOn w finish requestId options st) !! requestId =
       Some final →
     status final = failed →
     grows (disk st) (disk (Server.processVellaTryOn w finish requestId options st))) ∧
  (∀ final p,
     generationJobs (Server.processVellaTryOn w finish requestId options st) !! requestId =
       Some final →
     status final = completed → removable job p →
     disk (Server.processVellaTryOn w finish requestId options st) !! p = None) ∧
  (isDefaultModel job = includes (modelImage job) "defaults" →
   ∀ p, includes p "defaults" = true → is_Some (disk st !! p) →
        is_Some (disk (Server.processVellaTryOn w finish requestId options st) !! p)).
Proof.
  intros Hjob.
  destruct (processVellaTryOn_disk w finish requestId options st job Hjob) as [-> ->].
  set (job40 := Server.running (Server.preparing job)).
  assert (∀ done p, modelImage done = modelImage job → garments done = garments job →
                    isDefaultModel done = isDefaultModel job →
                    (removable done p ↔ removable job p)) as Hsame.
  { intros done p Hm Hg Hd. unfold removable. by rewrite Hm, Hg, Hd. }
  assert (∀ p, is_Some (disk st !! p) → ¬ removable job p →
               is_Some ((Server.resume w finish requestId options job40 (disk st)).2 !! p))
    as Hkept.
  { intros p Hp Hkeep.
    destruct (resume_disk w finish requestId options job40 (disk st))
      as [(final & _ & _ & Hgrows) |
          (done & slots & written & _ & _ & _ & Hm & Hg & Hd & Hgrows & _ & ->)].
    - by apply Hgrows.
    - rewrite cleanup_kept; [by apply Hgrows |].
      intros Hr. apply Hkeep. by apply (Hsame done p Hm Hg Hd). }
  refine (conj Hkept (conj _ (conj _ _))).
  - intros final Hfinal Hstatus.
    destruct (resume_disk w finish requestId options job40 (disk st))
      as [(final' & _ & _ & Hgrows) | (done & slots & written & Hlast & Hdone & _)].
    + done.
    + rewrite Hlast in Hfinal. injection Hfinal as <-. by rewrite Hdone in Hstatus.
  - intros final p Hfinal Hstatus Hremovable.
    destruct (resume_disk w finish requestId options job40 (disk st))
      as [(final' & Hlast & Hfailed & _) |
          (done & slots & written & _ & _ & _ & Hm & Hg & Hd & _ & _ & ->)].
    + rewrite Hlast in Hfinal. injection Hfinal as <-. by rewrite Hfailed in Hstatus.
    + apply cleanup_removed. by apply (Hsame done p Hm Hg Hd).
  - intros Hflag p Hp Hon. apply Hkept; [done |].
    intros [[Hmodel ->] | (g & _ & _ & Hd)]; congruence.
Qed.

(** An uploaded model image and a default garment: the job completes, the
    upload is gone and the default image is still there. *)
Lemma task_disk_effects_witness :
  disk (Server.processVellaTryOn healthyWorld 1700000000500 "1700000000000" sampleOptions
          (mkState
             (<["1700000000000" :=
                  Server.newJob 1700000000000 "uploads/modelImage-1-2.png" sampleGarments
                                "alice"]> ∅)
             (<["uploads/modelImage-1-2.png" := [x89; x50]]> sampleDisk)))
    !! "uploads/modelImage-1-2.png" = None ∧
  is_Some
    (disk (Server.processVellaTryOn healthyWorld 1700000000500 "1700000000000" sampleOptions
             (mkState
                (<["1700000000000" :=
                     Server.newJob 1700000000000 "uploads/modelImage-1-2.png" sampleGarments
                                   "alice"]> ∅)
                (<["uploads/modelImage-1-2.png" := [x89; x50]]> sampleDisk)))
       !! "/srv/app/defaults/top2.png").
Proof.
  pose proof (task_disk_effects healthyWorld 1700000000500 "1700000000000" sampleOptions
                (mkState
                   (<["1700000000000" :=
                        Server.newJob 1700000000000 "uploads/modelImage-1-2.png"
                                      sampleGarments "alice"]> ∅)
                   (<["uploads/modelImage-1-2.png" := [x89; x50]]> sampleDisk))
                (Server.newJob 1700000000000 "uploads/modelImage-1-2.png" sampleGarments
                               "alice")
                eq_refl) as (_ & _ & Hremoved & Hdefaults).
  split.
  - eapply Hremoved.
    + vm_compute. reflexivity.
    + reflexivity.
    + left. split; reflexivity.
  - apply Hdefaults; [reflexivity | reflexivity | by eexists].
Defined.

(** X6.  No reference of a completed job dangles.  For a job none of
    whose images lies under the output directory, every reference in the
    result mapping of the completed job, whatever its slot (a result, an
    extra image, [modelFront] or [modelBack]), starts with [/outputs/] and
    names a file that is on the disk once the task has ended, clean-up
    included. *)
Theorem completed_results_served (w : World) (finish : Z) (requestId : string)
    (options : Server.TaskOptions) (st : State) (job final : Job)
    (slots : gmap string string) :
  generationJobs st !! requestId = Some job →
  outsideOutputs w job →
  generationJobs (Server.processVellaTryOn w finish requestId options st) !! requestId =
    Some final →
  status final = completed →
  results final = Some slots →
  ∀ key reference, slots !! key = Some reference →
    (∃ rest, reference = "/outputs/" +:+ rest) ∧
    is_Some (disk (Server.processVellaTryOn w finish requestId options st)
               !! (dirname w +:+ reference)).
Proof.
  intros Hjob Houtside Hfinal Hstatus Hresults key reference Hkey.
  destruct (processVellaTryOn_disk w finish requestId options st job Hjob) as [Hdisk Hlast].
  rewrite Hlast in Hfinal. rewrite Hdisk.
  destruct (resume_disk w finish requestId options (Server.running (Server.preparing job))
              (disk st))
    as [(final' & Hlast' & Hfailed & _) |
        (done & slots' & written & Hlast' & _ & Hslots & Hm & Hg & Hd & _ & Hserved & ->)];
    rewrite Hlast' in Hfinal; injection Hfinal as <-.
  - by rewrite Hfailed in Hstatus.
  - rewrite Hslots in Hresults. injection Hresults as <-.
    destruct (Hserved key reference Hkey) as [[rest ->] Hfile].
    split; [by exists rest |]. rewrite cleanup_kept; [done |].
    intros Hremovable.
    apply (outputs_not_removable w job rest Houtside).
    unfold removable in *. simpl in Hm, Hg, Hd. by rewrite <- Hm, <- Hg, <- Hd.
Qed.

Lemma outsideOutputs_sample : outsideOutputs healthyWorld (sampleJob "alice").
Proof.
  intros path Hin. unfold uploads in Hin. simpl in Hin.
  repeat (apply elem_of_cons in Hin as [-> | Hin]; [reflexivity |]).
  by apply elem_of_nil in Hin.
Qed.

(** The back view of the sample job. *)
Lemma completed_results_served_witness :
  (∃ rest, "/outputs/alice/model-back-1700000000000.jpg" = "/outputs/" +:+ rest) ∧
  is_Some
    (disk (Server.processVellaTryOn healthyWorld 1700000000500 "1700000000000" sampleOptions
             (registered (sampleJob "alice")))
       !! (dirname healthyWorld +:+ "/outputs/alice/model-back-1700000000000.jpg")).
Proof.
  refine (completed_results_served healthyWorld 1700000000500 "1700000000000" sampleOptions
            (registered (sampleJob "alice")) (sampleJob "alice") sampleFinal sampleSlots
            eq_refl outsideOutputs_sample _ _ _
            "modelBack" "/outputs/alice/model-back-1700000000000.jpg" _).
  - vm_compute. reflexivity.
  - reflexivity.
  - reflexivity.
  - vm_compute. reflexivity.
Defined.

(** ** The bytes of a result *)

(** A task whose service call returns records for all of which
    [getImageBuffer] returns: the job is completed, and the file of each
    result holds the bytes returned for its record. *)
Lemma pipeline_files w finish requestId options st job records :
  generationJobs st !! requestId = Some job →
  outsideOutputs w job →
  Server.active_virtualTryOn w (disk st) (modelImage job) (garments job)
                             (Server.serviceOptions w options) = Returns records →
  (∀ record, record ∈ records → returned (Server.active_getImageBuffer w record)) →
  ∃ done slots,
    generationJobs (Server.processVellaTryOn w finish requestId options st) !! requestId =
      Some done ∧
    status done = completed ∧ results done = Some slots ∧
    (∀ k, length records ≤ k → slots !! Server.slotName k = None) ∧
    ∀ k record buffer,
      records !! k = Some record →
      Server.active_getImageBuffer w record = Returns buffer →
      slots !! Server.slotName k = Some (resultReference requestId (userId job) k) ∧
      disk (Server.processVellaTryOn w finish requestId options st)
        !! (dirname w +:+ resultReference requestId (userId job) k) = Some buffer.
Proof.
  intros Hjob Houtside Hcall Hget.
  destruct (processVellaTryOn_disk w finish requestId options st job Hjob) as [-> ->].
  unfold Server.resume. simpl modelImage. simpl garments. rewrite Hcall.
  set (job80 := Server.advance 80 "Processing results..."
                  (Server.running (Server.preparing job))).
  pose proof (materializeAll_returned_in w requestId job80 records 0 ∅ (disk st) Hget)
    as Hslots.
  destruct (Server.materializeAll w requestId job80 0 records ∅ (disk st))
    as [result files1] eqn:E.
  simpl in Hslots. subst result.
  destruct (materializeAll_disk _ _ _ _ _ _ _ _ _ E) as (_ & _ & _ & Hfiles).
  set (slots := filled requestId (userId job80) 0 (length records) ∅) in *.
  assert (∀ k, length records ≤ k → slots !! Server.slotName k = None) as Hbeyond.
  { intros k Hk. unfold slots. rewrite filled_lookup_other; [apply lookup_empty |].
    intros k' Hk' H. apply slotName_inj in H. lia. }
  assert (∀ k record, records !! k = Some record →
            slots !! Server.slotName k = Some (resultReference requestId (userId job) k))
    as Hfilled.
  { intros k record Hk. apply lookup_lt_Some in Hk.
    apply (filled_lookup requestId (userId job) (length records) 0 ∅ k). lia. }
  assert (∀ done files2 k record buffer,
            modelImage done = modelImage job → garments done = garments job →
            isDefaultModel done = isDefaultModel job →
            (∀ p, (∀ kind, kind ∈ ["enhanced-"; "product-back-"; "model-back-"] →
                           p ≠ extraPath w kind requestId (userId job)) →
                  files2 !! p = files1 !! p) →
            records !! k = Some record →
            Server.active_getImageBuffer w record = Returns buffer →
            Server.cleanup done files2
              !! (dirname w +:+ resultReference requestId (userId job) k) = Some buffer)
    as Hkept.
  { intros done files2 k record buffer Hm Hg Hd Hother Hk Hbuffer.
    rewrite cleanup_kept.
    - change (dirname w +:+ resultReference requestId (userId job) k)
        with (resultPath w requestId (userId job) k).
      rewrite Hother; [apply (Hfiles k record buffer Hk Hbuffer) |].
      intros kind Hkind. by apply resultPath_extraPath.
    - intros Hremovable.
      apply (outputs_not_removable w job
               (userId job +:+ "/" +:+ "vella-result-" +:+ requestId +:+ "-" +:+ pretty k
                +:+ ".png") Houtside).
      unfold removable in *. by rewrite <- Hm, <- Hg, <- Hd. }
  case_bool_decide as Hsize.
  - eexists _, slots. split; [reflexivity |]. split; [done |]. split; [reflexivity |].
    split; [exact Hbeyond |].
    intros k record buffer Hk Hbuffer. split; [by apply (Hfilled k record) |].
    by apply (Hkept _ files1 k record buffer).
  - match goal with
    | |- context [Server.addExtras ?a ?b ?c ?d ?e] =>
        destruct (addExtras_disk a b c d e) as (_ & _ & Hother);
        pose proof (addExtras_keeps a b c d e) as Hkeeps;
        destruct (Server.addExtras a b c d e) as [slots' files2]
    end.
    simpl in Hother, Hkeeps.
    eexists _, slots'. split; [reflexivity |]. split; [done |]. split; [reflexivity |].
    split; [intros k Hk; rewrite Hkeeps; by apply Hbeyond |].
    intros k record buffer Hk Hbuffer. split.
    + rewrite Hkeeps. by apply (Hfilled k record).
    + by apply (Hkept _ files2 k record buffer).
Qed.

Lemma active_getImageBuffer_inline w record bytes :
  imageBuffer record = Some bytes → Server.active_getImageBuffer w record = Returns bytes.
Proof.
  intros H. unfold Server.active_getImageBuffer, Server.getImageBuffer,
              Server.mock_getImageBuffer.
  rewrite H. by destruct (Server.activeAIService w).
Qed.

(** X7.  The bytes of a result reach the disk unchanged.  For a job none
    of whose images lies under the output directory, when the service call
    returns records for each of which [getImageBuffer] returns, the job is
    completed, the [k]-th record is served under slot [tryonResult(k+1)] by
    the reference [/outputs/<owner>/vella-result-<id>-<k>.png], there is no
    result slot beyond the records, and the file of that reference holds
    exactly the bytes [getImageBuffer] returned: for a record with inline
    bytes (a stream of the model, an image of the mock service) those
    bytes, whatever the record's own [index]. *)
Theorem result_files_hold_bytes (w : World) (finish : Z) (requestId : string)
    (options : Server.TaskOptions) (st : State) (job : Job) (records : list ResultRecord) :
  generationJobs st !! requestId = Some job →
  outsideOutputs w job →
  Server.active_virtualTryOn w (disk st) (modelImage job) (garments job)
                             (Server.serviceOptions w options) = Returns records →
  (∀ record, record ∈ records → returned (Server.active_getImageBuffer w record)) →
  ∃ done slots,
    generationJobs (Server.processVellaTryOn w finish requestId options st) !! requestId =
      Some done ∧
    status done = completed ∧ results done = Some slots ∧
    (∀ k, length records ≤ k → slots !! Server.slotName k = None) ∧
    (∀ k record buffer,
       records !! k = Some record →
       Server.active_getImageBuffer w record = Returns buffer →
       slots !! Server.slotName k = Some (resultReference requestId (userId job) k) ∧
       disk (Server.processVellaTryOn w finish requestId options st)
         !! (dirname w +:+ resultReference requestId (userId job) k) = Some buffer) ∧
    (∀ k record bytes,
       records !! k = Some record → imageBuffer record = Some bytes →
       disk (Server.processVellaTryOn w finish requestId options st)
         !! (dirname w +:+ resultReference requestId (userId job) k) = Some bytes).
Proof.
  intros Hjob Houtside Hcall Hget.
  destruct (pipeline_files w finish requestId options st job records Hjob Houtside Hcall Hget)
    as (done & slots & Hdone & Hstatus & Hresults & Hbeyond & Hfiles).
  exists done, slots. do 4 (split; [done |]). split; [exact Hfiles |].
  intros k record bytes Hk Hbytes.
  by apply (Hfiles k record bytes Hk), active_getImageBuffer_inline.
Qed.

(** A result that arrived as a stream. *)
Lemma result_files_hold_bytes_witness :
  disk (Server.processVellaTryOn (sampleWorld oneStream online healthyCanvas) 1700000000500
          "1700000000000" sampleOptions (registered (sampleJob "alice")))
    !! "/srv/app/outputs/alice/vella-result-1700000000000-0.png" =
  Some [x89; x50; x4e; x47].
Proof.
  destruct (result_files_hold_bytes (sampleWorld oneStream online healthyCanvas)
              1700000000500 "1700000000000" sampleOptions (registered (sampleJob "alice"))
              (sampleJob "alice") [stream_record [x89; x50; x4e; x47] 0]
              eq_refl outsideOutputs_sample eq_refl)
    as (done & slots & _ & _ & _ & _ & _ & Hinline).
  - intros record Hin. apply list_elem_of_singleton in Hin as ->. by eexists.
  - exact (Hinline 0 (stream_record [x89; x50; x4e; x47] 0) [x89; x50; x4e; x47]
             eq_refl eq_refl).
Defined.

(** ** The mock service *)

(** The record the mock service makes of its [i]-th image. *)
Lemma mockLoop_records w modelImagePath garments : ∀ indices mockResults,
  (∀ i, returned (canvas w (ProfessionalMockImage modelImagePath garments i) image_jpeg)) →
  ∃ records,
    Server.mockLoop w modelImagePath garments indices mockResults =
      Returns (mockResults ++ records) ∧
    length records = length indices ∧
    ∀ k i, indices !! k = Some i →
      ∃ body,
        canvas w (ProfessionalMockImage modelImagePath garments (Z.of_nat i)) image_jpeg =
          Returns body ∧
        records !! k =
          Some (mkRecord (Some (signature image_jpeg ++ body))
                         (UrlText ("mock://tryon-result-" +:+ pretty i)) i
                         "tryon_result" "image/jpeg" false true).
Proof.
  intros indices mockResults Hdrawn. revert mockResults.
  induction indices as [| i rest IH]; intros mockResults; simpl.
  - exists []. rewrite app_nil_r. split; [done |]. split; [done |].
    intros k i H. by rewrite lookup_nil in H.
  - unfold Server.createProfessionalMockImage, toBuffer.
    destruct (Hdrawn (Z.of_nat i)) as [body Hbody]. rewrite Hbody.
    destruct (IH (mockResults ++
                  [mkRecord (Some (signature image_jpeg ++ body))
                            (UrlText ("mock://tryon-result-" +:+ pretty i)) i
                            "tryon_result" "image/jpeg" false true]))
      as (records & Heq & Hlen & Hrecords).
    simpl in Heq. simpl. rewrite Heq.
    exists (mkRecord (Some (signature image_jpeg ++ body))
                     (UrlText ("mock://tryon-result-" +:+ pretty i)) i
                     "tryon_result" "image/jpeg" false true :: records).
    rewrite <- app_assoc. split; [reflexivity |].
    split; [simpl; by rewrite Hlen |].
    intros [| k] j Hk; simpl in Hk.
    + injection Hk as <-. by exists body.
    + by apply Hrecords.
Qed.

Lemma mock_virtualTryOn_returns w modelImagePath garments options :
  (∀ i, returned (canvas w (ProfessionalMockImage modelImagePath garments i) image_jpeg)) →
  ∃ records,
    Server.mock_virtualTryOn w modelImagePath garments options = Returns records ∧
    length records = requested options ∧
    ∀ k, k < requested options →
      ∃ body,
        canvas w (ProfessionalMockImage modelImagePath garments (Z.of_nat k)) image_jpeg =
          Returns body ∧
        records !! k =
          Some (mkRecord (Some (signature image_jpeg ++ body))
                         (UrlText ("mock://tryon-result-" +:+ pretty k)) k
                         "tryon_result" "image/jpeg" false true).
Proof.
  intros Hdrawn. unfold Server.mock_virtualTryOn. fold (requested options).
  destruct (mockLoop_records w modelImagePath garments (seq 0 (requested options)) [] Hdrawn)
    as (records & -> & Hlen & Hrecords).
  exists records. split; [done |]. rewrite length_seq in Hlen. split; [done |].
  intros k Hk. apply Hrecords. by rewrite lookup_seq.
Qed.

(** X8.  The mock service, when the canvas draws its images, returns one
    record for each requested output (one when none is asked for, none for
    a negative count), in order; the [k]-th record carries index [k], the
    URL [mock://tryon-result-k], the mime type [image/jpeg], the mock mark,
    and inline the JPEG encoding of the image drawn for [k], which is what
    its [getImageBuffer] returns without drawing again. *)
Theorem mock_virtualTryOn_records (w : World) (modelImagePath : string)
    (garments : list Garment) (options : Options) :
  (∀ i, returned (canvas w (ProfessionalMockImage modelImagePath garments i) image_jpeg)) →
  ∃ records,
    Server.mock_virtualTryOn w modelImagePath garments options = Returns records ∧
    length records = requested options ∧
    ∀ k, k < requested options →
      ∃ body record,
        canvas w (ProfessionalMockImage modelImagePath garments (Z.of_nat k)) image_jpeg =
          Returns body ∧
        records !! k = Some record ∧
        record = mkRecord (Some (signature image_jpeg ++ body))
                          (UrlText ("mock://tryon-result-" +:+ pretty k)) k
                          "tryon_result" "image/jpeg" false true ∧
        Server.mock_getImageBuffer w record = Returns (signature image_jpeg ++ body).
Proof.
  intros Hdrawn.
  destruct (mock_virtualTryOn_returns w modelImagePath garments options Hdrawn)
    as (records & Hcall & Hlen & Hrecords).
  exists records. split; [done |]. split; [done |].
  intros k Hk. destruct (Hrecords k Hk) as (body & Hbody & Hk').
  by eexists body, _.
Qed.

(** Two outputs asked of the mock service. *)
Lemma mock_virtualTryOn_records_witness :
  ∃ records,
    Server.mock_virtualTryOn healthyWorld "/srv/app/defaults/model1.png" sampleGarments
                             (mkOptions 2 None) = Returns records ∧
    length records = 2 ∧
    ∀ k, k < 2 →
      ∃ body record,
        healthyCanvas (ProfessionalMockImage "/srv/app/defaults/model1.png" sampleGarments
                                             (Z.of_nat k)) image_jpeg = Returns body ∧
        records !! k = Some record ∧
        record = mkRecord (Some (signature image_jpeg ++ body))
                          (UrlText ("mock://tryon-result-" +:+ pretty k)) k
                          "tryon_result" "image/jpeg" false true ∧
        Server.mock_getImageBuffer healthyWorld record =
          Returns (signature image_jpeg ++ body).
Proof.
  apply (mock_virtualTryOn_records healthyWorld "/srv/app/defaults/model1.png"
           sampleGarments (mkOptions 2 None)).
  intros i. by eexists.
Defined.

(** X9.  A job run by the mock service.  When the mock service is the
    active one and the canvas draws its images, a job none of whose images
    lies under the output directory is completed with exactly one result
    slot for each requested output, and the file served for slot
    [tryonResult(k+1)], named [vella-result-<id>-<k>.png], holds the JPEG
    encoding drawn for [k]. *)
Theorem mock_job_completes (w : World) (finish : Z) (requestId : string)
    (options : Server.TaskOptions) (st : State) (job : Job) :
  Server.activeAIService w = MockAI →
  generationJobs st !! requestId = Some job →
  outsideOutputs w job →
  (∀ i, returned (canvas w (ProfessionalMockImage (modelImage job) (garments job) i)
                         image_jpeg)) →
  ∃ done slots,
    generationJobs (Server.processVellaTryOn w finish requestId options st) !! requestId =
      Some done ∧
    status done = completed ∧ results done = Some slots ∧
    (∀ k, requested (Server.serviceOptions w options) ≤ k →
          slots !! Server.slotName k = None) ∧
    ∀ k, k < requested (Server.serviceOptions w options) →
      slots !! Server.slotName k = Some (resultReference requestId (userId job) k) ∧
      ∃ body,
        canvas w (ProfessionalMockImage (modelImage job) (garments job) (Z.of_nat k))
               image_jpeg = Returns body ∧
        disk (Server.processVellaTryOn w finish requestId options st)
          !! (dirname w +:+ resultReference requestId (userId job) k) =
        Some (signature image_jpeg ++ body).
Proof.
  intros Hactive Hjob Houtside Hdrawn.
  destruct (mock_virtualTryOn_returns w (modelImage job) (garments job)
              (Server.serviceOptions w options) Hdrawn) as (records & Hcall & Hlen & Hrecords).
  assert (Server.active_virtualTryOn w (disk st) (modelImage job) (garments job)
            (Server.serviceOptions w options) = Returns records) as Hactive_call.
  { unfold Server.active_virtualTryOn. by rewrite Hactive. }
  assert (∀ record, record ∈ records → returned (Server.active_getImageBuffer w record))
    as Hget.
  { intros record Hin. apply list_elem_of_lookup in Hin as [k Hk].
    destruct (Hrecords k) as (body & _ & Hk').
    - apply lookup_lt_Some in Hk. lia.
    - rewrite Hk in Hk'. injection Hk' as ->.
      eexists. by apply active_getImageBuffer_inline. }
  destruct (pipeline_files w finish requestId options st job records Hjob Houtside
              Hactive_call Hget)
    as (done & slots & Hdone & Hstatus & Hresults & Hbeyond & Hfiles).
  exists done, slots. do 3 (split; [done |]). split.
  - intros k Hk. apply Hbeyond. lia.
  - intros k Hk. destruct (Hrecords k Hk) as (body & Hbody & Hk').
    destruct (Hfiles k _ (signature image_jpeg ++ body) Hk') as [Hslot Hfile].
    + by apply active_getImageBuffer_inline.
    + split; [done |]. by exists body.
Qed.

(** The sample job with no token configured. *)
Lemma mock_job_completes_witness :
  ∃ done slots,
    generationJobs
      (Server.processVellaTryOn
         (mkWorld "/srv/app" sampleParse sampleParseInt 424242 None true oneUrl offline
                  healthyCanvas)
         1700000000500 "1700000000000" sampleOptions (registered (sampleJob "alice")))
      !! "1700000000000" = Some done ∧
    status done = completed ∧ results done = Some slots ∧
    slots !! "tryonResult1" = Some "/outputs/alice/vella-result-1700000000000-0.png" ∧
    slots !! "tryonResult2" = None ∧
    disk
      (Server.processVellaTryOn
         (mkWorld "/srv/app" sampleParse sampleParseInt 424242 None true oneUrl offline
                  healthyCanvas)
         1700000000500 "1700000000000" sampleOptions (registered (sampleJob "alice")))
      !! "/srv/app/outputs/alice/vella-result-1700000000000-0.png" =
    Some [xff; xd8; xff; x00; x01].
Proof.
  destruct (mock_job_completes
              (mkWorld "/srv/app" sampleParse sampleParseInt 424242 None true oneUrl offline
                       healthyCanvas)
              1700000000500 "1700000000000" sampleOptions (registered (sampleJob "alice"))
              (sampleJob "alice") eq_refl eq_refl outsideOutputs_sample)
    as (done & slots & Hdone & Hstatus & Hresults & Hbeyond & Hfilled).
  - intros i. by eexists.
  - exists done, slots. do 3 (split; [done |]).
    destruct (Hfilled 0) as (Hslot & body & Hbody & Hfile); [vm_compute; lia |].
    split; [exact Hslot |]. split; [apply (Hbeyond 1); vm_compute; lia |].
    injection Hbody as <-. exact Hfile.
Defined.

(** ** Images named by a request *)

Lemma truthy_JStr s : s ≠ EmptyString → truthy (JStr s) = true.
Proof.
  intros Hs. simpl. destruct (String.eqb_spec s EmptyString); [done | done].
Qed.

Lemma default_path_includes w filename :
  includes (dirname w +:+ "/defaults/" +:+ filename) "defaults" = true.
Proof.
  apply includes_further.
  change ("/defaults/" +:+ filename) with ("/" +:+ ("defaults" +:+ ("/" +:+ filename))).
  apply includes_further, includes_here.
Qed.

(** X10.  The path of an image named by a request.  An uploaded file
    always wins: its path is returned whatever the id.  Without an upload,
    a path is returned only for a truthy id, and it is then the path of a
    file that is on the disk, under a name mentioning [defaults] - which is
    why such an image passes [validateImage] unread and is never removed by
    a clean-up; a falsy id throws [Invalid <type> image: ...].  For a
    garment id that is a string naming no inherited member: an id outside
    the table throws [Invalid garment ID: <id>], and an id of the table
    whose file is not on the disk throws [Default image not found:
    <file>]. *)
Theorem getImagePath_outcomes (w : World) (files : Disk) (type : string) (id : Json) :
  (∀ path, Server.getImagePath w files type id (Some path) = Returns path) ∧
  (∀ path, Server.getImagePath w files type id None = Returns path →
     truthy id = true ∧ includes path "defaults" = true ∧ is_Some (files !! path) ∧
     Server.validateImage files path = Returns true) ∧
  (truthy id = false →
     Server.getImagePath w files type id None =
       Throws ("Invalid " +:+ type +:+ " image: " +:+ toString id)) ∧
  (∀ s, id = JStr s → s ≠ EmptyString → s ∉ inheritedMembers →
     Server.getImagePath w files "garment" id None =
       match Server.defaultImages_garments s with
       | None => Throws ("Invalid garment ID: " +:+ s)
       | Some filename =>
           if bool_decide (is_Some (files !! (dirname w +:+ "/defaults/" +:+ filename)))
           then Returns (dirname w +:+ "/defaults/" +:+ filename)
           else Throws ("Default image not found: " +:+ filename)
       end).
Proof.
  refine (conj _ (conj _ (conj _ _))).
  - done.
  - intros path. unfold Server.getImagePath.
    destruct (truthy id); [| discriminate].
    destruct (if String.eqb type "model" then Server.defaultImages_models (toString id)
              else if String.eqb type "garment"
                   then Server.defaultImages_garments (toString id) else None)
      as [filename |]; [| discriminate].
    unfold Server.existsSync. case_bool_decide as Hfile; [| discriminate].
    intros [= <-]. split; [done |]. split; [apply default_path_includes |].
    split; [done |]. unfold Server.validateImage. by rewrite default_path_includes.
  - intros Hid. unfold Server.getImagePath. by rewrite Hid.
  - intros s -> Hs _. unfold Server.getImagePath. rewrite (truthy_JStr s Hs). simpl.
    destruct (Server.defaultImages_garments s) as [filename |]; [| done].
    unfold Server.existsSync. by case_bool_decide.
Qed.

(** ** Requests that name an image that cannot be used *)

Lemma single_garment_path w now req st data s :
  modelReferencePresent req = true →
  body_garmentType req = JStr "single" →
  files_singleGarmentImage req = None →
  Server.parseGarmentData w req = Continue data →
  field data "id" = JStr s → s ≠ EmptyString →
  ∀ m, Server.getImagePath w (disk st) "garment" (JStr s) None = Throws m →
  Server.generate w now req st =
    (st, mkResponse 500 [("error", FString ("Failed to start generation: " +:+ m))], None).
Proof.
  intros Hmodel Htype Hfile Hparse Hid Hs m Hpath.
  unfold Server.generate, Server.validated. rewrite Hparse. cbn -[Server.getImagePath].
  rewrite (hasModel_present req), Hmodel. cbn -[Server.getImagePath].
  unfold Server.collectGarments. rewrite Htype. cbn -[Server.getImagePath].
  unfold Server.singleGarment. rewrite Hfile. cbn -[Server.getImagePath].
  destruct data as [| | b | n | text | items | fields]; try discriminate Hid.
  simpl in Hid. unfold guarded. cbn -[Server.getImagePath].
  rewrite Hid, (truthy_JStr s Hs). cbn -[Server.getImagePath].
  destruct (truthy (assoc "garmentType" fields)); cbn -[Server.getImagePath].
  - by rewrite Hpath.
  - destruct (includes s "bottom"); cbn -[Server.getImagePath]; [by rewrite Hpath |].
    destruct (includes s "dress"); cbn -[Server.getImagePath]; by rewrite Hpath.
Qed.

(** X11.  A request for a single garment given by a default id (no
    uploaded garment file; the id a non-empty string naming no inherited
    member) that cannot be used is answered 500, not 400, and changes
    nothing: when the id is not in the table of default garments the error
    is [Failed to start generation: Invalid garment ID: <id>]; when it is in
    the table but its file is not on the disk the error is [Failed to start
    generation: Default image not found: <file>].  In both cases the state
    is left as it was and no task is launched. *)
Theorem generate_unusable_default (w : World) (now : Z) (req : Request) (st : State)
    (data : Json) (s : string) :
  modelReferencePresent req = true →
  body_garmentType req = JStr "single" →
  files_singleGarmentImage req = None →
  Server.parseGarmentData w req = Continue data →
  field data "id" = JStr s → s ≠ EmptyString → s ∉ inheritedMembers →
  (Server.defaultImages_garments s = None →
   Server.generate w now req st =
     (st,
      mkResponse 500
        [("error", FString ("Failed to start generation: Invalid garment ID: " +:+ s))],
      None)) ∧
  (∀ filename,
     Server.defaultImages_garments s = Some filename →
     disk st !! (dirname w +:+ "/defaults/" +:+ filename) = None →
     Server.generate w now req st =
       (st,
        mkResponse 500
          [("error",
            FString ("Failed to start generation: Default image not found: " +:+ filename))],
        None)).
Proof.
  intros Hmodel Htype Hfile Hparse Hid Hs _. split.
  - intros Hnone.
    apply (single_garment_path w now req st data s Hmodel Htype Hfile Hparse Hid Hs).
    unfold Server.getImagePath. rewrite (truthy_JStr s Hs). simpl. by rewrite Hnone.
  - intros filename Hsome Hmissing.
    apply (single_garment_path w now req st data s Hmodel Htype Hfile Hparse Hid Hs).
    unfold Server.getImagePath. rewrite (truthy_JStr s Hs). simpl. rewrite Hsome.
    unfold Server.existsSync. rewrite Hmissing. by rewrite bool_decide_eq_false_2.
Qed.

(** A garment id that is not in the table, and one whose file is gone. *)
Lemma generate_unusable_default_witness :
  Server.generate healthyWorld 1700000000000 (garmentRequest "alice" "hat") emptyRegistry =
  (emptyRegistry,
   mkResponse 500 [("error", FString "Failed to start generation: Invalid garment ID: hat")],
   None) ∧
  Server.generate healthyWorld 1700000000000 (garmentRequest "alice" "top3") emptyRegistry =
  (emptyRegistry,
   mkResponse 500
     [("error", FString "Failed to start generation: Default image not found: top3.png")],
   None).
Proof.
  assert (∀ s, s ∈ ["hat"; "top3"] → s ∉ inheritedMembers) as Hplain.
  { intros s Hs Hin.
    repeat (apply elem_of_cons in Hs as [-> | Hs];
            [repeat (apply elem_of_cons in Hin as [Hin | Hin]; [discriminate Hin |]);
             by apply elem_of_nil in Hin |]).
    by apply elem_of_nil in Hs. }
  split.
  - refine (proj1 (generate_unusable_default healthyWorld 1700000000000
                     (garmentRequest "alice" "hat") emptyRegistry
                     (JObj [("id", JStr "hat")]) "hat" eq_refl eq_refl eq_refl eq_refl eq_refl
                     _ _) eq_refl).
    + discriminate.
    + apply Hplain, list_elem_of_here.
  - refine (proj2 (generate_unusable_default healthyWorld 1700000000000
                     (garmentRequest "alice" "top3") emptyRegistry
                     (JObj [("id", JStr "top3")]) "top3" eq_refl eq_refl eq_refl eq_refl
                     eq_refl _ _) "top3.png" eq_refl eq_refl).
    + discriminate.
    + apply Hplain, list_elem_of_further, list_elem_of_here.
Defined.

Lemma getImagePath_returned w files type id file path :
  Server.getImagePath w files type id file = Returns path →
  file = Some path ∨
  (file = None ∧ truthy id = true ∧ includes path "defaults" = true ∧
   is_Some (files !! path)).
Proof.
  unfold Server.getImagePath. destruct file as [uploaded |]; [intros [= ->]; by left |].
  destruct (truthy id); [| discriminate].
  destruct (if String.eqb type "model" then Server.defaultImages_models (toString id)
            else if String.eqb type "garment"
                 then Server.defaultImages_garments (toString id) else None)
    as [filename |]; [| discriminate].
  unfold Server.existsSync. case_bool_decide as Hfile; [| discriminate].
  intros [= <-]. right. split; [done |]. split; [done |].
  split; [apply default_path_includes | done].
Qed.

(** A garment's image is an uploaded file of the request or a default
    image that is on the disk. *)
Lemma garment_path_origin w files req id file path :
  file ∈ [files_singleGarmentImage req; files_topGarmentImage req;
          files_bottomGarmentImage req] →
  Server.getImagePath w files "garment" id file = Returns path →
  path ∈ uploadedPaths req ∨ (includes path "defaults" = true ∧ is_Some (files !! path)).
Proof.
  intros Hfile Hpath.
  destruct (getImagePath_returned _ _ _ _ _ _ Hpath) as [-> | (_ & _ & Hd & Hf)];
    [left | by right].
  unfold uploadedPaths. apply list_elem_of_omap. exists (Some path). split; [| done].
  by apply list_elem_of_further.
Qed.

Ltac origins :=
  repeat (apply Forall_cons_2; [cbn [garment_imagePath]; eauto |]); apply Forall_nil_2.

Ltac step_run :=
  match goal with
  | |- context [run ?call] =>
      let E := fresh "E" in
      destruct call eqn:E; cbn -[Server.getImagePath uploadedPaths]; try discriminate
  end.

Lemma singleGarment_shape w files req data garments :
  Server.singleGarment w files req data = Continue garments →
  ∃ garment,
    garments = [garment] ∧
    (garment_imagePath garment ∈ uploadedPaths req ∨
     (includes (garment_imagePath garment) "defaults" = true ∧
      is_Some (files !! garment_imagePath garment))).
Proof.
  unfold Server.singleGarment.
  destruct (negb (Server.uploaded (files_singleGarmentImage req)) &&
            negb (truthy (guarded data "id"))); [discriminate |].
  repeat step_run. intros [= <-]. eexists. split; [reflexivity |].
  cbn [garment_imagePath].
  eapply garment_path_origin; [| eassumption]. apply list_elem_of_here.
Qed.

Lemma multipleGarments_shape w files req data garments :
  Server.multipleGarments w files req data = Continue garments →
  ((∃ garment, garments = [garment]) ∨
   (∃ top bottom,
      garments = [top; bottom] ∧ garment_type top ≠ JStr "dress" ∧
      garment_type bottom = JStr "bottom")) ∧
  Forall (λ garment,
            garment_imagePath garment ∈ uploadedPaths req ∨
            (includes (garment_imagePath garment) "defaults" = true ∧
             is_Some (files !! garment_imagePath garment))) garments.
Proof.
  assert (∀ id path, Server.getImagePath w files "garment" id (files_topGarmentImage req) =
                       Returns path →
          path ∈ uploadedPaths req ∨
          (includes path "defaults" = true ∧ is_Some (files !! path))) as Htop.
  { intros id path. apply garment_path_origin.
    apply list_elem_of_further, list_elem_of_here. }
  assert (∀ id path, Server.getImagePath w files "garment" id (files_bottomGarmentImage req) =
                       Returns path →
          path ∈ uploadedPaths req ∨
          (includes path "defaults" = true ∧ is_Some (files !! path))) as Hbottom.
  { intros id path. apply garment_path_origin.
    do 2 apply list_elem_of_further. apply list_elem_of_here. }
  unfold Server.multipleGarments.
  destruct (Server.uploaded (files_topGarmentImage req) ||
            truthy (guarded (guarded data "top") "id")) eqn:Etop;
    destruct (Server.uploaded (files_bottomGarmentImage req) ||
              truthy (guarded (guarded data "bottom") "id")) eqn:Ebottom;
    cbn -[Server.getImagePath uploadedPaths]; try discriminate;
    repeat step_run;
    try match goal with
        | |- context [strictEqStr ?t "dress"] =>
            destruct (strictEqStr t "dress") eqn:Edress;
            cbn -[Server.getImagePath uploadedPaths]; try discriminate
        end;
    intros [= <-];
    (split;
     [first [ left; by eexists
            | right; eexists _, _; split; [reflexivity |]; split; [| done];
              cbn [garment_type]; intros Hdress; rewrite Hdress in Edress; discriminate ]
     | origins ]).
Qed.

(** X12.  The garments [/api/generate] settles on.  For a request whose
    garment stage passes, there are one or two garments: exactly one for a
    [single] request, and for a [multiple] request either one, or a top that
    is not a dress followed by a garment of type [bottom] - a top whose
    type is [dress] is never paired with a bottom, whatever the request
    holds for the bottom.  The image of every garment is an uploaded file of
    the request or a default image that is on the disk, under a path
    mentioning [defaults]. *)
Theorem collectGarments_shape (w : World) (files : Disk) (req : Request) (data : Json)
    (garments : list Garment) :
  Server.collectGarments w files req data = Continue garments →
  (body_garmentType req = JStr "single" ∨ body_garmentType req = JStr "multiple") ∧
  (body_garmentType req = JStr "single" → ∃ garment, garments = [garment]) ∧
  ((∃ garment, garments = [garment]) ∨
   (∃ top bottom,
      garments = [top; bottom] ∧ garment_type top ≠ JStr "dress" ∧
      garment_type bottom = JStr "bottom")) ∧
  (∀ first rest, garments = first :: rest → garment_type first = JStr "dress" → rest = []) ∧
  Forall (λ garment,
            garment_imagePath garment ∈ uploadedPaths req ∨
            (includes (garment_imagePath garment) "defaults" = true ∧
             is_Some (files !! garment_imagePath garment))) garments.
Proof.
  unfold Server.collectGarments.
  destruct (strictEqStr (body_garmentType req) "single") eqn:Esingle.
  - apply strictEqStr_true in Esingle. intros H.
    destruct (singleGarment_shape _ _ _ _ _ H) as (garment & -> & Hpath).
    split; [by left |]. split; [by eexists |]. split; [left; by eexists |].
    split; [by intros first rest [= <- <-] |]. by apply Forall_singleton.
  - destruct (strictEqStr (body_garmentType req) "multiple") eqn:Emultiple; [| discriminate].
    apply strictEqStr_true in Emultiple. intros H.
    destruct (multipleGarments_shape _ _ _ _ _ H) as [Hshape Hpaths].
    split; [by right |]. split.
    { intros Hs. rewrite Hs in Emultiple. discriminate. }
    split; [exact Hshape |]. split; [| exact Hpaths].
    intros first rest Hg Hdress. subst garments.
    destruct Hshape as [[garment Hg] | (top & bottom & Hg & Hne & _)].
    + by injection Hg as _ ->.
    + injection Hg as -> _. done.
Qed.

(** A dress sent as the top of a request that also names a bottom: the
    bottom is left out. *)
Lemma collectGarments_shape_witness :
  Server.collectGarments healthyWorld
    (<["/srv/app/defaults/dress.png" := [x89; x50]]>
       (<["/srv/app/defaults/bottom1.png" := [x89; x50]]> ∅))
    (mkRequest "alice" None None None None (JStr "default") (JStr "multiple")
               JUndefined JUndefined (JStr "1") JUndefined)
    (JObj [("top", JObj [("id", JStr "dress")]); ("bottom", JObj [("id", JStr "bottom1")])]) =
  Continue [mkGarment (JStr "dress") "/srv/app/defaults/dress.png" (JStr "dress")] ∧
  ((∃ garment,
      [mkGarment (JStr "dress") "/srv/app/defaults/dress.png" (JStr "dress")] = [garment]) ∨
   (∃ top bottom,
      [mkGarment (JStr "dress") "/srv/app/defaults/dress.png" (JStr "dress")] =
        [top; bottom] ∧
      garment_type top ≠ JStr "dress" ∧ garment_type bottom = JStr "bottom")).
Proof.
  split; [vm_compute; reflexivity |].
  refine (proj1 (proj2 (proj2 (collectGarments_shape healthyWorld
           (<["/srv/app/defaults/dress.png" := [x89; x50]]>
              (<["/srv/app/defaults/bottom1.png" := [x89; x50]]> ∅))
           (mkRequest "alice" None None None None (JStr "default") (JStr "multiple")
                      JUndefined JUndefined (JStr "1") JUndefined)
           (JObj [("top", JObj [("id", JStr "dress")]);
                  ("bottom", JObj [("id", JStr "bottom1")])])
           [mkGarment (JStr "dress") "/srv/app/defaults/dress.png" (JStr "dress")] _)))).
  vm_compute. reflexivity.
Defined.

(** ** Uploaded model images *)

Lemma generate_upload_validated w now req st path data garments :
  files_modelImage req = Some path →
  Server.parseGarmentData w req = Continue data →
  Server.collectGarments w (disk st) req data = Continue garments →
  Server.generate w now req st =
    match
      _ ← (if negb (includes path "defaults")
           then Server.validateImage (disk st) path else Returns true);
      Server.validateGarments (disk st) garments
    with
    | Returns _ =>
        let options :=
          {| Server.task_numOutputs :=
               Server.orOne
                 (parseInt w (match body_outputCount req with
                              | JUndefined => JNum 1
                              | given => given
                              end));
             Server.task_seed := body_seed req |} in
        let job40 :=
          Server.running
            (Server.preparing (Server.newJob now path garments (user_userId req))) in
        (Server.store (pretty now) job40 st, Server.accepted (pretty now),
         Some (Server.mkTask (pretty now) options job40))
    | Throws m => (st, Server.bad_request m, None)
    end.
Proof.
  intros Hfile Hparse Hcollect. unfold Server.generate, Server.validated.
  rewrite Hparse, Hfile. cbn -[Server.validateImage Server.collectGarments].
  rewrite Hcollect. cbn -[Server.validateImage].
  by destruct (_ ← (if negb (includes path "defaults")
                    then Server.validateImage (disk st) path else Returns true);
               Server.validateGarments (disk st) garments).
Qed.

Lemma collectGarments_origin w files req data garments :
  Server.collectGarments w files req data = Continue garments →
  Forall (λ garment,
            garment_imagePath garment ∈ uploadedPaths req ∨
            (includes (garment_imagePath garment) "defaults" = true ∧
             is_Some (files !! garment_imagePath garment))) garments.
Proof.
  unfold Server.collectGarments.
  destruct (strictEqStr (body_garmentType req) "single").
  - intros H. destruct (singleGarment_shape _ _ _ _ _ H) as (garment & -> & Hpath).
    by apply Forall_singleton.
  - destruct (strictEqStr (body_garmentType req) "multiple"); [| discriminate].
    intros H. by destruct (multipleGarments_shape _ _ _ _ _ H) as [_ Hpaths].
Qed.

(** The check of a file the upload middleware stored: only the floor can
    refuse it. *)
Lemma validateImage_stored files path content :
  files !! path = Some content →
  (Z.of_nat (length content) < fileSize)%Z →
  Server.validateImage files path =
    if includes path "defaults" then Returns true
    else if (Z.of_nat (length content) <? 1024)%Z then Throws "Image file too small"
    else Returns true.
Proof.
  intros Hfile Hsize. unfold Server.validateImage. rewrite Hfile.
  destruct (includes path "defaults"); [done |].
  destruct (Z.of_nat (length content) <? 1024)%Z; [done |].
  unfold fileSize in Hsize.
  by destruct (Z.gtb_spec (Z.of_nat (length content)) (10 * 1024 * 1024)) as [Hgt | _];
    [lia |].
Qed.

Lemma validateGarments_stored req files garments :
  stored req files →
  Forall (λ garment,
            garment_imagePath garment ∈ uploadedPaths req ∨
            (includes (garment_imagePath garment) "defaults" = true ∧
             is_Some (files !! garment_imagePath garment))) garments →
  Server.validateGarments files garments = Returns true ∨
  Server.validateGarments files garments = Throws "Image file too small".
Proof.
  intros Hstored. induction 1 as [| garment rest Horigin _ IH]; simpl; [by left |].
  destruct (includes (garment_imagePath garment) "defaults") eqn:Hd; simpl; [exact IH |].
  destruct Horigin as [Hupload | [Hdefault _]]; [| congruence].
  destruct (Hstored _ Hupload) as (content & Hfile & Hsize).
  rewrite (validateImage_stored _ _ _ Hfile Hsize), Hd.
  destruct (Z.of_nat (length content) <? 1024)%Z; simpl; [by right | exact IH].
Qed.

(** X13.  The check of an uploaded model image, for a request whose
    uploads the upload middleware has stored (each is on the disk with
    fewer bytes than the limit of 10 MiB) and whose garment stage passes.
    The handler either refuses the request with 400 [Image file too small],
    registering no job, or accepts it with the upload as the model image of
    the job: its answers [Image file too large] and that of a failed read
    are never given.  When the path of the model upload does not mention
    [defaults], a file of fewer than 1024 bytes is refused.  A file of 1024
    bytes or more is accepted when the garments pass too, and so is any file
    whose path mentions [defaults], which is not looked at; the job is
    marked as using a default model exactly when the path mentions
    [defaults]. *)
Theorem generate_checks_upload (w : World) (now : Z) (req : Request) (st : State)
    (path : string) (data : Json) (garments : list Garment) :
  files_modelImage req = Some path →
  stored req (disk st) →
  Server.parseGarmentData w req = Continue data →
  Server.collectGarments w (disk st) req data = Continue garments →
  (Server.generate w now req st = (st, Server.bad_request "Image file too small", None) ∨
   ∃ task,
     Server.generate w now req st =
       (Server.store (pretty now) (Server.task_job task) st,
        Server.accepted (pretty now), Some task) ∧
     modelImage (Server.task_job task) = path ∧
     isDefaultModel (Server.task_job task) = includes path "defaults") ∧
  (∀ content, disk st !! path = Some content →
     includes path "defaults" = false →
     (Z.of_nat (length content) < 1024)%Z →
     Server.generate w now req st =
       (st, Server.bad_request "Image file too small", None)) ∧
  (∀ content, disk st !! path = Some content →
     includes path "defaults" = true ∨ (1024 ≤ Z.of_nat (length content))%Z →
     Server.validateGarments (disk st) garments = Returns true →
     ∃ task,
       Server.generate w now req st =
         (Server.store (pretty now) (Server.task_job task) st,
          Server.accepted (pretty now), Some task) ∧
       modelImage (Server.task_job task) = path ∧
       isDefaultModel (Server.task_job task) = includes path "defaults").
Proof.
  intros Hfile Hstored Hparse Hcollect.
  rewrite (generate_upload_validated w now req st path data garments Hfile Hparse Hcollect).
  assert (path ∈ uploadedPaths req) as Hupload.
  { unfold uploadedPaths. apply list_elem_of_omap. exists (Some path).
    split; [| done]. rewrite Hfile. apply list_elem_of_here. }
  destruct (Hstored _ Hupload) as (stored_content & Hdisk & Hsize).
  pose proof (validateImage_stored _ _ _ Hdisk Hsize) as Hmodel.
  pose proof (validateGarments_stored req (disk st) garments Hstored
                (collectGarments_origin _ _ _ _ _ Hcollect)) as Hgarments.
  assert (∀ accepted_garments : Server.validateGarments (disk st) garments = Returns true,
            ∃ task,
              (Server.store (pretty now)
                 (Server.running
                    (Server.preparing (Server.newJob now path garments (user_userId req))))
                 st,
               Server.accepted (pretty now),
               Some (Server.mkTask (pretty now)
                       {| Server.task_numOutputs :=
                            Server.orOne
                              (parseInt w (match body_outputCount req with
                                           | JUndefined => JNum 1
                                           | given => given
                                           end));
                          Server.task_seed := body_seed req |}
                       (Server.running
                          (Server.preparing
                             (Server.newJob now path garments (user_userId req)))))) =
              (Server.store (pretty now) (Server.task_job task) st,
               Server.accepted (pretty now), Some task) ∧
              modelImage (Server.task_job task) = path ∧
              isDefaultModel (Server.task_job task) = includes path "defaults") as Haccept.
  { intros _. eexists (Server.mkTask _ _ _). by repeat split. }
  refine (conj _ (conj _ _)).
  - destruct (includes path "defaults") eqn:Hd; simpl negb; cbv iota.
    + cbn [mbind Result_bind].
      destruct Hgarments as [Hok | Hsmall]; [rewrite Hok; right; by apply Haccept |].
      rewrite Hsmall. by left.
    + rewrite Hmodel.
      destruct (Z.of_nat (length stored_content) <? 1024)%Z; cbn [mbind Result_bind];
        [by left |].
      destruct Hgarments as [Hok | Hsmall]; [rewrite Hok; right; by apply Haccept |].
      rewrite Hsmall. by left.
  - intros content Hcontent Hd Hsmall. rewrite Hdisk in Hcontent. injection Hcontent as ->.
    rewrite Hd. simpl negb. cbv iota. rewrite Hmodel, Hd.
    apply Z.ltb_lt in Hsmall. by rewrite Hsmall.
  - intros content Hcontent Hsizeable Hok. rewrite Hdisk in Hcontent.
    injection Hcontent as ->.
    destruct (includes path "defaults") eqn:Hd; simpl negb; cbv iota.
    + cbn [mbind Result_bind]. rewrite Hok. by apply Haccept.
    + destruct Hsizeable as [Hdefault | Hfloor]; [discriminate |].
      rewrite Hmodel.
      destruct (Z.ltb_spec (Z.of_nat (length content)) 1024) as [Hlt | _]; [lia |].
      cbn [mbind Result_bind]. rewrite Hok. by apply Haccept.
Qed.

(** An upload of 2048 bytes. *)
Lemma generate_checks_upload_witness :
  ∃ task,
    Server.generate healthyWorld 1700000000000
      (uploadRequest "alice" "uploads/modelImage-1-2.png")
      (mkState ∅ (<["uploads/modelImage-1-2.png" := bytes 2048]> sampleDisk)) =
    (Server.store "1700000000000" (Server.task_job task)
       (mkState ∅ (<["uploads/modelImage-1-2.png" := bytes 2048]> sampleDisk)),
     Server.accepted "1700000000000", Some task) ∧
    modelImage (Server.task_job task) = "uploads/modelImage-1-2.png" ∧
    isDefaultModel (Server.task_job task) = false.
Proof.
  assert (stored (uploadRequest "alice" "uploads/modelImage-1-2.png")
                 (<["uploads/modelImage-1-2.png" := bytes 2048]> sampleDisk)) as Hstored.
  { intros path Hpath. apply list_elem_of_singleton in Hpath as ->.
    exists (bytes 2048). split; [reflexivity |].
    unfold bytes, fileSize. rewrite length_replicate. lia. }
  refine (proj2 (proj2 (generate_checks_upload healthyWorld 1700000000000
            (uploadRequest "alice" "uploads/modelImage-1-2.png")
            (mkState ∅ (<["uploads/modelImage-1-2.png" := bytes 2048]> sampleDisk))
            "uploads/modelImage-1-2.png" (JObj [("id", JStr "top2")]) sampleGarments
            eq_refl Hstored eq_refl _)) (bytes 2048) eq_refl _ _).
  - vm_compute. reflexivity.
  - right. unfold bytes. rewrite length_replicate. lia.
  - vm_compute. reflexivity.
Defined.

(** ** The dashboard *)

Lemma insertSorted_perm {A : Type} (compareFn : A → A → Z) x l :
  insertSorted compareFn x l ≡ₚ x :: l.
Proof.
  induction l as [| y rest IH]; simpl; [done |].
  destruct (compareFn x y <=? 0)%Z; [done |].
  rewrite IH. apply Permutation_swap.
Qed.

Lemma sort_perm {A : Type} (compareFn : A → A → Z) l : sort compareFn l ≡ₚ l.
Proof.
  induction l as [| x rest IH]; simpl; [done |].
  rewrite insertSorted_perm. by rewrite IH.
Qed.

Lemma insertSorted_newerFirst x l :
  StronglySorted newerFirst l →
  StronglySorted newerFirst
    (insertSorted (λ a b, summary_startTime b - summary_startTime a)%Z x l).
Proof.
  induction 1 as [| y rest Hsorted IH Hall]; simpl; [repeat constructor |].
  destruct (Z.leb_spec (summary_startTime y - summary_startTime x) 0) as [Hle | Hgt].
  - constructor; [by constructor |]. constructor.
    + unfold newerFirst. lia.
    + eapply Forall_impl; [exact Hall |]. unfold newerFirst. intros z Hz. lia.
  - constructor; [done |].
    rewrite insertSorted_perm.
    constructor; [unfold newerFirst; lia | done].
Qed.

Lemma sort_newerFirst l :
  StronglySorted newerFirst (sort (λ a b, summary_startTime b - summary_startTime a)%Z l).
Proof.
  induction l as [| x rest IH]; simpl; [constructor | by apply insertSorted_newerFirst].
Qed.

Lemma filter_disjoint_length {A : Type} (P Q : A → Prop)
    `{∀ x, Decision (P x)} `{∀ x, Decision (Q x)} (l : list A) :
  (∀ x, P x → Q x → False) → length (filter P l) + length (filter Q l) ≤ length l.
Proof.
  intros Hdisjoint. induction l as [| x rest IH]; simpl; [done |].
  rewrite !filter_cons.
  destruct (decide (P x)) as [HP | HP]; destruct (decide (Q x)) as [HQ | HQ]; simpl;
    [by destruct (Hdisjoint x) | lia | lia | lia].
Qed.

Lemma sorted_own_summaries user entries s :
  s ∈ sort (λ a b, summary_startTime b - summary_startTime a)%Z
        (Dashboard.summary <$> ownJobs (payload_userId user) entries) ↔
  ∃ entry, entry ∈ entries ∧ userId entry.2 = payload_userId user ∧
           s = Dashboard.summary entry.
Proof.
  rewrite sort_perm, list_elem_of_fmap. unfold ownJobs. split.
  - intros (entry & -> & Hin). apply list_elem_of_filter in Hin as [Hown Hin].
    by exists entry.
  - intros (entry & Hin & Hown & ->). exists entry. split; [done |].
    by apply list_elem_of_filter.
Qed.

(** X14.  The dashboard shows a user only jobs of the registry that are
    that user's own, each under its own id and at most once, and at most
    ten of them: as many as the user has, ten at most.  The statistics are
    those of the listed jobs: [totalJobs] is their number, so it never
    exceeds ten, and the completed and failed jobs counted are among
    them. *)
Theorem dashboard_shows_own_jobs (user : Payload) (entries : list (string * Job))
    (st : State) :
  listing entries st →
  dashboard_id (Dashboard.dashboard user entries) = payload_userId user ∧
  length (recentJobs (Dashboard.dashboard user entries)) =
    10 `min` length (ownJobs (payload_userId user) entries) ∧
  totalJobs (Dashboard.dashboard user entries) =
    length (recentJobs (Dashboard.dashboard user entries)) ∧
  completedJobs (Dashboard.dashboard user entries) +
    failedJobs (Dashboard.dashboard user entries) ≤
    totalJobs (Dashboard.dashboard user entries) ∧
  NoDup (summary_requestId <$> recentJobs (Dashboard.dashboard user entries)) ∧
  (∀ s, s ∈ recentJobs (Dashboard.dashboard user entries) →
     ∃ job,
       generationJobs st !! summary_requestId s = Some job ∧
       userId job = payload_userId user ∧
       s = Dashboard.summary (summary_requestId s, job)).
Proof.
  intros Hlisting. unfold listing in Hlisting. unfold Dashboard.dashboard. simpl.
  set (sorted := sort (λ a b, summary_startTime b - summary_startTime a)%Z
                   (Dashboard.summary <$> ownJobs (payload_userId user) entries)).
  fold (ownJobs (payload_userId user) entries). fold sorted.
  refine (conj eq_refl (conj _ (conj eq_refl (conj _ (conj _ _))))).
  - rewrite length_take. unfold sorted. by rewrite sort_perm, length_fmap.
  - apply filter_disjoint_length. intros s H1 H2. congruence.
  - rewrite fmap_take. eapply sublist_NoDup; [| apply sublist_take].
    unfold sorted. rewrite sort_perm, <- list_fmap_compose.
    eapply (sublist_NoDup _ (entries.*1)).
    + rewrite Hlisting. apply NoDup_fst_map_to_list.
    + unfold ownJobs. apply fmap_sublist, sublist_filter.
  - intros s Hs. apply elem_of_take in Hs as (i & Hs & _).
    apply list_elem_of_lookup_2 in Hs.
    apply sorted_own_summaries in Hs as ([requestId job] & Hin & Hown & ->).
    exists job. split; [| done]. simpl.
    rewrite Hlisting in Hin. by apply elem_of_map_to_list in Hin.
Qed.

(** X15.  The dashboard lists the most recent jobs first.  The listed jobs
    are in the order of their start times, the latest first, and every job
    of the user that is not listed started no later than each listed one. *)
Theorem dashboard_most_recent (user : Payload) (entries : list (string * Job)) :
  StronglySorted newerFirst (recentJobs (Dashboard.dashboard user entries)) ∧
  (∀ s entry,
     s ∈ recentJobs (Dashboard.dashboard user entries) →
     entry ∈ entries → userId entry.2 = payload_userId user →
     Dashboard.summary entry ∉ recentJobs (Dashboard.dashboard user entries) →
     (startTime entry.2 ≤ summary_startTime s)%Z).
Proof.
  unfold Dashboard.dashboard. simpl.
  set (sorted := sort (λ a b, summary_startTime b - summary_startTime a)%Z
                   (Dashboard.summary <$>
                    filter (λ entry, userId entry.2 = payload_userId user) entries)).
  pose proof (sort_newerFirst
                (Dashboard.summary <$>
                 filter (λ entry, userId entry.2 = payload_userId user) entries)) as Hsorted.
  fold sorted in Hsorted. rewrite <- (take_drop 10 sorted) in Hsorted. split.
  - by apply StronglySorted_app_1_l in Hsorted.
  - intros s entry Hs Hentry Hown Hout.
    assert (Dashboard.summary entry ∈ sorted) as Hin.
    { apply sorted_own_summaries. by exists entry. }
    rewrite <- (take_drop 10 sorted) in Hin. apply elem_of_app in Hin as [Hin | Hin]; [done |].
    apply (StronglySorted_app_1_elem_of _ _ _ s (Dashboard.summary entry) Hsorted Hs Hin).
Qed.

(** The sample registry, seen by its owner. *)
Lemma dashboard_shows_own_jobs_witness :
  length (recentJobs
            (Dashboard.dashboard (mkPayload "alice" (JStr "alice@example.org"))
               (map_to_list (generationJobs (registered (sampleJob "alice")))))) =
  10 `min` length (ownJobs "alice"
                     (map_to_list (generationJobs (registered (sampleJob "alice"))))) ∧
  length (recentJobs
            (Dashboard.dashboard (mkPayload "bob" (JStr "bob@example.org"))
               (map_to_list (generationJobs (registered (sampleJob "alice")))))) = 0.
Proof.
  split.
  - refine (proj1 (proj2 (dashboard_shows_own_jobs
                            (mkPayload "alice" (JStr "alice@example.org"))
                            (map_to_list (generationJobs (registered (sampleJob "alice"))))
                            (registered (sampleJob "alice")) _))).
    unfold listing. reflexivity.
  - vm_compute. reflexivity.
Defined.

(** ** The token of a request *)

Lemma spaceless_cons c rest :
  spaceless (String c rest) → isChar c " " = false ∧ spaceless rest.
Proof.
  unfold spaceless, isChar. rewrite includes_unfold. intros H.
  apply orb_false_elim in H as [Hhead Hrest]. split; [| done].
  destruct (String.eqb_spec (String c EmptyString) " ") as [Heq | Hne]; [| done].
  injection Heq as ->. cbn [String.prefix] in Hhead.
  destruct (Ascii.ascii_dec _ _); [by destruct rest | done].
Qed.

Lemma split_space_nonempty s : split_space s ≠ [].
Proof.
  induction s as [| c rest IH]; simpl; [done |].
  destruct (split_space rest) as [| first others]; [done |]. by destruct (isChar c " ").
Qed.

Lemma split_space_spaceless s : spaceless s → split_space s = [s].
Proof.
  induction s as [| c rest IH]; [done |].
  intros H. apply spaceless_cons in H as [Hc Hrest]. simpl.
  by rewrite (IH Hrest), Hc.
Qed.

Lemma split_space_append scheme rest :
  spaceless scheme →
  split_space (scheme +:+ " " +:+ rest) = scheme :: split_space rest.
Proof.
  induction scheme as [| c scheme IH]; intros H.
  - rewrite append_nil, append_cons, append_nil. simpl.
    pose proof (split_space_nonempty rest).
    by destruct (split_space rest).
  - apply spaceless_cons in H as [Hc Hscheme]. rewrite append_cons. simpl.
    by rewrite (IH Hscheme), Hc.
Qed.

Lemma authenticateToken_continue a authorization user :
  Accounts.authenticateToken a authorization = Continue user →
  ∃ token, token ≠ EmptyString ∧ jwt_verify a token = Some user.
Proof.
  unfold Accounts.authenticateToken.
  destruct (match authorization with
            | Some authHeader =>
                if String.eqb authHeader EmptyString then Some authHeader
                else split_space authHeader !! 1
            | None => None
            end) as [token |]; [| discriminate].
  destruct (String.eqb_spec token EmptyString) as [-> | Hne]; [discriminate |].
  destruct (jwt_verify a token) as [found |] eqn:E; [| discriminate].
  intros [= <-]. by exists token.
Qed.

(** X16.  The middleware of the protected routes.  A request without an
    [Authorization] header, or with one that holds no space, is answered 401
    [Access token required].  For a header made of a first word, a space and
    a second word, the second word alone decides: when it is empty the
    answer is 401, when the token library refuses it 403 [Invalid or expired
    token], and otherwise the request goes on with the user the library
    reads from it - the first word is never looked at.  A request goes on
    only with a user the token library read from a non-empty token. *)
Theorem authenticateToken_outcomes (a : AuthWorld) :
  Accounts.authenticateToken a None =
    Reply (mkResponse 401 [("error", FString "Access token required")]) ∧
  (∀ header, spaceless header →
     Accounts.authenticateToken a (Some header) =
       Reply (mkResponse 401 [("error", FString "Access token required")])) ∧
  (∀ scheme token, spaceless scheme → spaceless token →
     Accounts.authenticateToken a (Some (scheme +:+ " " +:+ token)) =
       if String.eqb token EmptyString
       then Reply (mkResponse 401 [("error", FString "Access token required")])
       else match jwt_verify a token with
            | None => Reply (mkResponse 403 [("error", FString "Invalid or expired token")])
            | Some user => Continue user
            end) ∧
  (∀ authorization user,
     Accounts.authenticateToken a authorization = Continue user →
     ∃ token, token ≠ EmptyString ∧ jwt_verify a token = Some user).
Proof.
  refine (conj eq_refl (conj _ (conj _ (authenticateToken_continue a)))).
  - intros header Hheader. unfold Accounts.authenticateToken.
    destruct (String.eqb_spec header EmptyString) as [-> | _]; [done |].
    by rewrite (split_space_spaceless header Hheader).
  - intros scheme token Hscheme Htoken. unfold Accounts.authenticateToken.
    assert (scheme +:+ " " +:+ token ≠ EmptyString) as Hne.
    { destruct scheme; [rewrite append_nil, append_cons | rewrite append_cons]; done. }
    destruct (String.eqb_spec (scheme +:+ " " +:+ token) EmptyString) as [He | _]; [done |].
    by rewrite (split_space_append scheme token Hscheme),
               (split_space_spaceless token Htoken).
Qed.

(** The token a request goes on with is the second word of its own
    [Authorization] header. *)
Lemma authenticateToken_token a authorization user :
  Accounts.authenticateToken a authorization = Continue user →
  ∃ header token,
    authorization = Some header ∧ split_space header !! 1 = Some token ∧
    token ≠ EmptyString ∧ jwt_verify a token = Some user.
Proof.
  unfold Accounts.authenticateToken.
  destruct authorization as [header |]; [| discriminate].
  destruct (String.eqb_spec header EmptyString) as [-> | _]; [discriminate |].
  destruct (split_space header !! 1) as [token |] eqn:Hword; [| discriminate].
  destruct (String.eqb_spec token EmptyString) as [-> | Hne]; [discriminate |].
  destruct (jwt_verify a token) as [found |] eqn:E; [| discriminate].
  intros [= <-]. by exists header, token.
Qed.

(** X17.  The status route behind the middleware.  It never changes the
    state; without an [Authorization] header it answers 401 whether the job
    exists or not; and it sends a snapshot (a body with a [status] member)
    only when the request carries an [Authorization] header whose second
    word is a non-empty token from which the token library read a user who
    is the owner of the job. *)
Theorem status_route_guard (a : AuthWorld) (authorization : option string)
    (requestId : string) (st : State) :
  (Accounts.status_route a authorization requestId st).1 = st ∧
  Accounts.status_route a None requestId st =
    (st, mkResponse 401 [("error", FString "Access token required")]) ∧
  ("status" ∈ (body (Accounts.status_route a authorization requestId st).2).*1 →
   ∃ header token user job,
     authorization = Some header ∧
     split_space header !! 1 = Some token ∧
     token ≠ EmptyString ∧
     jwt_verify a token = Some user ∧
     generationJobs st !! requestId = Some job ∧
     userId job = payload_userId user).
Proof.
  unfold Accounts.status_route, Accounts.protected.
  destruct (Accounts.authenticateToken a authorization) as [user | response | m] eqn:E.
  - destruct (authenticateToken_token a authorization user E)
      as (header & token & Hheader & Hword & Hfilled & Hverify).
    refine (conj _ (conj eq_refl _)).
    + unfold Server.getStatus.
      destruct (generationJobs st !! requestId) as [job |]; [| done].
      destruct (negb (String.eqb (userId job) (payload_userId user))); [done |].
      by destruct (status job).
    + unfold Server.getStatus.
      destruct (generationJobs st !! requestId) as [job |] eqn:Ejob; simpl.
      * destruct (String.eqb_spec (userId job) (payload_userId user)) as [Heq | Hne]; simpl.
        -- intros _. by exists header, token, user, job.
        -- intros H. repeat (apply elem_of_cons in H as [H | H]; [discriminate H |]).
           by apply elem_of_nil in H.
      * intros H. repeat (apply elem_of_cons in H as [H | H]; [discriminate H |]).
        by apply elem_of_nil in H.
  - refine (conj eq_refl (conj eq_refl _)). simpl. intros H. exfalso.
    unfold Accounts.authenticateToken in E.
    destruct (match authorization with
              | Some authHeader =>
                  if String.eqb authHeader EmptyString then Some authHeader
                  else split_space authHeader !! 1
              | None => None
              end) as [token |].
    + destruct (String.eqb token EmptyString).
      * injection E as <-. simpl in H.
        repeat (apply elem_of_cons in H as [H | H]; [discriminate H |]).
        by apply elem_of_nil in H.
      * destruct (jwt_verify a token); [discriminate |]. injection E as <-. simpl in H.
        repeat (apply elem_of_cons in H as [H | H]; [discriminate H |]).
        by apply elem_of_nil in H.
    + injection E as <-. simpl in H.
      repeat (apply elem_of_cons in H as [H | H]; [discriminate H |]).
      by apply elem_of_nil in H.
  - refine (conj eq_refl (conj eq_refl _)). simpl. intros H.
    repeat (apply elem_of_cons in H as [H | H]; [discriminate H |]).
    by apply elem_of_nil in H.
Qed.

(** ** Accounts *)

Lemma emailLike_at s : ∀ before, emailLike s before = true → includes s "@" = true.
Proof.
  induction s as [| c rest IH]; intros before; cbn [emailLike]; [done |].
  intros H. apply orb_true_iff in H as [H | H].
  - apply andb_true_iff in H as [H _]. apply andb_true_iff in H as [_ H].
    unfold isChar in H. apply String.eqb_eq in H. injection H as ->.
    exact (includes_here "@" rest).
  - rewrite includes_unfold, (IH _ H). apply orb_true_r.
Qed.

Lemma emailLike_nonempty s before : emailLike s before = true → s ≠ EmptyString.
Proof. by destruct s. Qed.



(** The members of an account the sign-in never rewrites. *)
Lemma setLastLogin_keeps id later users users' :
  Accounts.setLastLogin id later users = Some users' →
  (λ user, (user_id user, user_email user, user_password user, user_createdAt user))
    <$> users' =
  (λ user, (user_id user, user_email user, user_password user, user_createdAt user))
    <$> users.
Proof.
  revert users'. induction users as [| user rest IH]; intros users'; simpl; [discriminate |].
  destruct (String.eqb (user_id user) id).
  - by intros [= <-].
  - destruct (Accounts.setLastLogin id later rest) as [updated |]; simpl; [| discriminate].
    intros [= <-]. simpl. f_equal. by apply IH.
Qed.

Lemma updateLastLogin_keeps id later file :
  (λ user, (user_id user, user_email user, user_password user, user_createdAt user))
    <$> Accounts.readUsers (Accounts.updateLastLogin id later file) =
  (λ user, (user_id user, user_email user, user_password user, user_createdAt user))
    <$> Accounts.readUsers file.
Proof.
  unfold Accounts.updateLastLogin.
  destruct (Accounts.setLastLogin id later (Accounts.readUsers file)) as [users |] eqn:E;
    [| done].
  by apply (setLastLogin_keeps id later).
Qed.

(** X18.  What a sign-up refuses.  Whenever the sign-up answers with an
    error, [users.json] is left as it was.  It answers 400 [Email and
    password are required] when the email or the password is missing or
    falsy; 400 [Invalid email format] for an email that is a string without
    an [@]; 400 [Password must be at least 6 characters] for a well-formed
    email with a password of fewer than six characters; and 409 [User
    already exists with this email] for a well-formed email that an account
    of the file already has, with a password of six characters or more. *)
Theorem signup_refusals (a : AuthWorld) (now created login later : Z) (email password : Json)
    (file : UsersFile) :
  (∀ code error,
     (Accounts.signup a now created login later email password file).2 = AuthError code error →
     (Accounts.signup a now created login later email password file).1 = file) ∧
  (truthy email && truthy password = false →
   Accounts.signup a now created login later email password file =
     (file, AuthError 400 "Email and password are required")) ∧
  (∀ e, email = JStr e → e ≠ EmptyString → truthy password = true →
     includes e "@" = false →
     Accounts.signup a now created login later email password file =
       (file, AuthError 400 "Invalid email format")) ∧
  (∀ e p, email = JStr e → password = JStr p → emailLike e false = true →
     p ≠ EmptyString → String.length p < 6 →
     Accounts.signup a now created login later email password file =
       (file, AuthError 400 "Password must be at least 6 characters")) ∧
  (∀ e p user, email = JStr e → password = JStr p → emailLike e false = true →
     6 ≤ String.length p →
     Accounts.findUserByEmail email file = Some user →
     Accounts.signup a now created login later email password file =
       (file, AuthError 409 "User already exists with this email")).
Proof.
  refine (conj _ (conj _ (conj _ (conj _ _)))).
  - intros code error. unfold Accounts.signup.
    destruct (negb (truthy email) || negb (truthy password)); [done |].
    destruct (ToString email) as [text | m]; simpl; [| done].
    destruct (negb (emailLike text false)); [done |].
    destruct (Accounts.tooShort a password) as [[|] | m]; simpl; [done | | done].
    destruct (Accounts.createUser a now created login email password file) as [made | m]; simpl;
      [discriminate | done].
  - intros H. unfold Accounts.signup.
    apply andb_false_iff in H as [-> | ->]; simpl; [done | by rewrite orb_true_r].
  - intros e -> He Hp Hat. unfold Accounts.signup.
    rewrite (truthy_JStr e He), Hp. simpl.
    destruct (emailLike e false) eqn:E; [| done].
    apply emailLike_at in E. congruence.
  - intros e p -> -> He Hp Hshort. unfold Accounts.signup.
    rewrite (truthy_JStr e (emailLike_nonempty e false He)), (truthy_JStr p Hp). simpl.
    rewrite He. simpl.
    destruct (Nat.ltb_spec (String.length p) 6) as [_ | Hge]; [done | lia].
  - intros e p user -> -> He Hp Hfound. unfold Accounts.signup.
    assert (p ≠ EmptyString) as Hne by (intros ->; simpl in Hp; lia).
    rewrite (truthy_JStr e (emailLike_nonempty e false He)), (truthy_JStr p Hne). simpl.
    rewrite He. simpl.
    destruct (Nat.ltb_spec (String.length p) 6) as [Hlt | _]; [lia |]. simpl.
    unfold Accounts.createUser. unfold Accounts.findUserByEmail in Hfound.
    by rewrite Hfound.
Qed.



(** X20.  What a sign-in refuses, and what it leaves alone.  An email no
    account has and a password the library rejects for the account's hash
    get the same answer, 401 [Invalid email or password]; whenever the
    sign-in answers with an error the file is left as it was; and whatever
    its answer, the accounts of the file keep their ids, emails, password
    hashes and creation times, in their order: a sign-in rewrites nothing
    but one time of last login. *)
Theorem signin_refusals (a : AuthWorld) (later : Z) (email password : Json)
    (file : UsersFile) :
  (truthy email = true → truthy password = true →
   Accounts.findUserByEmail email file = None →
   Accounts.signin a later email password file =
     (file, AuthError 401 "Invalid email or password")) ∧
  (∀ user, truthy email = true → truthy password = true →
     Accounts.findUserByEmail email file = Some user →
     bcrypt_compare a password (user_password user) = Returns false →
     Accounts.signin a later email password file =
       (file, AuthError 401 "Invalid email or password")) ∧
  (∀ code error,
     (Accounts.signin a later email password file).2 = AuthError code error →
     (Accounts.signin a later email password file).1 = file) ∧
  (λ user, (user_id user, user_email user, user_password user, user_createdAt user))
    <$> Accounts.readUsers (Accounts.signin a later email password file).1 =
  (λ user, (user_id user, user_email user, user_password user, user_createdAt user))
    <$> Accounts.readUsers file.
Proof.
  refine (conj _ (conj _ (conj _ _))).
  - intros He Hp Hnone. unfold Accounts.signin. by rewrite He, Hp, Hnone.
  - intros user He Hp Hfound Hreject. unfold Accounts.signin, Accounts.verifyPassword.
    by rewrite He, Hp, Hfound, Hreject.
  - intros code error. unfold Accounts.signin.
    destruct (negb (truthy email) || negb (truthy password)); [done |].
    destruct (Accounts.findUserByEmail email file) as [user |]; [| done].
    destruct (Accounts.verifyPassword a password (user_password user)) as [[|] | m];
      simpl; [discriminate | done | done].
  - unfold Accounts.signin.
    destruct (negb (truthy email) || negb (truthy password)); [done |].
    destruct (Accounts.findUserByEmail email file) as [user |]; [| done].
    destruct (Accounts.verifyPassword a password (user_password user)) as [[|] | m];
      simpl; [| done | done].
    apply updateLastLogin_keeps.
Qed.

(** ** Start-up *)

Lemma defaults_path w filename :
  (dirname w +:+ "/defaults") +:+ "/" +:+ filename = dirname w +:+ "/defaults/" +:+ filename.
Proof. by rewrite append_assoc. Qed.

Lemma placeEach_effects draw kind targetDir entries : ∀ files,
  (∀ p content, files !! p = Some content →
     (Startup.placeEach draw kind targetDir entries files).1 !! p = Some content) ∧
  ((Startup.placeEach draw kind targetDir entries files).2 = None →
   ∀ entry, entry ∈ entries →
     is_Some ((Startup.placeEach draw kind targetDir entries files).1
                !! (targetDir +:+ "/" +:+ entry.2))) ∧
  ((∀ picture, returned (draw picture)) →
   (Startup.placeEach draw kind targetDir entries files).2 = None).
Proof.
  induction entries as [| [id filename] rest IH]; intros files; simpl.
  - split; [done |]. split; [| done]. intros _ entry H. by apply elem_of_nil in H.
  - unfold Server.existsSync. case_bool_decide as Hexists.
    + destruct (IH files) as (Hkeep & Hall & Hdraw).
      split; [done |]. split; [| done].
      intros Hnone entry Hin. apply elem_of_cons in Hin as [-> | Hin]; [| by apply Hall].
      destruct Hexists as [content Hcontent]. simpl. rewrite (Hkeep _ _ Hcontent). by eexists.
    + destruct (draw (kind id)) as [body | m] eqn:E.
      * destruct (IH (<[targetDir +:+ "/" +:+ filename := signature image_png ++ body]> files))
          as (Hkeep & Hall & Hdraw).
        split.
        { intros p content Hp. apply Hkeep. rewrite lookup_insert_ne; [done |].
          intros <-. apply Hexists. by eexists. }
        split; [| done].
        intros Hnone entry Hin. apply elem_of_cons in Hin as [-> | Hin]; [| by apply Hall].
        simpl. rewrite (Hkeep _ (signature image_png ++ body)); [by eexists |].
        apply lookup_insert_eq.
      * simpl. split; [done |]. split; [discriminate |].
        intros Hdraw. destruct (Hdraw (kind id)) as [body Hbody]. congruence.
Qed.

Lemma tables_agree :
  (∀ id filename, Server.defaultImages_models id = Some filename →
     (id, filename) ∈ Startup.models) ∧
  (∀ id filename, Server.defaultImages_garments id = Some filename →
     (id, filename) ∈ Startup.garments).
Proof.
  split; intros id filename;
    unfold Server.defaultImages_models, Server.defaultImages_garments,
      Startup.models, Startup.garments;
    repeat match goal with
           | |- context [String.eqb id ?k] =>
               destruct (String.eqb_spec id k) as [-> | _];
               [intros [= <-];
                repeat first [apply list_elem_of_here | apply list_elem_of_further] |]
           end;
    discriminate.
Qed.

Lemma realImage_test w files :
  existsb (λ filename,
             match files !! ((dirname w +:+ "/defaults") +:+ "/" +:+ filename) with
             | Some content => (1000 <? Z.of_nat (length content))%Z
             | None => false
             end) ((snd <$> Startup.models) ++ (snd <$> Startup.garments)) = true ↔
  realImage w files.
Proof.
  rewrite existsb_exists. unfold realImage. split.
  - intros (filename & Hin & Htest). rewrite defaults_path in Htest.
    destruct (files !! (dirname w +:+ "/defaults/" +:+ filename)) as [content |] eqn:E;
      [| discriminate].
    exists filename, content. split; [by apply list_elem_of_In |]. split; [done |].
    apply Z.ltb_lt in Htest. lia.
  - intros (filename & content & Hin & Hfile & Hsize). exists filename.
    split; [by apply list_elem_of_In |]. rewrite defaults_path, Hfile.
    apply Z.ltb_lt. lia.
Qed.

(** X21.  The default images at start-up.  The start never changes or
    removes a file that is on the disk.  When one of the thirteen default
    images is there with more than 1000 bytes, nothing is drawn or written
    at all, so a default image that is missing stays missing.  Otherwise a
    placeholder is written for each default image that is missing, the
    start fails only if the canvas throws, and once it has succeeded every
    default image is on the disk, so that every model id and every garment
    id of the tables resolves to its file. *)
Theorem initializeDefaultImages_effects (w : World) (draw : Placeholder → Result Buffer)
    (files : Disk) :
  (∀ p content, files !! p = Some content →
     (Startup.initializeDefaultImages w draw files).1 !! p = Some content) ∧
  (realImage w files → Startup.initializeDefaultImages w draw files = (files, None)) ∧
  ((∀ picture, returned (draw picture)) →
   (Startup.initializeDefaultImages w draw files).2 = None) ∧
  (¬ realImage w files →
   (Startup.initializeDefaultImages w draw files).2 = None →
   (∀ filename, filename ∈ (snd <$> Startup.models) ++ (snd <$> Startup.garments) →
      is_Some ((Startup.initializeDefaultImages w draw files).1
                 !! (dirname w +:+ "/defaults/" +:+ filename))) ∧
   (∀ id filename, Server.defaultImages_models id = Some filename → id ≠ EmptyString →
      Server.getImagePath w (Startup.initializeDefaultImages w draw files).1 "model"
                          (JStr id) None =
        Returns (dirname w +:+ "/defaults/" +:+ filename)) ∧
   (∀ id filename, Server.defaultImages_garments id = Some filename → id ≠ EmptyString →
      Server.getImagePath w (Startup.initializeDefaultImages w draw files).1 "garment"
                          (JStr id) None =
        Returns (dirname w +:+ "/defaults/" +:+ filename))).
Proof.
  unfold Startup.initializeDefaultImages.
  pose proof (realImage_test w files) as Htest.
  destruct (existsb _ _) eqn:Ereal.
  - split; [done |]. split; [done |]. split; [done |].
    intros Hnot. destruct Hnot. by apply Htest.
  - unfold Startup.createPlaceholderImages.
    destruct (placeEach_effects draw ModelPlaceholder (dirname w +:+ "/defaults")
                Startup.models files) as (Hkeep1 & Hall1 & Hdraw1).
    destruct (Startup.placeEach draw ModelPlaceholder (dirname w +:+ "/defaults")
                Startup.models files) as [files1 [m |]] eqn:E1; cbn [fst snd] in *.
    + split; [done |]. split; [intros Hreal; apply Htest in Hreal; discriminate |].
      split; [exact Hdraw1 |]. intros _ Hnone. discriminate.
    + destruct (placeEach_effects draw GarmentPlaceholder (dirname w +:+ "/defaults")
                  Startup.garments files1) as (Hkeep2 & Hall2 & Hdraw2).
      destruct (Startup.placeEach draw GarmentPlaceholder (dirname w +:+ "/defaults")
                  Startup.garments files1) as [files2 stopped] eqn:E2; cbn [fst snd] in *.
      split; [intros p content Hp; by apply Hkeep2, Hkeep1 |].
      split; [intros Hreal; apply Htest in Hreal; discriminate |].
      split; [exact Hdraw2 |]. intros _ ->.
      assert (∀ entry, entry ∈ Startup.models ++ Startup.garments →
                is_Some (files2 !! (dirname w +:+ "/defaults/" +:+ entry.2))) as Hall.
      { intros entry Hin. rewrite <- defaults_path.
        apply elem_of_app in Hin as [Hin | Hin].
        - destruct (Hall1 eq_refl entry Hin) as [content Hcontent].
          rewrite (Hkeep2 _ _ Hcontent). by eexists.
        - by apply (Hall2 eq_refl). }
      assert (∀ id filename, is_Some (files2 !! (dirname w +:+ "/defaults/" +:+ filename)) →
                id ≠ EmptyString →
                (Server.defaultImages_models id = Some filename →
                 Server.getImagePath w files2 "model" (JStr id) None =
                   Returns (dirname w +:+ "/defaults/" +:+ filename)) ∧
                (Server.defaultImages_garments id = Some filename →
                 Server.getImagePath w files2 "garment" (JStr id) None =
                   Returns (dirname w +:+ "/defaults/" +:+ filename))) as Hpath.
      { intros id filename Hon Hid. unfold Server.getImagePath.
        rewrite (truthy_JStr id Hid). simpl.
        split; intros ->; unfold Server.existsSync; by rewrite bool_decide_eq_true_2. }
      destruct tables_agree as [Hmodels Hgarments].
      refine (conj _ (conj _ _)).
      * intros filename Hin. rewrite <- fmap_app in Hin.
        apply list_elem_of_fmap in Hin as (entry & -> & Hin). by apply Hall.
      * intros id filename Hfile Hid. apply (Hpath id filename); [| done | done].
        apply (Hall (id, filename)), elem_of_app. left. by apply Hmodels.
      * intros id filename Hfile Hid. apply (Hpath id filename); [| done | done].
        apply (Hall (id, filename)), elem_of_app. right. by apply Hgarments.
Qed.

(** ** The order of the records *)

Lemma pushItem_index i item acc records :
  VellaService.pushItem i item acc = Returns records ∨
  Server.pushItem i item acc = Returns records →
  records = acc ∨ ∃ record, records = acc ++ [record] ∧ index record = i.
Proof.
  intros [H | H]; destruct item as [stream | s | url |]; simpl in H.
  - destruct (streamToBuffer stream); simpl in H; [| discriminate].
    injection H as <-. right. by eexists.
  - injection H as <-. right. by eexists.
  - injection H as <-. destruct url as [[resolved | m] | s |]; simpl; [| by left | | by left].
    + right. by eexists.
    + destruct (String.eqb s EmptyString); [by left | right; by eexists].
  - injection H as <-. by left.
  - destruct (streamToBuffer stream); simpl in H; [| discriminate].
    injection H as <-. right. by eexists.
  - injection H as <-. right. by eexists.
  - injection H as <-. destruct url as [outcome | s |]; simpl; [| | by left].
    + destruct (resolvedUrl ← outcome; Server.resolved_toString resolvedUrl);
        [right; by eexists | by left].
    + destruct (String.eqb s EmptyString); [by left | right; by eexists].
  - injection H as <-. by left.
Qed.

Lemma forItems_indices items : ∀ i acc records,
  VellaService.forItems i items acc = Returns records ∨
  Server.forItems i items acc = Returns records →
  ∃ new,
    records = acc ++ new ∧ length new ≤ length items ∧
    StronglySorted lt (index <$> new) ∧
    Forall (λ record, i ≤ index record < i + length items) new.
Proof.
  induction items as [| item rest IH]; intros i acc records; simpl.
  - intros [[= <-] | [= <-]]; exists []; rewrite app_nil_r; repeat constructor.
  - intros H.
    assert (∃ acc', (VellaService.pushItem i item acc = Returns acc' ∨
                     Server.pushItem i item acc = Returns acc') ∧
                    (VellaService.forItems (S i) rest acc' = Returns records ∨
                     Server.forItems (S i) rest acc' = Returns records))
      as (acc' & Hpush & Hrest).
    { destruct H as [H | H].
      - destruct (VellaService.pushItem i item acc) as [acc' |]; [| discriminate].
        exists acc'. split; by left.
      - destruct (Server.pushItem i item acc) as [acc' |]; [| discriminate].
        exists acc'. split; by right. }
    destruct (IH _ _ _ Hrest) as (new & -> & Hlen & Hsorted & Hbounds).
    assert (Forall (λ record, i ≤ index record < i + S (length rest)) new) as Hwider.
    { eapply Forall_impl; [exact Hbounds |]. simpl. intros record. lia. }
    destruct (pushItem_index _ _ _ _ Hpush) as [-> | (record & -> & Hindex)].
    + exists new. split; [done |]. split; [lia |]. split; [done | exact Hwider].
    + exists (record :: new). rewrite <- app_assoc. split; [done |].
      split; [simpl; lia |]. split.
      * simpl. constructor; [done |]. rewrite Forall_fmap.
        eapply Forall_impl; [exact Hbounds |]. simpl. intros r. lia.
      * constructor; [lia | exact Hwider].
Qed.

(** X22.  The order of the records of an array output, in both versions
    of the normalizer.  What the normalizer returns is never empty.  Unless
    it is the one mock record, it holds at most one record for each item, in
    the order of the items, each record carrying the position of its item as
    its index: the indices increase strictly and stay below the number of
    items. *)
Theorem normalizer_indices (items : list RawItem) (records : list ResultRecord) :
  VellaService.processReplicateOutput (OutputArray items) = Returns records ∨
  Server.processReplicateOutput (OutputArray items) = Returns records →
  records ≠ [] ∧
  (records = [mockRecord] ∨
   (length records ≤ length items ∧
    StronglySorted lt (index <$> records) ∧
    Forall (λ record, index record < length items ∧ isMock record = false) records)).
Proof.
  intros H.
  assert (∃ gathered,
            (VellaService.forItems 0 items [] = Returns gathered ∨
             Server.forItems 0 items [] = Returns gathered) ∧
            records = if bool_decide (length gathered = 0) then [mockRecord] else gathered)
    as (gathered & Hgathered & ->).
  { destruct H as [H | H].
    - unfold VellaService.processReplicateOutput in H. simpl in H.
      destruct (VellaService.forItems 0 items []) as [gathered |]; simpl in H;
        [| discriminate].
      exists gathered. split; [by left |]. case_bool_decide; by injection H.
    - unfold Server.processReplicateOutput in H. simpl in H.
      destruct (Server.forItems 0 items []) as [gathered |]; simpl in H; [| discriminate].
      exists gathered. split; [by right |]. case_bool_decide; by injection H. }
  case_bool_decide as Hempty; [split; [done | by left] |].
  split; [by intros -> |]. right.
  destruct (forItems_indices _ _ _ _ Hgathered) as (new & Hnew & Hlen & Hsorted & Hbounds).
  simpl in Hnew. subst new. split; [done |]. split; [done |].
  assert (∀ items i acc gathered,
            VellaService.forItems i items acc = Returns gathered ∨
            Server.forItems i items acc = Returns gathered →
            Forall (λ record, isMock record = false) acc →
            Forall (λ record, isMock record = false) gathered) as Hreal.
  { clear. induction items as [| item rest IH]; intros i acc gathered; simpl.
    - by intros [[= <-] | [= <-]].
    - intros H Hacc.
      assert (∃ acc', (VellaService.pushItem i item acc = Returns acc' ∨
                       Server.pushItem i item acc = Returns acc') ∧
                      (VellaService.forItems (S i) rest acc' = Returns gathered ∨
                       Server.forItems (S i) rest acc' = Returns gathered))
        as (acc' & Hpush & Hrest).
      { destruct H as [H | H].
        - destruct (VellaService.pushItem i item acc) as [acc' |]; [| discriminate].
          exists acc'. split; by left.
        - destruct (Server.pushItem i item acc) as [acc' |]; [| discriminate].
          exists acc'. split; by right. }
      apply (IH _ _ _ Hrest).
      destruct Hpush as [Hpush | Hpush]; destruct item as [stream | s | url |];
        simpl in Hpush.
      + destruct (streamToBuffer stream); simpl in Hpush; [| discriminate].
        injection Hpush as <-. apply Forall_app. split; [done | by repeat constructor].
      + injection Hpush as <-. apply Forall_app. split; [done | by repeat constructor].
      + injection Hpush as <-. destruct url as [[resolved | m] | s |]; simpl; try done.
        * apply Forall_app. split; [done | by repeat constructor].
        * destruct (String.eqb s EmptyString); [done |].
          apply Forall_app. split; [done | by repeat constructor].
      + by injection Hpush as <-.
      + destruct (streamToBuffer stream); simpl in Hpush; [| discriminate].
        injection Hpush as <-. apply Forall_app. split; [done | by repeat constructor].
      + injection Hpush as <-. apply Forall_app. split; [done | by repeat constructor].
      + injection Hpush as <-. destruct url as [outcome | s |]; simpl; try done.
        * destruct (resolvedUrl ← outcome; Server.resolved_toString resolvedUrl); [| done].
          apply Forall_app. split; [done | by repeat constructor].
        * destruct (String.eqb s EmptyString); [done |].
          apply Forall_app. split; [done | by repeat constructor].
      + by injection Hpush as <-. }
  specialize (Hreal items 0 [] gathered Hgathered (Forall_nil_2 _)).
  apply Forall_and. split; [| exact Hreal].
  eapply Forall_impl; [exact Hbounds |]. simpl. intros record. lia.
Qed.

(** An array whose first item is unusable: the record of the second
    item carries index 1. *)
Lemma normalizer_indices_witness :
  [url_record (UrlText "https://host/x.png") 1] ≠ [] ∧
  ([url_record (UrlText "https://host/x.png") 1] = [mockRecord] ∨
   (length [url_record (UrlText "https://host/x.png") 1] ≤
      length [ItemOther; ItemString "https://host/x.png"] ∧
    StronglySorted lt (index <$> [url_record (UrlText "https://host/x.png") 1]) ∧
    Forall (λ record,
              index record < length [ItemOther; ItemString "https://host/x.png"] ∧
              isMock record = false)
           [url_record (UrlText "https://host/x.png") 1])).
Proof.
  apply (normalizer_indices [ItemOther; ItemString "https://host/x.png"]
           [url_record (UrlText "https://host/x.png") 1]).
  left. reflexivity.
Defined.

(** ** From the request to the completed job *)

Lemma resume_completes w finish requestId options job files records :
  Server.active_virtualTryOn w files (modelImage job) (garments job)
                             (Server.serviceOptions w options) = Returns records →
  (∀ record, record ∈ records → returned (Server.active_getImageBuffer w record)) →
  ∃ slots,
    (Server.resume w finish requestId options job files).1 =
      [Server.advance 80 "Processing results..." job;
       Server.complete slots finish (Server.advance 80 "Processing results..." job)] ∧
    (∀ k, k < length records →
          slots !! Server.slotName k = Some (resultReference requestId (userId job) k)) ∧
    (∀ k, length records ≤ k → slots !! Server.slotName k = None).
Proof.
  intros Hcall Hget.
  destruct (resume_cases w finish requestId options job files)
    as [(m & Hthrow & _) | [(records' & m & Hcall' & Hm & _) |
                            (records' & slots & Hcall' & Hslots & ->)]].
  - rewrite Hcall in Hthrow. discriminate.
  - rewrite Hcall in Hcall'. injection Hcall' as <-.
    by rewrite (materializeAll_returned_in w requestId _ records 0 ∅ files Hget) in Hm.
  - rewrite Hcall in Hcall'. injection Hcall' as <-.
    rewrite (materializeAll_returned_in w requestId _ records 0 ∅ files Hget) in Hslots.
    injection Hslots as <-. eexists. split; [reflexivity |]. split.
    + intros k Hk. case_bool_decide.
      * apply (filled_lookup requestId (userId job) (length records) 0 ∅ k). lia.
      * rewrite addExtras_keeps.
        apply (filled_lookup requestId (userId job) (length records) 0 ∅ k). lia.
    + intros k Hk.
      assert (filled requestId (userId job) 0 (length records) ∅ !! Server.slotName k = None)
        as Hnone.
      { rewrite filled_lookup_other; [apply lookup_empty |].
        intros k' Hk' H. apply slotName_inj in H. lia. }
      case_bool_decide; [done |]. by rewrite addExtras_keeps.
Qed.

(** X23.  From the request to the completed job.  When a request is
    accepted and its task then runs to its end, the service call returning
    records for each of which [getImageBuffer] returns: the owner's status
    read under the id of the answer is 200 [completed], at progress 100,
    with a result mapping that holds one result slot for each record, the
    [k]-th one being [/outputs/<owner>/vella-result-<id>-<k>.png], and none
    beyond; the same read by any other user is refused with 403. *)
Theorem generate_finish_status (w : World) (now finish : Z) (req : Request) (st st' : State)
    (response : Response) (task : Server.Task) (records : list ResultRecord) :
  Server.generate w now req st = (st', response, Some task) →
  Server.active_virtualTryOn w (disk st') (modelImage (Server.task_job task))
                             (garments (Server.task_job task))
                             (Server.serviceOptions w (Server.task_options task)) =
    Returns records →
  (∀ record, record ∈ records → returned (Server.active_getImageBuffer w record)) →
  response = Server.accepted (pretty now) ∧
  ∃ slots,
    (Server.getStatus (pretty now) (user_userId req)
                      (Server.finishTask w finish task st')).2 =
      mkResponse 200
        [("status", FString "completed"); ("progress", FNumber 100);
         ("message", FString "Vella virtual try-on completed successfully");
         ("results", FResults (Some slots))] ∧
    (∀ k, k < length records →
          slots !! Server.slotName k =
          Some (resultReference (pretty now) (user_userId req) k)) ∧
    (∀ k, length records ≤ k → slots !! Server.slotName k = None) ∧
    (∀ other, other ≠ user_userId req →
       (Server.getStatus (pretty now) other (Server.finishTask w finish task st')).2 =
         mkResponse 403 [("error", FString "Access denied")]).
Proof.
  intros Hgenerate Hcall Hget.
  destruct (generate_accepted _ _ _ _ _ _ _ Hgenerate) as (Hid & -> & -> & _ & Howner).
  split; [done |].
  destruct (resume_completes w finish (pretty now) (Server.task_options task)
              (Server.task_job task) (disk st) records Hcall Hget)
    as (slots & Hwritten & Hfilled & Hbeyond).
  exists slots.
  assert (generationJobs
            (Server.finishTask w finish task
               (Server.store (pretty now) (Server.task_job task) st)) !! pretty now =
          Some (Server.complete slots finish
                  (Server.advance 80 "Processing results..." (Server.task_job task))))
    as Hdone.
  { unfold Server.finishTask. rewrite Hid. simpl.
    destruct (Server.resume w finish (pretty now) (Server.task_options task)
                (Server.task_job task) (disk st)) as [written files].
    simpl in Hwritten. subst written. simpl. apply lookup_insert_eq. }
  refine (conj _ (conj _ (conj Hbeyond _))).
  - unfold Server.getStatus. rewrite Hdone. simpl.
    by rewrite Howner, String.eqb_refl.
  - intros k Hk. rewrite <- Howner. by apply Hfilled.
  - intros other Hother. unfold Server.getStatus. rewrite Hdone. simpl. rewrite Howner.
    destruct (String.eqb_spec (user_userId req) other) as [Heq | _]; [| done].
    by destruct Hother.
Qed.

(** The sample request, the model answering with one URL. *)
Lemma generate_finish_status_witness :
  ∃ slots,
    (Server.getStatus "1700000000000" "alice"
       (Server.finishTask healthyWorld 1700000000500
          (Server.mkTask "1700000000000" (Server.mkTaskOptions 1 JUndefined)
             (Server.running (Server.preparing (sampleJob "alice"))))
          (Server.store "1700000000000"
             (Server.running (Server.preparing (sampleJob "alice"))) emptyRegistry))).2 =
      mkResponse 200
        [("status", FString "completed"); ("progress", FNumber 100);
         ("message", FString "Vella virtual try-on completed successfully");
         ("results", FResults (Some slots))] ∧
    slots !! "tryonResult1" = Some "/outputs/alice/vella-result-1700000000000-0.png" ∧
    slots !! "tryonResult2" = None.
Proof.
  destruct (generate_finish_status healthyWorld 1700000000000 1700000000500
              (sampleRequest "alice") emptyRegistry
              (Server.store "1700000000000"
                 (Server.running (Server.preparing (sampleJob "alice"))) emptyRegistry)
              (Server.accepted "1700000000000")
              (Server.mkTask "1700000000000" (Server.mkTaskOptions 1 JUndefined)
                 (Server.running (Server.preparing (sampleJob "alice"))))
              [urlRecord])
    as (_ & slots & Hstatus & Hfilled & Hbeyond & _).
  - vm_compute. reflexivity.
  - vm_compute. reflexivity.
  - intros record Hin. apply list_elem_of_singleton in Hin as ->. by eexists.
  - exists slots. split; [exact Hstatus |].
    split; [exact (Hfilled 0 (Nat.lt_0_succ 0)) | exact (Hbeyond 1 (le_n 1))].
Defined.

(** ** A job without a record *)

Lemma server_normalizer_nonempty output records :
  Server.processReplicateOutput output = Returns records → records ≠ [].
Proof.
  unfold Server.processReplicateOutput.
  assert (∀ r : Result (list ResultRecord),
            try_catch
              (results ← r;
               if bool_decide (length results = 0) then Returns Server.createMockResults
               else Returns results)
              (λ m, Throws ("Failed to process results: " +:+ m)) = Returns records →
            records ≠ []) as Hwrap.
  { intros [results | m]; simpl; [| discriminate].
    case_bool_decide as Hlen; intros [= <-]; [done |]. by intros ->. }
  destruct output as [items | [stream | s | url |]]; try apply Hwrap.
  by intros [= <-].
Qed.

Lemma mockLoop_length w modelImagePath garments : ∀ indices mockResults records,
  Server.mockLoop w modelImagePath garments indices mockResults = Returns records →
  length records = length mockResults + length indices.
Proof.
  induction indices as [| i rest IH]; intros mockResults records; simpl.
  - intros [= <-]. lia.
  - destruct (Server.createProfessionalMockImage w modelImagePath garments (Z.of_nat i))
      as [mockBuffer | m]; simpl; [| discriminate].
    intros H. apply IH in H. rewrite length_app in H. simpl in H. lia.
Qed.

(** X24.  A job without a record.  The hosted-model service never
    returns an empty list of records; the mock service returns one exactly
    when the count it receives is negative.  A job whose service call
    returns no record is completed all the same: its result mapping is
    empty (no result slot and no extra image), no file is written, the
    clean-up runs, and the owner's status read shows [completed] with the
    empty mapping. *)
Theorem job_without_record (w : World) (finish : Z) (requestId : string)
    (options : Server.TaskOptions) (st : State) (job : Job) :
  (∀ files modelImagePath garments serviceOptions records,
     Server.virtualTryOn w files modelImagePath garments serviceOptions = Returns records →
     records ≠ []) ∧
  (∀ modelImagePath garments serviceOptions,
     Server.mock_virtualTryOn w modelImagePath garments serviceOptions = Returns [] ↔
     (numOutputs serviceOptions < 0)%Z) ∧
  (generationJobs st !! requestId = Some job →
   Server.active_virtualTryOn w (disk st) (modelImage job) (garments job)
                              (Server.serviceOptions w options) = Returns [] →
   generationJobs (Server.processVellaTryOn w finish requestId options st) !! requestId =
     Some (Server.complete ∅ finish
             (Server.advance 80 "Processing results..."
                (Server.running (Server.preparing job)))) ∧
   disk (Server.processVellaTryOn w finish requestId options st) =
     Server.cleanup job (disk st) ∧
   (Server.getStatus requestId (userId job)
      (Server.processVellaTryOn w finish requestId options st)).2 =
     mkResponse 200
       [("status", FString "completed"); ("progress", FNumber 100);
        ("message", FString "Vella virtual try-on completed successfully");
        ("results", FResults (Some ∅))]).
Proof.
  refine (conj _ (conj _ _)).
  - intros files modelImagePath garments serviceOptions records.
    unfold Server.virtualTryOn.
    destruct (Server.prepareImage files modelImagePath) as [modelImageBuffer | m]; simpl;
      [| discriminate].
    destruct (Server.attachGarments files garments ∅) as [images | m]; simpl;
      [| discriminate].
    destruct (replicate_run w _) as [output | m]; simpl; [| discriminate].
    apply server_normalizer_nonempty.
  - intros modelImagePath garments serviceOptions. unfold Server.mock_virtualTryOn. split.
    + intros H. apply mockLoop_length in H. rewrite length_seq in H. simpl in H.
      destruct (numOutputs serviceOptions) as [| count | count]; simpl in H; lia.
    + intros Hnegative.
      destruct (numOutputs serviceOptions) as [| count | count]; [lia | lia | reflexivity].
  - intros Hjob Hcall.
    assert (Server.processVellaTryOn w finish requestId options st =
            mkState
              (<[requestId :=
                   Server.complete ∅ finish
                     (Server.advance 80 "Processing results..."
                        (Server.running (Server.preparing job)))]>
                 (<[requestId := Server.advance 80 "Processing results..."
                                   (Server.running (Server.preparing job))]>
                    (<[requestId := Server.running (Server.preparing job)]>
                       (<[requestId := Server.preparing job]> (generationJobs st)))))
              (Server.cleanup job (disk st))) as ->.
    { unfold Server.processVellaTryOn, Server.pipeline, Server.resume.
      rewrite Hjob. simpl modelImage. simpl garments. rewrite Hcall. reflexivity. }
    simpl. split; [apply lookup_insert_eq |]. split; [done |].
    unfold Server.getStatus. simpl. rewrite lookup_insert_eq. simpl.
    by rewrite String.eqb_refl.
Qed.

(** ** The first status a client can read *)

(** X25.  The first two updates of a task are made before the handler's
    turn ends.  When a request is accepted, the state the handler leaves
    already holds the job at progress 40 with the message [Running Vella AI
    model...]: the owner's status read in that state shows it, not the
    progress 0 or 20.  The job the task goes on with is the registered one,
    under the id of the answer; no other job and no file is touched. *)
Theorem generate_first_status (w : World) (now : Z) (req : Request) (st st' : State)
    (response : Response) (task : Server.Task) :
  Server.generate w now req st = (st', response, Some task) →
  generationJobs st' !! pretty now = Some (Server.task_job task) ∧
  Server.task_requestId task = pretty now ∧
  Server.getStatus (pretty now) (user_userId req) st' =
    (st',
     mkResponse 200
       [("status", FString "processing"); ("progress", FNumber 40);
        ("message", FString "Running Vella AI model...")]) ∧
  (∀ other, other ≠ pretty now →
     generationJobs st' !! other = generationJobs st !! other) ∧
  disk st' = disk st.
Proof.
  unfold Server.generate.
  destruct (Server.validated w req st) as [[garments modelImagePath] | reply | m];
    [| discriminate | discriminate].
  intros [= <- <- <-]. simpl.
  refine (conj _ (conj eq_refl (conj _ (conj _ eq_refl)))).
  - apply lookup_insert_eq.
  - unfold Server.getStatus. simpl. rewrite lookup_insert_eq. simpl.
    by rewrite String.eqb_refl.
  - intros other Hother. by rewrite lookup_insert_ne.
Qed.

(** The sample request. *)
Lemma generate_first_status_witness :
  Server.getStatus "1700000000000" "alice"
    (Server.store "1700000000000" (Server.running (Server.preparing (sampleJob "alice")))
                  emptyRegistry) =
  (Server.store "1700000000000" (Server.running (Server.preparing (sampleJob "alice")))
                emptyRegistry,
   mkResponse 200
     [("status", FString "processing"); ("progress", FNumber 40);
      ("message", FString "Running Vella AI model...")]).
Proof.
  refine (proj1 (proj2 (proj2 (generate_first_status healthyWorld 1700000000000
            (sampleRequest "alice") emptyRegistry
            (Server.store "1700000000000"
               (Server.running (Server.preparing (sampleJob "alice"))) emptyRegistry)
            (Server.accepted "1700000000000")
            (Server.mkTask "1700000000000" (Server.mkTaskOptions 1 JUndefined)
               (Server.running (Server.preparing (sampleJob "alice")))) _)))).
  vm_compute. reflexivity.
Defined.

(** ** The errors of the server's service *)

(** X26.  For garments whose types are plain strings, the server's
    [virtualTryOn] throws in three ways only, and none of them renames the
    error.  When an image is missing from the disk (the model image first,
    then the garments in order) the error is [Virtual try-on failed: Image
    preparation failed: ENOENT: ...] for the first missing path; when the
    call of the model throws, it is [Virtual try-on failed: ] followed by
    the model's message, also when the message mentions [auth] or
    [timeout]; when the model returns a stream that breaks, alone or in an
    array, it is the normalizer's [Failed to process results: ...] without
    the prefix.  The fields sent to the model are those of the stand-alone
    service. *)
Theorem server_virtualTryOn_throws (w : World) (files : Disk) (modelImagePath : string)
    (garments : list Garment) (options : Options) (e : string) :
  plainTypes garments →
  Server.virtualTryOn w files modelImagePath garments options = Throws e →
  (∃ missing,
     firstMissing files (modelImagePath :: (garment_imagePath <$> garments)) = Some missing ∧
     e = "Virtual try-on failed: " +:+ preparationFailed missing) ∨
  (∃ modelImageBuffer images,
     files !! modelImagePath = Some modelImageBuffer ∧
     Server.attachGarments files garments ∅ = Returns images ∧
     match replicate_run w
             (input_fields (VellaTryOn.input w garments options modelImageBuffer images)) with
     | Throws m => e = "Virtual try-on failed: " +:+ m
     | Returns output =>
         ∃ stream reason,
           (output = OutputSingle (ItemStream stream) ∨
            ∃ items, output = OutputArray items ∧ ItemStream stream ∈ items) ∧
           failure stream = Some reason ∧ e = "Failed to process results: " +:+ reason
     end).
Proof.
  intros _ H.
  destruct (firstMissing files (modelImagePath :: (garment_imagePath <$> garments)))
    as [missing |] eqn:Hmissing.
  - left. exists missing. split; [done |].
    rewrite (server_virtualTryOn_missing _ _ _ _ _ _ Hmissing) in H. by injection H as <-.
  - right. revert H. unfold Server.virtualTryOn.
    simpl in Hmissing. unfold Server.prepareImage at 1.
    destruct (files !! modelImagePath) as [modelImageBuffer |]; [| discriminate]. simpl.
    pose proof (server_attachGarments_cases files garments ∅) as Hattach.
    rewrite Hmissing in Hattach. destruct Hattach as [images Himages].
    rewrite Himages. simpl. intros H.
    exists modelImageBuffer, images. split; [done |]. split; [done |].
    destruct (replicate_run w _) as [output | m]; simpl in H.
    + by apply server_normalizer_throws.
    + by injection H as <-.
Qed.

(** A model that refuses the token: the server's message keeps the
    model's words. *)
Lemma server_virtualTryOn_throws_witness :
  ((∃ missing,
      firstMissing sampleDisk ["/srv/app/defaults/model1.png"] = Some missing ∧
      "Virtual try-on failed: quota exceeded" =
        "Virtual try-on failed: " +:+ preparationFailed missing) ∨
   (∃ modelImageBuffer images,
      sampleDisk !! "/srv/app/defaults/model1.png" = Some modelImageBuffer ∧
      Server.attachGarments sampleDisk [] ∅ = Returns images ∧
      match replicate_run quotaWorld
              (input_fields (VellaTryOn.input quotaWorld [] (mkOptions 1 None)
                                              modelImageBuffer images)) with
      | Throws m => "Virtual try-on failed: quota exceeded" = "Virtual try-on failed: " +:+ m
      | Returns output =>
          ∃ stream reason,
            (output = OutputSingle (ItemStream stream) ∨
             ∃ items, output = OutputArray items ∧ ItemStream stream ∈ items) ∧
            failure stream = Some reason ∧
            "Virtual try-on failed: quota exceeded" = "Failed to process results: " +:+ reason
      end)).
Proof.
  apply (server_virtualTryOn_throws quotaWorld sampleDisk "/srv/app/defaults/model1.png" []
           (mkOptions 1 None) "Virtual try-on failed: quota exceeded" (Forall_nil_2 _) eq_refl).
Defined.
